(** * The collaborative editor: client (frontend/src/App.jsx) and server
      (backend/index.js)

    A shallow embedding of the React component [App]: its state variables,
    the handlers it registers on the socket, the handlers it attaches to the
    page, and the small part of the JavaScript run time they rely on
    (strings, property access, double-precision numbers, timers); and of
    the Socket.IO server: its two maps, the variables of a connection and
    its listeners, with the execution service and the generative service
    as functions the listeners are given. *)

From Stdlib Require Import ZArith List String Ascii Bool Lia Sorted.
Import ListNotations.
Local Open Scope string_scope.
Local Open Scope Z_scope.

(** ** JavaScript numbers

    [Math.random() * 900000] and [100000 + ...] are operations on IEEE-754
    binary64 values.  Every finite non-negative binary64 value is an integer
    multiple of 2^-1074 (the smallest subnormal), so such a value is stored
    as that multiple: the number x is the integer x * 2^1074.  Only finite
    non-negative numbers below the overflow threshold occur in the program. *)
Module Number.

Definition float64 := Z.

(** number of fractional bits of the grid *)
Definition frac : Z := 1074.
(** precision of the significand *)
Definition prec : Z := 53.

(** An integer literal; exact for 0 <= n < 2^53. *)
Definition of_Z (n : Z) : float64 := Z.shiftl n frac.

Definition one : float64 := of_Z 1.

(** Round [v / 2^sh] to the nearest integer, ties to the even one. *)
Definition rne (v sh : Z) : Z :=
  if sh <=? 0 then v
  else
    let q := Z.shiftr v sh in
    let r := Z.land v (Z.ones sh) in
    let half := Z.shiftl 1 (sh - 1) in
    if (half <? r) || ((r =? half) && Z.odd q) then q + 1 else q.

(** The number of low bits of [v] that rounding removes, [v] being in units
    of 2^-(1074+k): at least [k], to come back to the grid (this is all that
    happens in the subnormal range), and more when the significand would
    exceed 53 bits. *)
Definition drop (k v : Z) : Z := Z.max (Z.log2 v + 1 - prec) k.

(** [round_at k v]: the binary64 value nearest to the exact value
    v * 2^-(1074+k), ties to even. *)
Definition round_at (k v : Z) : float64 :=
  let sh := drop k v in
  Z.shiftl (rne v sh) (sh - k).

(** [x * y]: the exact product has 2*1074 fractional bits. *)
Definition mul (x y : float64) : float64 := round_at frac (x * y).

(** [x + y] *)
Definition add (x y : float64) : float64 := round_at 0 (x + y).

(** [Math.floor(x)], an integer *)
Definition floor (x : float64) : Z := Z.shiftr x frac.

(** A grid point is a binary64 value when rounding leaves it alone. *)
Definition is_double (x : float64) : bool :=
  (0 <=? x) && (round_at 0 x =? x).

(** The greatest binary64 value below 1, that is 1 - 2^-53. *)
Definition max_draw : float64 := one - Z.shiftl 1 1021.

(** The character of a decimal digit: '0' is character 48. *)
Definition digit_char (d : Z) : ascii := ascii_of_nat (48 + Z.to_nat d).

(** Decimal digits, least significant first; [fuel] bounds the digit count. *)
Fixpoint digits_rev (fuel : nat) (n : Z) : list ascii :=
  match fuel with
  | O => []
  | S fuel' =>
      if n <? 10 then [digit_char (n mod 10)]
      else digit_char (n mod 10) :: digits_rev fuel' (n / 10)
  end.

(** [n.toString()] for an integral number 0 <= n < 10^21, which JavaScript
    prints as plain decimal digits. *)
Definition toString (n : Z) : string :=
  string_of_list_ascii (rev (digits_rev 22 n)).

End Number.

(** ** JavaScript values, strings and property access *)
Module JS.

#[local] Set Warnings "-register-all".

(** Values that travel over the socket (what JSON can carry, and
    [undefined]).  An object is its list of own properties in insertion
    order. *)
Inductive value : Type :=
| VUndefined
| VNull
| VBool (b : bool)
| VNumber (x : Number.float64)
| VString (s : string)
| VArray (items : list value)
| VObject (fields : list (string * value)).

Inductive error : Type :=
| TypeError (msg : string).

(** Own property lookup.  An object has at most one property of a given
    name, so the first binding found is the property. *)
Fixpoint lookup (k : string) (fields : list (string * value)) : option value :=
  match fields with
  | [] => None
  | (k', v) :: rest => if String.eqb k k' then Some v else lookup k rest
  end.

(** [v.k] for the keys this program reads ([run], [output]): reading a
    property of [undefined] or [null] throws a TypeError; a missing property
    is [undefined]; primitives and arrays have no property of these names. *)
Definition get (v : value) (k : string) : error + value :=
  match v with
  | VUndefined => inl (TypeError ("Cannot read properties of undefined (reading '" ++ k ++ "')")%string)
  | VNull => inl (TypeError ("Cannot read properties of null (reading '" ++ k ++ "')")%string)
  | VObject fields =>
      match lookup k fields with
      | Some x => inr x
      | None => inr VUndefined
      end
  | _ => inr VUndefined
  end.

(** Truthiness of a string: only the empty string is falsy. *)
Definition truthy (s : string) : bool := negb (String.eqb s "").

(** [a && b] on strings: [a] when [a] is falsy, [b] otherwise. *)
Definition and_ (a b : string) : string := if truthy a then b else a.

(** [s.slice(start, end)] (String.prototype.slice): negative indices count
    from the end, both are clamped to the string, an empty range gives the
    empty string. *)
Definition slice (s : string) (istart iend : Z) : string :=
  let len := Z.of_nat (String.length s) in
  let from := if istart <? 0 then Z.max (len + istart) 0 else Z.min istart len in
  let to := if iend <? 0 then Z.max (len + iend) 0 else Z.min iend len in
  if to <=? from then ""
  else String.substring (Z.to_nat from) (Z.to_nat (to - from)) s.

End JS.

(** ** The component state and its effects *)
Module App.
Import JS.

(** The [useState] variables of [App], with the source's names.  [outPut]
    holds whatever [response.run.output] was, hence a [value]. *)
Record AppState : Type := mkState {
  joined : bool;
  roomId : string;
  userName : string;
  language : string;
  code : string;
  copySuccess : string;
  users : list string;
  typing : string;
  outPut : value;
  input : string;
  version : string;
  isRev : bool;
  isModalOpen : bool;
  modalMessage : string
}.

(** The initial values passed to [useState]. *)
Definition initial : AppState :=
  {| joined := false;
     roomId := "";
     userName := "";
     language := "cpp";
     code := "// start coding here...";
     copySuccess := "";
     users := [];
     typing := "";
     outPut := VString "";
     input := "";
     version := "*";
     isRev := false;
     isModalOpen := false;
     modalMessage := "" |}.

(** The closures handed to [setTimeout]. *)
Inductive callback : Type :=
| ClearTyping        (* () => setTyping("") *)
| ClearCopySuccess.  (* () => { setCopySuccess("") } *)

(** What a handler does to the outside world, in program order. *)
Inductive effect : Type :=
| Emit (event : string) (args : list value)      (* socket.emit(event, ...args) *)
| SetTimeout (cb : callback) (delay : Z)         (* setTimeout(cb, delay), milliseconds *)
| ConsoleLog (args : list value)                 (* console.log(...args) *)
| ClipboardWrite (text : string).                (* navigator.clipboard.writeText(text) *)

(** A handler body: it reads and updates the state, appends effects, and
    either returns or throws.  What was done before a throw stays done. *)
Definition M (A : Type) : Type := AppState -> (error + A) * AppState * list effect.

Definition ret {A} (a : A) : M A := fun s => (inr a, s, []).

Definition bind {A B} (m : M A) (f : A -> M B) : M B :=
  fun s =>
    match m s with
    | (inl e, s1, fx1) => (inl e, s1, fx1)
    | (inr a, s1, fx1) =>
        match f a s1 with
        | (r, s2, fx2) => (r, s2, (fx1 ++ fx2)%list)
        end
    end.

Definition read : M AppState := fun s => (inr s, s, []).
Definition modify (f : AppState -> AppState) : M unit := fun s => (inr tt, f s, []).
Definition perform (fx : effect) : M unit := fun s => (inr tt, s, [fx]).
Definition lift {A} (r : error + A) : M A := fun s => (r, s, []).

Notation "x <- m ;; k" := (bind m (fun x => k))
  (at level 61, m at next level, right associativity).
Notation "m ;; k" := (bind m (fun _ => k))
  (at level 61, right associativity).

Definition emit (event : string) (args : list value) : M unit := perform (Emit event args).
Definition setTimeout (cb : callback) (delay : Z) : M unit := perform (SetTimeout cb delay).
Definition console_log (args : list value) : M unit := perform (ConsoleLog args).
Definition clipboard_writeText (text : string) : M unit := perform (ClipboardWrite text).

(** The state setters returned by [useState].  [setVersion] is declared by
    the component and never called. *)
Definition setJoined (x : bool) : M unit :=
  modify (fun s =>
    {| joined := x; roomId := roomId s; userName := userName s; language := language s; code := code s;
       copySuccess := copySuccess s; users := users s; typing := typing s; outPut := outPut s; input := input s;
       version := version s; isRev := isRev s; isModalOpen := isModalOpen s; modalMessage := modalMessage s |}).
Definition setRoomId (x : string) : M unit :=
  modify (fun s =>
    {| joined := joined s; roomId := x; userName := userName s; language := language s; code := code s;
       copySuccess := copySuccess s; users := users s; typing := typing s; outPut := outPut s; input := input s;
       version := version s; isRev := isRev s; isModalOpen := isModalOpen s; modalMessage := modalMessage s |}).
Definition setUserName (x : string) : M unit :=
  modify (fun s =>
    {| joined := joined s; roomId := roomId s; userName := x; language := language s; code := code s;
       copySuccess := copySuccess s; users := users s; typing := typing s; outPut := outPut s; input := input s;
       version := version s; isRev := isRev s; isModalOpen := isModalOpen s; modalMessage := modalMessage s |}).
Definition setLanguage (x : string) : M unit :=
  modify (fun s =>
    {| joined := joined s; roomId := roomId s; userName := userName s; language := x; code := code s;
       copySuccess := copySuccess s; users := users s; typing := typing s; outPut := outPut s; input := input s;
       version := version s; isRev := isRev s; isModalOpen := isModalOpen s; modalMessage := modalMessage s |}).
Definition setCode (x : string) : M unit :=
  modify (fun s =>
    {| joined := joined s; roomId := roomId s; userName := userName s; language := language s; code := x;
       copySuccess := copySuccess s; users := users s; typing := typing s; outPut := outPut s; input := input s;
       version := version s; isRev := isRev s; isModalOpen := isModalOpen s; modalMessage := modalMessage s |}).
Definition setCopySuccess (x : string) : M unit :=
  modify (fun s =>
    {| joined := joined s; roomId := roomId s; userName := userName s; language := language s; code := code s;
       copySuccess := x; users := users s; typing := typing s; outPut := outPut s; input := input s;
       version := version s; isRev := isRev s; isModalOpen := isModalOpen s; modalMessage := modalMessage s |}).
Definition setUsers (x : list string) : M unit :=
  modify (fun s =>
    {| joined := joined s; roomId := roomId s; userName := userName s; language := language s; code := code s;
       copySuccess := copySuccess s; users := x; typing := typing s; outPut := outPut s; input := input s;
       version := version s; isRev := isRev s; isModalOpen := isModalOpen s; modalMessage := modalMessage s |}).
Definition setTyping (x : string) : M unit :=
  modify (fun s =>
    {| joined := joined s; roomId := roomId s; userName := userName s; language := language s; code := code s;
       copySuccess := copySuccess s; users := users s; typing := x; outPut := outPut s; input := input s;
       version := version s; isRev := isRev s; isModalOpen := isModalOpen s; modalMessage := modalMessage s |}).
Definition setOutput (x : value) : M unit :=
  modify (fun s =>
    {| joined := joined s; roomId := roomId s; userName := userName s; language := language s; code := code s;
       copySuccess := copySuccess s; users := users s; typing := typing s; outPut := x; input := input s;
       version := version s; isRev := isRev s; isModalOpen := isModalOpen s; modalMessage := modalMessage s |}).
Definition setInput (x : string) : M unit :=
  modify (fun s =>
    {| joined := joined s; roomId := roomId s; userName := userName s; language := language s; code := code s;
       copySuccess := copySuccess s; users := users s; typing := typing s; outPut := outPut s; input := x;
       version := version s; isRev := isRev s; isModalOpen := isModalOpen s; modalMessage := modalMessage s |}).
Definition setVersion (x : string) : M unit :=
  modify (fun s =>
    {| joined := joined s; roomId := roomId s; userName := userName s; language := language s; code := code s;
       copySuccess := copySuccess s; users := users s; typing := typing s; outPut := outPut s; input := input s;
       version := x; isRev := isRev s; isModalOpen := isModalOpen s; modalMessage := modalMessage s |}).
Definition setIsRev (x : bool) : M unit :=
  modify (fun s =>
    {| joined := joined s; roomId := roomId s; userName := userName s; language := language s; code := code s;
       copySuccess := copySuccess s; users := users s; typing := typing s; outPut := outPut s; input := input s;
       version := version s; isRev := x; isModalOpen := isModalOpen s; modalMessage := modalMessage s |}).
Definition setIsModalOpen (x : bool) : M unit :=
  modify (fun s =>
    {| joined := joined s; roomId := roomId s; userName := userName s; language := language s; code := code s;
       copySuccess := copySuccess s; users := users s; typing := typing s; outPut := outPut s; input := input s;
       version := version s; isRev := isRev s; isModalOpen := x; modalMessage := modalMessage s |}).
Definition setModalMessage (x : string) : M unit :=
  modify (fun s =>
    {| joined := joined s; roomId := roomId s; userName := userName s; language := language s; code := code s;
       copySuccess := copySuccess s; users := users s; typing := typing s; outPut := outPut s; input := input s;
       version := version s; isRev := isRev s; isModalOpen := isModalOpen s; modalMessage := x |}).

(** *** Handlers registered on the socket (first [useEffect]) *)

Definition on_userJoined (users : list string) : M unit :=
  setUsers users.

Definition on_codeUpdate (newCode : string) : M unit :=
  setCode newCode.

Definition on_userTyping (user : string) : M unit :=
  setTyping (slice user 0 10 ++ " is typing...") ;;
  setTimeout ClearTyping 2000.

Definition on_languageUpdate (newLanguage : string) : M unit :=
  console_log [VString newLanguage] ;;
  setLanguage newLanguage.

Definition on_codeResponse (response : value) : M unit :=
  run <- lift (get response "run") ;;
  output <- lift (get run "output") ;;
  setOutput output.

Definition on_AIReview (message : string) : M unit :=
  console_log [VString "AI Review:"; VString message] ;;
  setModalMessage message ;;
  setIsModalOpen true ;;
  setIsRev false.

(** *** The window's [beforeunload] listener (second [useEffect]) *)

Definition handleBeforeUnload : M unit :=
  emit "leaveRoom" [].

(** *** Handlers attached to the page *)

Definition JoinRoom : M unit :=
  s <- read ;;
  if truthy (and_ (roomId s) (userName s)) then
    emit "join" [VObject [("roomId", VString (roomId s));
                          ("userName", VString (userName s))]] ;;
    setJoined true
  else ret tt.

Definition leaveRoom : M unit :=
  emit "leaveRoom" [] ;;
  setJoined false ;;
  setRoomId "" ;;
  setUserName "" ;;
  setCode "//start coding here..." ;;
  setLanguage "cpp".

(** [draw] is the value [Math.random()] returned. *)
Definition generateRoomId (draw : Number.float64) : string :=
  Number.toString
    (Number.floor
       (Number.add (Number.of_Z 100000) (Number.mul draw (Number.of_Z 900000)))).

Definition handleCreateRoom (draw : Number.float64) : M unit :=
  let newRoomId := generateRoomId draw in
  setRoomId newRoomId.

Definition copyRoomId : M unit :=
  s <- read ;;
  clipboard_writeText (roomId s) ;;
  setCopySuccess "Copied!" ;;
  setTimeout ClearCopySuccess 2000.

Definition handleCodeChange (newCode : string) : M unit :=
  s <- read ;;
  setCode newCode ;;
  emit "codeChange" [VObject [("roomId", VString (roomId s));
                              ("code", VString newCode)]] ;;
  emit "typing" [VString (roomId s); VString (userName s)].

(** [target_value] is [e.target.value]. *)
Definition handleLanguageChange (target_value : string) : M unit :=
  s <- read ;;
  let newLanguage := target_value in
  setLanguage newLanguage ;;
  emit "languageChange" [VObject [("roomId", VString (roomId s));
                                  ("language", VString newLanguage)]].

Definition runCode : M unit :=
  s <- read ;;
  emit "compileCode" [VObject [("code", VString (code s));
                               ("roomId", VString (roomId s));
                               ("language", VString (language s));
                               ("version", VString (version s));
                               ("stdin", VString (input s))]].

Definition AIreview : M unit :=
  s <- read ;;
  setIsRev true ;;
  emit "getAIReview" [VObject [("roomId", VString (roomId s));
                               ("code", VString (code s))]].

Definition closeModal : M unit :=
  setIsModalOpen false ;;
  setModalMessage "".

Definition run_callback (cb : callback) : M unit :=
  match cb with
  | ClearTyping => setTyping ""
  | ClearCopySuccess => setCopySuccess ""
  end.

(** *** What the render function shows *)

Inductive screen : Type := JoinForm | Editor.

Definition rendered (s : AppState) : screen :=
  if negb (joined s) then JoinForm else Editor.

(** [<p className="typing-indicator">{typing}</p>] *)
Definition typing_indicator (s : AppState) : string := typing s.
(** [<textarea className="output-console" value={outPut} />] *)
Definition output_console (s : AppState) : value := outPut s.
(** [users.map((user, index) => <li key={index}>{user}</li>)] *)
Definition user_list (s : AppState) : list string := map (fun user => user) (users s).
(** [<button className="ai-review-button" disabled={isRev}>] *)
Definition review_button_disabled (s : AppState) : bool := isRev s.
(** [{isModalOpen && <div className="modal-overlay"> ... {modalMessage}] *)
Definition modal (s : AppState) : option string :=
  if isModalOpen s then Some (modalMessage s) else None.

(** *** The running client

    The component state together with the clock, the timers that are still
    pending (with the time at which each is due) and everything the client
    has done so far. *)
Record World : Type := mkWorld {
  app : AppState;
  now : Z;
  pending : list (Z * callback);
  trace : list effect
}.

Definition boot : World :=
  {| app := initial; now := 0; pending := []; trace := [] |}.

(** What can happen to the client: the user acts on the page, the server
    sends an event, the window unloads, or time passes. *)
Inductive stimulus : Type :=
| ChangeRoomId (target_value : string)
| ChangeUserName (target_value : string)
| ClickCreateRoom (draw : Number.float64)
| ClickJoinRoom
| ClickCopyId
| SelectLanguage (target_value : string)
| ClickLeaveRoom
| ClickAIReview
| EditCode (newCode : string)
| ChangeInput (target_value : string)
| ClickExecute
| ClickCloseModal
| BeforeUnload
| Recv_userJoined (users : list string)
| Recv_codeUpdate (newCode : string)
| Recv_userTyping (user : string)
| Recv_languageUpdate (newLanguage : string)
| Recv_codeResponse (response : value)
| Recv_AIReview (message : string)
| Elapse (ms : Z).

(** The handler the source attaches to each stimulus. *)
Definition handler (x : stimulus) : M unit :=
  match x with
  | ChangeRoomId v => setRoomId v
  | ChangeUserName v => setUserName v
  | ClickCreateRoom draw => handleCreateRoom draw
  | ClickJoinRoom => JoinRoom
  | ClickCopyId => copyRoomId
  | SelectLanguage v => handleLanguageChange v
  | ClickLeaveRoom => leaveRoom
  | ClickAIReview => AIreview
  | EditCode newCode => handleCodeChange newCode
  | ChangeInput v => setInput v
  | ClickExecute => runCode
  | ClickCloseModal => closeModal
  | BeforeUnload => handleBeforeUnload
  | Recv_userJoined us => on_userJoined us
  | Recv_codeUpdate newCode => on_codeUpdate newCode
  | Recv_userTyping user => on_userTyping user
  | Recv_languageUpdate newLanguage => on_languageUpdate newLanguage
  | Recv_codeResponse response => on_codeResponse response
  | Recv_AIReview message => on_AIReview message
  | Elapse _ => ret tt
  end.

(** Timers requested by a handler that ran at time [t]. *)
Fixpoint scheduled (t : Z) (fx : list effect) : list (Z * callback) :=
  match fx with
  | [] => []
  | SetTimeout cb delay :: rest => (t + delay, cb) :: scheduled t rest
  | _ :: rest => scheduled t rest
  end.

(** Run one handler to its end (or to its throw; an exception thrown by a
    listener ends that listener only). *)
Definition dispatch (h : M unit) (w : World) : World :=
  match h (app w) with
  | (_, s, fx) =>
      {| app := s;
         now := now w;
         pending := (pending w ++ scheduled (now w) fx)%list;
         trace := (trace w ++ fx)%list |}
  end.

(** Let [ms] milliseconds pass: the timers that have become due fire, oldest
    first.  (Every delay in the program is the same, so the pending list is
    always in due order.) *)
Definition elapse (ms : Z) (w : World) : World :=
  let t := now w + Z.max 0 ms in
  let due := filter (fun p => fst p <=? t) (pending w) in
  let later := filter (fun p => negb (fst p <=? t)) (pending w) in
  fold_left (fun w' p => dispatch (run_callback (snd p)) w')
            due
            {| app := app w; now := t; pending := later; trace := trace w |}.

Definition step (w : World) (x : stimulus) : World :=
  match x with
  | Elapse ms => elapse ms w
  | _ => dispatch (handler x) w
  end.

Definition run (xs : list stimulus) (w : World) : World := fold_left step xs w.

(** The events a list of effects puts on the wire. *)
Fixpoint emitted (fx : list effect) : list (string * list value) :=
  match fx with
  | [] => []
  | Emit event args :: rest => (event, args) :: emitted rest
  | _ :: rest => emitted rest
  end.

(** State, outcome and effects of a handler run from state [s]. *)
Definition state_after {A} (h : M A) (s : AppState) : AppState := snd (fst (h s)).
Definition outcome {A} (h : M A) (s : AppState) : error + A := fst (fst (h s)).
Definition effects {A} (h : M A) (s : AppState) : list effect := snd (h s).

End App.

(** ** The server (backend/index.js)

    The connection handler of the Socket.IO server: the two global maps,
    the per-connection variables [currentRoom] and [currentUser], and the
    listeners registered on each socket.  The code-execution service and
    the generative service are outside the program; they appear as
    parameters of the two handlers that call them. *)
Module Server.
Import JS.

(** A [Map] with string keys, in insertion order. *)
Definition Map (V : Type) : Type := list (string * V).

Fixpoint map_get {V} (k : string) (m : Map V) : option V :=
  match m with
  | [] => None
  | (k', v) :: rest => if String.eqb k k' then Some v else map_get k rest
  end.

Definition map_has {V} (k : string) (m : Map V) : bool :=
  match map_get k m with Some _ => true | None => false end.

(** [m.set(k, v)]: an existing key keeps its place. *)
Fixpoint map_set {V} (k : string) (v : V) (m : Map V) : Map V :=
  match m with
  | [] => [(k, v)]
  | (k', v') :: rest =>
      if String.eqb k k' then (k, v) :: rest else (k', v') :: map_set k v rest
  end.

(** A [Set] of strings, in insertion order. *)
Definition set_has (x : string) (s : list string) : bool := existsb (String.eqb x) s.
Definition set_add (x : string) (s : list string) : list string :=
  if set_has x s then s else (s ++ [x])%list.
Definition set_delete (x : string) (s : list string) : list string :=
  filter (fun y => negb (String.eqb y x)) s.

(** [Array.from(set)] as it goes on the wire. *)
Definition array_from (s : list string) : value := VArray (map VString s).

(** An entry of [roomData]: an object whose [code] and [language]
    properties may be absent. *)
Record RoomInfo : Type := mkInfo {
  info_code : option string;
  info_language : option string
}.

(** The closure variables of one connection; [None] is [null]. *)
Record Conn : Type := mkConn {
  currentRoom : option string;
  currentUser : option string
}.

(** The state of the server: [rooms], [roomData], which socket is in which
    Socket.IO room, and the variables of each connection (by socket id). *)
Record State : Type := mkState {
  rooms : Map (list string);
  roomData : Map RoomInfo;
  subs : list (string * string);
  conns : Map Conn
}.

Definition start : State :=
  {| rooms := []; roomData := []; subs := []; conns := [] |}.

(** Where an event is sent. *)
Inductive target : Type :=
| ToSender                     (* socket.emit *)
| ToRoom (roomId : string)     (* io.to(roomId).emit *)
| ToOthers (roomId : string).  (* socket.to(roomId).emit *)

(** What a listener does: it sends an event (to the sockets listed, those
    the target denotes at that moment) or writes to the console. *)
Inductive effect : Type :=
| Send (to : target) (recipients : list string) (event : string) (args : list value)
| Log (args : list value).

(** A listener body over the server state. *)
Definition H (A : Type) : Type := State -> (error + A) * State * list effect.

Definition ret {A} (a : A) : H A := fun st => (inr a, st, []).

Definition bind {A B} (m : H A) (f : A -> H B) : H B :=
  fun st =>
    match m st with
    | (inl e, st1, fx1) => (inl e, st1, fx1)
    | (inr a, st1, fx1) =>
        match f a st1 with
        | (r, st2, fx2) => (r, st2, (fx1 ++ fx2)%list)
        end
    end.

Definition read : H State := fun st => (inr st, st, []).
Definition modify (f : State -> State) : H unit := fun st => (inr tt, f st, []).
Definition throw {A} (e : error) : H A := fun st => (inl e, st, []).
Definition console_log (args : list value) : H unit := fun st => (inr tt, st, [Log args]).

Notation "x <- m ;; k" := (bind m (fun x => k))
  (at level 61, m at next level, right associativity).
Notation "m ;; k" := (bind m (fun _ => k))
  (at level 61, right associativity).

Definition state_after {A} (h : H A) (st : State) : State := snd (fst (h st)).
Definition outcome {A} (h : H A) (st : State) : error + A := fst (fst (h st)).
Definition effects_of {A} (h : H A) (st : State) : list effect := snd (h st).

(** The sockets in a Socket.IO room. *)
Definition subscribers (roomId : string) (st : State) : list string :=
  map fst (filter (fun p => String.eqb (snd p) roomId) (subs st)).

Definition recipients (sid : string) (to : target) (st : State) : list string :=
  match to with
  | ToSender => [sid]
  | ToRoom r => subscribers r st
  | ToOthers r => filter (fun x => negb (String.eqb x sid)) (subscribers r st)
  end.

Definition emit (sid : string) (to : target) (event : string) (args : list value) : H unit :=
  fun st => (inr tt, st, [Send to (recipients sid to st) event args]).

(** [socket.join(roomId)] and [socket.leave(roomId)] *)
Definition socket_join (sid roomId : string) : H unit :=
  modify (fun st =>
    {| rooms := rooms st; roomData := roomData st;
       subs := if existsb (fun p => String.eqb (fst p) sid && String.eqb (snd p) roomId) (subs st)
               then subs st else (subs st ++ [(sid, roomId)])%list;
       conns := conns st |}).

Definition socket_leave (sid roomId : string) : H unit :=
  modify (fun st =>
    {| rooms := rooms st; roomData := roomData st;
       subs := filter (fun p => negb (String.eqb (fst p) sid && String.eqb (snd p) roomId))
                      (subs st);
       conns := conns st |}).

Definition set_rooms (m : Map (list string)) : H unit :=
  modify (fun st =>
    {| rooms := m; roomData := roomData st; subs := subs st; conns := conns st |}).

Definition set_roomData (m : Map RoomInfo) : H unit :=
  modify (fun st =>
    {| rooms := rooms st; roomData := m; subs := subs st; conns := conns st |}).

Definition set_conn (sid : string) (c : Conn) : H unit :=
  modify (fun st =>
    {| rooms := rooms st; roomData := roomData st; subs := subs st;
       conns := map_set sid c (conns st) |}).

(** The variables of connection [sid] ([null], [null] when it has set
    none). *)
Definition conn_of (sid : string) (st : State) : Conn :=
  match map_get sid (conns st) with
  | Some c => c
  | None => {| currentRoom := None; currentUser := None |}
  end.

(** [rooms.get(roomId)]; calling a method on the result throws when the
    room is missing. *)
Definition rooms_get (roomId : string) : H (list string) :=
  st <- read ;;
  match map_get roomId (rooms st) with
  | Some members => ret members
  | None => throw (TypeError "Cannot read properties of undefined")
  end.

(** [rooms.get(roomId).delete(currentUser)], where [currentUser] may be
    [null] (which no set of names holds), and
    [rooms.get(roomId).add(userName)] *)
Definition members_delete (roomId : string) (user : option string) : H unit :=
  members <- rooms_get roomId ;;
  st <- read ;;
  match user with
  | Some userName => set_rooms (map_set roomId (set_delete userName members) (rooms st))
  | None => ret tt
  end.

Definition members_add (roomId userName : string) : H unit :=
  members <- rooms_get roomId ;;
  st <- read ;;
  set_rooms (map_set roomId (set_add userName members) (rooms st)).

(** [io.to(roomId).emit("userJoined", Array.from(rooms.get(roomId)))] *)
Definition broadcast_members (sid roomId : string) : H unit :=
  members <- rooms_get roomId ;;
  emit sid (ToRoom roomId) "userJoined" [array_from members].

(** *** Constants and helpers of the module *)

(** [defaultVersions[language]], for a language that is not the name of a
    property inherited from [Object.prototype]. *)
Definition defaultVersions (language : string) : value :=
  if String.eqb language "cpp" then VString "10.2.0"
  else if String.eqb language "python3" then VString "3.10.0"
  else if String.eqb language "javascript" then VString "18.15.0"
  else if String.eqb language "java" then VString "15.0.2"
  else VUndefined.

(** [s.includes(sub)] *)
Fixpoint includes (s sub : string) : bool :=
  if String.prefix sub s then true
  else match s with
       | EmptyString => false
       | String _ rest => includes rest sub
       end.

Definition detectLang (code : string) : string :=
  if includes code "#include" then "C++"
  else if includes code "def " || includes code "print(" then "Python"
  else if includes code "function" || includes code "console." then "JavaScript"
  else if includes code "public class" || includes code "System.out" then "Java"
  else "code".

(** *** The listeners *)

(** [io.on('connection', ...)]: the variables start as [null]. *)
Definition connection (sid : string) : H unit :=
  console_log [VString "A user connected:"; VString sid] ;;
  set_conn sid {| currentRoom := None; currentUser := None |}.

Definition join (sid roomId userName : string) : H unit :=
  st <- read ;;
  let c := conn_of sid st in
  (match currentRoom c with
   | Some room =>
       if truthy room then
         socket_leave sid room ;;
         members_delete room (currentUser c) ;;
         broadcast_members sid room
       else ret tt
   | None => ret tt
   end) ;;
  set_conn sid {| currentRoom := Some roomId; currentUser := Some userName |} ;;
  socket_join sid roomId ;;
  st1 <- read ;;
  (if negb (map_has roomId (rooms st1)) then set_rooms (map_set roomId [] (rooms st1))
   else ret tt) ;;
  members_add roomId userName ;;
  broadcast_members sid roomId ;;
  st2 <- read ;;
  let roomInfo := map_get roomId (roomData st2) in
  (match roomInfo with
   | Some {| info_code := Some code |} =>
       if truthy code then emit sid ToSender "codeUpdate" [VString code] else ret tt
   | _ => ret tt
   end) ;;
  (match roomInfo with
   | Some {| info_language := Some language |} =>
       if truthy language then emit sid ToSender "languageUpdate" [VString language]
       else ret tt
   | _ => ret tt
   end).

Definition codeChange (sid roomId code : string) : H unit :=
  emit sid (ToOthers roomId) "codeUpdate" [VString code] ;;
  st <- read ;;
  (if negb (map_has roomId (roomData st))
   then set_roomData (map_set roomId {| info_code := None; info_language := None |}
                              (roomData st))
   else ret tt) ;;
  st1 <- read ;;
  match map_get roomId (roomData st1) with
  | Some info =>
      set_roomData (map_set roomId {| info_code := Some code;
                                      info_language := info_language info |}
                            (roomData st1))
  | None => throw (TypeError "Cannot set properties of undefined")
  end.

Definition leaveRoom (sid : string) : H unit :=
  st <- read ;;
  let c := conn_of sid st in
  (match currentRoom c, currentUser c with
   | Some room, Some user =>
       if truthy room && truthy user then
         members_delete room (Some user) ;;
         broadcast_members sid room ;;
         socket_leave sid room ;;
         set_conn sid {| currentRoom := None; currentUser := None |}
       else ret tt
   | _, _ => ret tt
   end) ;;
  console_log [VString "A user disconnected"].

Definition typing (sid roomId userName : string) : H unit :=
  emit sid (ToOthers roomId) "userTyping" [VString userName].

Definition languageChange (sid roomId language : string) : H unit :=
  emit sid (ToRoom roomId) "languageUpdate" [VString language] ;;
  st <- read ;;
  (if negb (map_has roomId (roomData st))
   then set_roomData (map_set roomId {| info_code := None; info_language := None |}
                              (roomData st))
   else ret tt) ;;
  st1 <- read ;;
  match map_get roomId (roomData st1) with
  | Some info =>
      set_roomData (map_set roomId {| info_code := info_code info;
                                      info_language := Some language |}
                            (roomData st1))
  | None => throw (TypeError "Cannot set properties of undefined")
  end.

(** The payload of a compileCode event. *)
Record CompileMsg : Type := mkCompile {
  c_code : string;
  c_roomId : string;
  c_language : string;
  c_version : string;
  c_stdin : string
}.

(** The body posted to the execution service. *)
Record PistonRequest : Type := mkPiston {
  p_language : string;
  p_version : value;
  p_files : list string;   (* the [content] of each file *)
  p_stdin : string
}.

(** What [axios.post] rejects with: [response_message] is
    [error.response?.data?.message] ([None] when undefined) and
    [message] is [error.message]. *)
Record AxiosError : Type := mkAxiosError {
  response_message : option string;
  message : string
}.

(** How the awaited post ends: it resolves with a response whose [data] is
    the service's reply, or it rejects. *)
Inductive post_result : Type :=
| Resolved (data : value)
| Rejected (error : AxiosError).

Definition piston_request (msg : CompileMsg) : PistonRequest :=
  let language := c_language msg in
  let actualLang :=
    if String.eqb language "cpp" then "c++"
    else if String.eqb language "python3" then "python"
    else language in
  let actualVersion :=
    if String.eqb (c_version msg) "*" then defaultVersions language
    else VString (c_version msg) in
  {| p_language := actualLang;
     p_version := actualVersion;
     p_files := [c_code msg];
     p_stdin := if truthy (c_stdin msg) then c_stdin msg else "" |}.

(** [error.response?.data?.message || error.message] *)
Definition error_text (error : AxiosError) : string :=
  match response_message error with
  | Some m => if truthy m then m else message error
  | None => message error
  end.

(** The payload built in the [catch] branch. *)
Definition error_payload (error : AxiosError) : value :=
  VObject [("run", VObject [("output", VString ("Error: " ++ error_text error))])].

(** [post] is the execution service behind [axios.post]. *)
Definition compileCode (post : PistonRequest -> post_result)
                       (sid : string) (msg : CompileMsg) : H unit :=
  st <- read ;;
  if map_has (c_roomId msg) (rooms st) then
    console_log [VString "CHECK2"] ;;
    match post (piston_request msg) with
    | Resolved data => emit sid ToSender "codeResponse" [data]
    | Rejected error => emit sid ToSender "codeResponse" [error_payload error]
    end
  else ret tt.

Definition quote : string := String (ascii_of_nat 34) EmptyString.
Definition newline : string := String (ascii_of_nat 10) EmptyString.
Definition indent : string := "            ".

(** The template literal of the review prompt. *)
Definition review_prompt (code : string) : string :=
  newline ++
  indent ++ "You're an expert code reviewer of the language " ++ quote ++ detectLang code
         ++ quote ++ " and love to give code suggestions. " ++ newline ++
  indent ++ "Generate a brief review of the code " ++ quote ++ code ++ quote ++ "."
         ++ newline ++
  indent ++ "Format clearly with headings." ++ newline ++
  indent ++ "Give the response in proper format so that it comes in bulets" ++ newline ++
  indent.

(** The text broadcast in the [catch] branch of the review listener. *)
Definition review_fallback : string := "Unable to review currently please try later".

(** [generate] is the generative service: for a prompt it gives the text of
    the response, or [None] when anything in the [try] block throws. *)
Definition getAIReview (generate : string -> option string)
                       (sid roomId code : string) : H unit :=
  match generate (review_prompt code) with
  | Some text => emit sid (ToRoom roomId) "AIReview" [VString text]
  | None => emit sid (ToRoom roomId) "AIReview" [VString review_fallback]
  end.

(** Socket.IO takes a closing socket out of all its rooms before the
    [disconnect] listeners run. *)
Definition leave_all (sid : string) : H unit :=
  modify (fun st =>
    {| rooms := rooms st; roomData := roomData st;
       subs := filter (fun p => negb (String.eqb (fst p) sid)) (subs st);
       conns := conns st |}).

Definition disconnect (sid : string) : H unit :=
  leave_all sid ;;
  st <- read ;;
  let c := conn_of sid st in
  (match currentRoom c, currentUser c with
   | Some room, Some user =>
       if truthy room && truthy user then
         members_delete room (Some user) ;;
         broadcast_members sid room
       else ret tt
   | _, _ => ret tt
   end) ;;
  console_log [VString "A user disconnected"].

(** *** The server as a whole *)

(** An event arriving from a client (or the transport), with the socket it
    comes from; payloads have the fields of the event table, as strings. *)
Inductive request : Type :=
| Connect (sid : string)
| Join (sid roomId userName : string)
| CodeChange (sid roomId code : string)
| LeaveRoom (sid : string)
| Typing (sid roomId userName : string)
| LanguageChange (sid roomId language : string)
| CompileCode (sid : string) (msg : CompileMsg)
| GetAIReview (sid roomId code : string)
| Disconnect (sid : string).

Section Services.

Variable post : PistonRequest -> post_result.
Variable generate : string -> option string.

Definition listener (q : request) : H unit :=
  match q with
  | Connect sid => connection sid
  | Join sid roomId userName => join sid roomId userName
  | CodeChange sid roomId code => codeChange sid roomId code
  | LeaveRoom sid => leaveRoom sid
  | Typing sid roomId userName => typing sid roomId userName
  | LanguageChange sid roomId language => languageChange sid roomId language
  | CompileCode sid msg => compileCode post sid msg
  | GetAIReview sid roomId code => getAIReview generate sid roomId code
  | Disconnect sid => disconnect sid
  end.

(** The listeners run one at a time, each to its end; what a listener did
    before throwing stays done. *)
Definition serve (qs : list request) (st : State) : State :=
  fold_left (fun st' q => state_after (listener q) st') qs st.

End Services.

(** The join listener in two halves: leaving the room the connection was
    in, and entering the new one. *)
Definition leave_previous (sid : string) : H unit :=
  st <- read ;;
  match currentRoom (conn_of sid st) with
  | Some room =>
      if truthy room then
        socket_leave sid room ;;
        members_delete room (currentUser (conn_of sid st)) ;;
        broadcast_members sid room
      else ret tt
  | None => ret tt
  end.

Definition enter (sid roomId userName : string) : H unit :=
  set_conn sid {| currentRoom := Some roomId; currentUser := Some userName |} ;;
  socket_join sid roomId ;;
  st1 <- read ;;
  (if negb (map_has roomId (rooms st1)) then set_rooms (map_set roomId [] (rooms st1))
   else ret tt) ;;
  members_add roomId userName ;;
  broadcast_members sid roomId ;;
  st2 <- read ;;
  let roomInfo := map_get roomId (roomData st2) in
  (match roomInfo with
   | Some {| info_code := Some code |} =>
       if truthy code then emit sid ToSender "codeUpdate" [VString code] else ret tt
   | _ => ret tt
   end) ;;
  (match roomInfo with
   | Some {| info_language := Some language |} =>
       if truthy language then emit sid ToSender "languageUpdate" [VString language]
       else ret tt
   | _ => ret tt
   end).

(** What a joiner is sent about the stored document. *)
Definition document_for (sid roomId : string) (st : State) : list effect :=
  (match map_get roomId (roomData st) with
   | Some {| info_code := Some code |} =>
       if truthy code then [Send ToSender [sid] "codeUpdate" [VString code]] else []
   | _ => []
   end ++
   match map_get roomId (roomData st) with
   | Some {| info_language := Some language |} =>
       if truthy language then [Send ToSender [sid] "languageUpdate" [VString language]]
       else []
   | _ => []
   end)%list.

(** The state after [enter], and the names it broadcasts. *)
Definition entered_names (roomId userName : string) (st : State) : list string :=
  set_add userName
          (match map_get roomId (rooms st) with Some names => names | None => [] end).

Definition entered (sid roomId userName : string) (st : State) : State :=
  {| rooms := map_set roomId (entered_names roomId userName st)
                      (if negb (map_has roomId (rooms st))
                       then map_set roomId [] (rooms st) else rooms st);
     roomData := roomData st;
     subs := if existsb (fun p => String.eqb (fst p) sid && String.eqb (snd p) roomId) (subs st)
             then subs st else (subs st ++ [(sid, roomId)])%list;
     conns := map_set sid {| currentRoom := Some roomId; currentUser := Some userName |}
                      (conns st) |}.

(** The members of a room ([[]] when the room does not exist). *)
Definition members (roomId : string) (st : State) : list string :=
  match map_get roomId (rooms st) with
  | Some names => names
  | None => []
  end.

(** Every room a connection is bound to exists. *)
Definition bound_rooms_exist (st : State) : Prop :=
  forall sid c room,
    map_get sid (conns st) = Some c ->
    currentRoom c = Some room ->
    map_has room (rooms st) = true.

(** No room lists a name twice. *)
Definition names_unique (st : State) : Prop :=
  forall roomId names, map_get roomId (rooms st) = Some names -> NoDup names.

(** The effects with the recipient lists left out. *)
Definition unaddressed (fx : list effect) : list effect :=
  map (fun e => match e with
                | Send to _ event args => Send to [] event args
                | Log args => Log args
                end) fx.

(** A string property of a payload object. *)
Definition field (k : string) (fields : list (string * value)) : option string :=
  match lookup k fields with
  | Some (VString s) => Some s
  | _ => None
  end.

(** How an event from socket [sid] reaches its listener: the listener's
    parameters are bound to the first arguments, an object parameter is
    destructured into its properties, further arguments are ignored.  The
    result is [None] for an event without listener and for a payload that
    lacks a field or holds something else than a string there. *)
Definition parse (sid event : string) (args : list value) : option request :=
  if String.eqb event "join" then
    match args with
    | VObject f :: _ =>
        match field "roomId" f, field "userName" f with
        | Some r, Some u => Some (Join sid r u)
        | _, _ => None
        end
    | _ => None
    end
  else if String.eqb event "leaveRoom" then Some (LeaveRoom sid)
  else if String.eqb event "codeChange" then
    match args with
    | VObject f :: _ =>
        match field "roomId" f, field "code" f with
        | Some r, Some c => Some (CodeChange sid r c)
        | _, _ => None
        end
    | _ => None
    end
  else if String.eqb event "languageChange" then
    match args with
    | VObject f :: _ =>
        match field "roomId" f, field "language" f with
        | Some r, Some l => Some (LanguageChange sid r l)
        | _, _ => None
        end
    | _ => None
    end
  else if String.eqb event "typing" then
    match args with
    | VString r :: VString u :: _ => Some (Typing sid r u)
    | _ => None
    end
  else if String.eqb event "compileCode" then
    match args with
    | VObject f :: _ =>
        match field "code" f, field "roomId" f, field "language" f,
              field "version" f, field "stdin" f with
        | Some c, Some r, Some l, Some v, Some i =>
            Some (CompileCode sid {| c_code := c; c_roomId := r; c_language := l;
                                     c_version := v; c_stdin := i |})
        | _, _, _, _, _ => None
        end
    | _ => None
    end
  else if String.eqb event "getAIReview" then
    match args with
    | VObject f :: _ =>
        match field "roomId" f, field "code" f with
        | Some r, Some c => Some (GetAIReview sid r c)
        | _, _ => None
        end
    | _ => None
    end
  else None.

(** The room a request names, when it names one. *)
Definition room_of (q : request) : option string :=
  match q with
  | Join _ r _ | CodeChange _ r _ | Typing _ r _ | LanguageChange _ r _
  | GetAIReview _ r _ => Some r
  | CompileCode _ msg => Some (c_roomId msg)
  | Connect _ | LeaveRoom _ | Disconnect _ => None
  end.

(** No socket is listed twice in a room. *)
Definition subs_unique (st : State) : Prop := NoDup (subs st).

(** The two invariants together. *)
Definition invariant (st : State) : Prop := bound_rooms_exist st /\ names_unique st.

(** Every delivery of a listener has distinct recipients, and so has the
    state it leaves. *)
Definition delivers_once (m : H unit) (st : State) : Prop :=
  subs_unique (state_after m st) /\
  forall to rcpts event args,
    In (Send to rcpts event args) (effects_of m st) -> NoDup rcpts.

End Server.

(** ** The wire protocol, as the event tables describe it *)
Module Protocol.
Import JS App.

(** The client-to-server rows of the event table: the arguments an event of
    a given name carries, each field read from the client state [s]. *)
Definition table_payload (event : string) (s : AppState) : option (list value) :=
  if String.eqb event "join" then
    Some [VObject [("roomId", VString (roomId s)); ("userName", VString (userName s))]]
  else if String.eqb event "leaveRoom" then
    Some []
  else if String.eqb event "codeChange" then
    Some [VObject [("roomId", VString (roomId s)); ("code", VString (code s))]]
  else if String.eqb event "languageChange" then
    Some [VObject [("roomId", VString (roomId s)); ("language", VString (language s))]]
  else if String.eqb event "typing" then
    Some [VString (roomId s); VString (userName s)]
  else if String.eqb event "compileCode" then
    Some [VObject [("code", VString (code s)); ("roomId", VString (roomId s));
                   ("language", VString (language s)); ("version", VString (version s));
                   ("stdin", VString (input s))]]
  else if String.eqb event "getAIReview" then
    Some [VObject [("roomId", VString (roomId s)); ("code", VString (code s))]]
  else None.

(** The codeResponse row: [run_output] gives the string [out] when the
    payload has the shape [{run:{output: out}}]; other properties may sit
    beside [run] and [output].  The server's [catch] branch builds a payload
    of this shape ([Server.error_payload]); in the other branch the payload
    is the reply of the execution service, which is outside the program. *)
Definition run_output (response : value) : option string :=
  match response with
  | VObject fields =>
      match lookup "run" fields with
      | Some (VObject rfields) =>
          match lookup "output" rfields with
          | Some (VString out) => Some out
          | _ => None
          end
      | _ => None
      end
  | _ => None
  end.

End Protocol.

(** ** Predicates used to state the properties *)
Module Props.
Import JS App.

(** Two states that differ at most in one named variable. *)
Definition same_but_joined (s s' : AppState) : Prop :=
  s' = {| joined := joined s'; roomId := roomId s; userName := userName s;
          language := language s; code := code s; copySuccess := copySuccess s;
          users := users s; typing := typing s; outPut := outPut s;
          input := input s; version := version s; isRev := isRev s;
          isModalOpen := isModalOpen s; modalMessage := modalMessage s |}.

Definition same_but_typing (s s' : AppState) : Prop :=
  s' = {| joined := joined s; roomId := roomId s; userName := userName s;
          language := language s; code := code s; copySuccess := copySuccess s;
          users := users s; typing := typing s'; outPut := outPut s;
          input := input s; version := version s; isRev := isRev s;
          isModalOpen := isModalOpen s; modalMessage := modalMessage s |}.

Definition same_but_outPut (s s' : AppState) : Prop :=
  s' = {| joined := joined s; roomId := roomId s; userName := userName s;
          language := language s; code := code s; copySuccess := copySuccess s;
          users := users s; typing := typing s; outPut := outPut s';
          input := input s; version := version s; isRev := isRev s;
          isModalOpen := isModalOpen s; modalMessage := modalMessage s |}.

(** Handlers that never touch the socket. *)
Definition silent (x : stimulus) : bool :=
  match x with
  | ClickJoinRoom | ClickLeaveRoom | BeforeUnload | EditCode _
  | SelectLanguage _ | ClickExecute | ClickAIReview => false
  | _ => true
  end.

(** A compileCode request whose version field is the wildcard. *)
Definition compile_request_any_version (args : list value) : Prop :=
  exists c r l i,
    args = [VObject [("code", VString c); ("roomId", VString r);
                     ("language", VString l); ("version", VString "*");
                     ("stdin", VString i)]].

(** The version variable holds the wildcard and so does every compileCode
    request sent so far. *)
Definition version_is_wildcard (w : World) : Prop :=
  version (app w) = "*" /\
  forall args, In (Emit "compileCode" args) (trace w) -> compile_request_any_version args.

(** A string of exactly six decimal digits, the first not zero, that
    denotes [n]. *)
Definition six_digits (str : string) (n : Z) : Prop :=
  exists d5 d4 d3 d2 d1 d0,
    1 <= d5 <= 9 /\ 0 <= d4 <= 9 /\ 0 <= d3 <= 9 /\
    0 <= d2 <= 9 /\ 0 <= d1 <= 9 /\ 0 <= d0 <= 9 /\
    n = 100000 * d5 + 10000 * d4 + 1000 * d3 + 100 * d2 + 10 * d1 + d0 /\
    str = String (Number.digit_char d5) (String (Number.digit_char d4)
         (String (Number.digit_char d3) (String (Number.digit_char d2)
         (String (Number.digit_char d1) (String (Number.digit_char d0) EmptyString))))).

(** The floor of 100000 + r * 900000 in exact real arithmetic, for a draw
    [r] given on the grid (no rounding of the product or of the sum). *)
Definition exact_room_number (r : Number.float64) : Z :=
  (100000 * 2 ^ Number.frac + r * 900000) / 2 ^ Number.frac.

(** Every timer the program sets has the same delay. *)
Definition delay_2000 (fx : effect) : Prop :=
  match fx with
  | SetTimeout _ delay => delay = 2000
  | _ => True
  end.

(** The pending timers are listed in the order in which they are due, and
    none is due later than 2000 ms from now. *)
Definition timers_in_order (w : World) : Prop :=
  Sorted Z.le (map fst (pending w)) /\
  Forall (fun p => fst p <= now w + 2000) (pending w).

End Props.

(** ** The page and the wire, for properties of whole runs *)
Module Page.
Import JS App.

(** The values of the [<option>] elements of the language selector. *)
Definition language_options : list string := ["cpp"; "javascript"; "python3"; "java"].

(** Which stimuli the rendered page can deliver in state [s].  The join
    form (shown when [joined] is false) holds the two inputs and the Create
    Room and Join Room buttons; the editor screen holds everything else.
    The AI Review button is disabled while [isRev]; the Close button exists
    only inside the open modal; the selector yields one of its options;
    [Math.random()] yields a binary64 value in [0,1).  Server events, the
    unload and the passing of time do not depend on the page. *)
Definition offered (s : AppState) (x : stimulus) : bool :=
  match x with
  | ChangeRoomId _ | ChangeUserName _ | ClickJoinRoom => negb (joined s)
  | ClickCreateRoom draw =>
      negb (joined s) && Number.is_double draw && (draw <? Number.one)
  | ClickCopyId | ClickLeaveRoom | EditCode _ | ChangeInput _ | ClickExecute => joined s
  | SelectLanguage v =>
      joined s && existsb (String.eqb v) language_options
  | ClickAIReview => joined s && negb (isRev s)
  | ClickCloseModal => joined s && isModalOpen s
  | BeforeUnload
  | Recv_userJoined _ | Recv_codeUpdate _ | Recv_userTyping _
  | Recv_languageUpdate _ | Recv_codeResponse _ | Recv_AIReview _
  | Elapse _ => true
  end.

(** A run in which every stimulus is allowed in the state in which it is
    delivered. *)
Fixpoint along (allowed : AppState -> stimulus -> Prop)
               (xs : list stimulus) (w : World) : Prop :=
  match xs with
  | [] => True
  | x :: rest => allowed (app w) x /\ along allowed rest (step w x)
  end.

(** A run the page can produce. *)
Definition possible (xs : list stimulus) (w : World) : Prop :=
  along (fun s x => offered s x = true) xs w.

(** The state [s] with the two transient messages replaced. *)
Definition with_transients (t c : string) (s : AppState) : AppState :=
  {| joined := joined s; roomId := roomId s; userName := userName s;
     language := language s; code := code s; copySuccess := c;
     users := users s; typing := t; outPut := outPut s;
     input := input s; version := version s; isRev := isRev s;
     isModalOpen := isModalOpen s; modalMessage := modalMessage s |}.

(** The payload is an object whose [run] property is neither missing,
    [undefined] nor [null]. *)
Definition has_run (response : value) : bool :=
  match response with
  | VObject fields =>
      match lookup "run" fields with
      | None | Some VUndefined | Some VNull => false
      | Some _ => true
      end
  | _ => false
  end.

(** What the server has last been told about membership: [join] says in,
    [leaveRoom] says out, other events say nothing. *)
Definition told (b : bool) (e : string * list value) : bool :=
  if String.eqb (fst e) "join" then true
  else if String.eqb (fst e) "leaveRoom" then false
  else b.

Definition wire_joined (events : list (string * list value)) : bool :=
  fold_left told events false.

(** The room id an event carries: the [roomId] property of its object
    argument, or the first of the two arguments of [typing]. *)
Definition carried_room (e : string * list value) : option string :=
  match snd e with
  | [VObject fields] =>
      match lookup "roomId" fields with
      | Some (VString r) => Some r
      | _ => None
      end
  | [VString r; VString _] => Some r
  | _ => None
  end.

(** The user name an event carries, when it carries one. *)
Definition carried_user (e : string * list value) : option string :=
  match snd e with
  | [VObject fields] =>
      match lookup "userName" fields with
      | Some (VString u) => Some u
      | _ => None
      end
  | [VString _; VString u] => Some u
  | _ => None
  end.

(** Reading the wire from the start: [cur] is the room and user of the most
    recent [join]; the flag stays true as long as every event that is
    neither [join] nor [leaveRoom] carries that room, and [typing] that user
    as well. *)
Definition follow (acc : option (string * string) * bool) (e : string * list value)
  : option (string * string) * bool :=
  let '(cur, ok) := acc in
  if String.eqb (fst e) "join" then
    match carried_room e, carried_user e with
    | Some r, Some u => (Some (r, u), ok)
    | _, _ => (None, false)
    end
  else if String.eqb (fst e) "leaveRoom" then (cur, ok)
  else
    match cur, carried_room e with
    | Some (r, u), Some r' =>
        (cur, ok && String.eqb r r' &&
              (if String.eqb (fst e) "typing"
               then match carried_user e with
                    | Some u' => String.eqb u u'
                    | None => false
                    end
               else true))
    | _, _ => (cur, false)
    end.

Definition follows_joins (events : list (string * list value))
  : option (string * string) * bool :=
  fold_left follow events (None, true).

(** How many events of a given name a wire holds. *)
Definition count_event (name : string) (events : list (string * list value)) : nat :=
  List.length (filter (fun e => String.eqb (fst e) name) events).

(** How many AIReview events a run receives. *)
Definition reviews_received (xs : list stimulus) : nat :=
  List.length (filter (fun x => match x with Recv_AIReview _ => true | _ => false end) xs).

Definition is_unload (x : stimulus) : bool :=
  match x with BeforeUnload => true | _ => false end.

Definition is_review (x : stimulus) : bool :=
  match x with Recv_AIReview _ => true | _ => false end.

Definition is_server_event (x : stimulus) : bool :=
  match x with
  | Recv_userJoined _ | Recv_codeUpdate _ | Recv_userTyping _
  | Recv_languageUpdate _ | Recv_codeResponse _ | Recv_AIReview _ => true
  | _ => false
  end.

(** A timer of a given kind is pending. *)
Definition timer_pending (cb : callback) (w : World) : Prop :=
  exists due, In (due, cb) (pending w).

Definition is_ClearTyping (p : Z * callback) : bool :=
  match snd p with ClearTyping => true | ClearCopySuccess => false end.

Definition is_ClearCopySuccess (p : Z * callback) : bool :=
  match snd p with ClearCopySuccess => true | ClearTyping => false end.

(** Every transient message on the page has a timer that will clear it. *)
Definition transients_covered (w : World) : Prop :=
  (typing (app w) <> "" -> timer_pending ClearTyping w) /\
  (copySuccess (app w) <> "" -> timer_pending ClearCopySuccess w).

(** What the wire says of the room and the user, against the state [s]. *)
Definition joined_as (s : AppState) (r : option (string * string) * bool) : Prop :=
  snd r = true /\
  (joined s = true ->
   fst r = Some (roomId s, userName s) /\ roomId s <> "" /\ userName s <> "").

(** Review requests sent, plus one when the button is enabled. *)
Definition unanswered (s : AppState) (tr : list effect) : nat :=
  (count_event "getAIReview" (emitted tr) + (if isRev s then 0 else 1))%nat.

(** No pending timer is overdue. *)
Definition not_overdue (w : World) : Prop :=
  Forall (fun p => now w < fst p) (pending w).

(** The language an event carries. *)
Definition carried_language (e : string * list value) : option string :=
  match snd e with
  | [VObject fields] =>
      match lookup "language" fields with
      | Some (VString l) => Some l
      | _ => None
      end
  | _ => None
  end.

(** A languageChange event names one of the selector's options. *)
Definition language_ok (e : string * list value) : bool :=
  if String.eqb (fst e) "languageChange" then
    match carried_language e with
    | Some l => existsb (String.eqb l) language_options
    | None => false
    end
  else true.

(** The editor text after a stimulus, given the text before: an edit or a
    codeUpdate replaces it, leaving resets it, nothing else touches it. *)
Definition code_after (c : string) (x : stimulus) : string :=
  match x with
  | EditCode newCode | Recv_codeUpdate newCode => newCode
  | ClickLeaveRoom => "//start coding here..."
  | _ => c
  end.

(** The selected language after a stimulus, given the one before. *)
Definition language_after (l : string) (x : stimulus) : string :=
  match x with
  | SelectLanguage v | Recv_languageUpdate v => v
  | ClickLeaveRoom => "cpp"
  | _ => l
  end.

(** The user list after a stimulus, given the one before. *)
Definition users_after (us : list string) (x : stimulus) : list string :=
  match x with
  | Recv_userJoined names => names
  | _ => us
  end.

End Page.

(** * Properties *)

Import Number JS App Protocol Props.

(** *** The handler monad *)

Lemma bind_ret_l {A B} (a : A) (f : A -> M B) (s : AppState) :
  bind (ret a) f s = f a s.
Proof. unfold bind, ret. now destruct (f a s) as [[r s'] fx]. Qed.

Lemma bind_ret_r {A} (m : M A) (s : AppState) :
  bind m ret s = m s.
Proof.
  unfold bind, ret. destruct (m s) as [[[e | a] s'] fx]; [reflexivity|].
  now rewrite app_nil_r.
Qed.

Lemma bind_assoc {A B C} (m : M A) (f : A -> M B) (g : B -> M C) (s : AppState) :
  bind (bind m f) g s = bind m (fun a => bind (f a) g) s.
Proof.
  unfold bind. destruct (m s) as [[[e | a] s1] fx1]; [reflexivity|].
  destruct (f a s1) as [[[e | b] s2] fx2]; [reflexivity|].
  destruct (g b s2) as [[r s3] fx3]. now rewrite app_assoc.
Qed.

(** *** Joining and the wire *)

Lemma truthy_true_iff (s : string) : truthy s = true <-> s <> "".
Proof.
  unfold truthy. destruct (String.eqb_spec s ""); simpl; split; congruence.
Qed.

Lemma truthy_and_false (a b : string) :
  a = "" \/ b = "" -> truthy (and_ a b) = false.
Proof.
  intros [-> | ->]; unfold and_.
  - reflexivity.
  - destruct (truthy a) eqn:Ha; [reflexivity | exact Ha].
Qed.

Lemma truthy_and_true (a b : string) :
  a <> "" -> b <> "" -> truthy (and_ a b) = true.
Proof.
  intros Ha Hb. unfold and_.
  apply truthy_true_iff in Ha. rewrite Ha. now apply truthy_true_iff.
Qed.

(** A dispatch that changes nothing and does nothing leaves the world as
    it was. *)
Lemma dispatch_silent (h : M unit) (w : World) r :
  h (app w) = (r, app w, []) -> dispatch h w = w.
Proof.
  intros H. unfold dispatch. rewrite H. simpl.
  rewrite !app_nil_r. now destruct w.
Qed.

(** C1.  A join with an empty room id or an empty user name is dropped: the
    handler returns normally, emits nothing (no join event, no other effect)
    and leaves the whole client as it was, the joined flag included.  With
    both non-empty it emits exactly one join event carrying
    {roomId, userName} and sets the joined flag, changing nothing else. *)
Theorem JoinRoom_guard (w : World) :
  let s := app w in
  (roomId s = "" \/ userName s = "" ->
     JoinRoom s = (inr tt, s, []) /\ step w ClickJoinRoom = w) /\
  (roomId s <> "" -> userName s <> "" ->
     outcome JoinRoom s = inr tt /\
     effects JoinRoom s =
       [Emit "join" [VObject [("roomId", VString (roomId s));
                              ("userName", VString (userName s))]]] /\
     joined (state_after JoinRoom s) = true /\
     same_but_joined s (state_after JoinRoom s)).
Proof.
  intros s. split.
  - intros H.
    assert (E : JoinRoom s = (inr tt, s, [])).
    { unfold JoinRoom, bind, read. now rewrite (truthy_and_false _ _ H). }
    split; [exact E|]. simpl. now apply dispatch_silent with (r := inr tt).
  - intros Hr Hu.
    unfold outcome, effects, state_after, JoinRoom, bind, read, same_but_joined.
    rewrite (truthy_and_true _ _ Hr Hu). simpl. repeat split.
Qed.

Lemma JoinRoom_guard_witness :
  step boot ClickJoinRoom = boot /\
  effects JoinRoom (app (run [ChangeRoomId "123"; ChangeUserName "A"] boot)) =
    [Emit "join" [VObject [("roomId", VString "123"); ("userName", VString "A")]]].
Proof.
  split.
  - apply (proj1 (JoinRoom_guard boot)). left. reflexivity.
  - apply (proj2 (JoinRoom_guard (run [ChangeRoomId "123"; ChangeUserName "A"] boot)));
      simpl; discriminate.
Defined.

(** What each handler puts on the wire, read off its body. *)
Lemma JoinRoom_emits (s : AppState) :
  emitted (effects JoinRoom s) =
    if truthy (roomId s) && truthy (userName s)
    then [("join", [VObject [("roomId", VString (roomId s));
                             ("userName", VString (userName s))]])]
    else [].
Proof.
  unfold effects, JoinRoom, bind, read, and_.
  destruct (truthy (roomId s)) eqn:Hr; simpl.
  - destruct (truthy (userName s)); reflexivity.
  - rewrite Hr. reflexivity.
Qed.

Lemma leaveRoom_emits (s : AppState) :
  emitted (effects leaveRoom s) = [("leaveRoom", [])].
Proof. reflexivity. Qed.

Lemma handleBeforeUnload_emits (s : AppState) :
  emitted (effects handleBeforeUnload s) = [("leaveRoom", [])].
Proof. reflexivity. Qed.

Lemma handleCodeChange_emits (newCode : string) (s : AppState) :
  emitted (effects (handleCodeChange newCode) s) =
    [("codeChange", [VObject [("roomId", VString (roomId s)); ("code", VString newCode)]]);
     ("typing", [VString (roomId s); VString (userName s)])].
Proof. reflexivity. Qed.

Lemma handleLanguageChange_emits (newLanguage : string) (s : AppState) :
  emitted (effects (handleLanguageChange newLanguage) s) =
    [("languageChange", [VObject [("roomId", VString (roomId s));
                                  ("language", VString newLanguage)]])].
Proof. reflexivity. Qed.

Lemma runCode_emits (s : AppState) :
  emitted (effects runCode s) =
    [("compileCode", [VObject [("code", VString (code s)); ("roomId", VString (roomId s));
                               ("language", VString (language s));
                               ("version", VString (version s));
                               ("stdin", VString (input s))]])].
Proof. reflexivity. Qed.

Lemma AIreview_emits (s : AppState) :
  emitted (effects AIreview s) =
    [("getAIReview", [VObject [("roomId", VString (roomId s)); ("code", VString (code s))]])].
Proof. reflexivity. Qed.

Lemma run_callback_emits (cb : callback) (s : AppState) :
  emitted (effects (run_callback cb) s) = [].
Proof. destruct cb; reflexivity. Qed.

Lemma silent_emits (x : stimulus) (s : AppState) :
  silent x = true -> emitted (effects (handler x) s) = [].
Proof.
  destruct x; simpl; try discriminate; intros _; try reflexivity.
  unfold effects, on_codeResponse, bind, lift.
  destruct (get response "run") as [e | v]; [reflexivity|].
  destruct (get v "output"); reflexivity.
Qed.

Ltac only_event H :=
  simpl in H;
  repeat (destruct H as [H | H]; [injection H as <- <-; reflexivity|]);
  contradiction.

(** C3.  Whatever the user or the server does and whatever the state, every
    event the client emits is one of the seven of the event table and
    carries exactly the arguments of its row, each field being that of the
    client state once the handler has run: join {roomId, userName};
    leaveRoom nothing; codeChange {roomId, code}; languageChange
    {roomId, language}; typing the two arguments roomId, userName;
    compileCode {code, roomId, language, version, stdin}; getAIReview
    {roomId, code}.  The edited code and the selected language are the
    values the same handler stores. *)
Theorem emitted_payloads_follow_table
  (x : stimulus) (s : AppState) (event : string) (args : list value) :
  In (event, args) (emitted (effects (handler x) s)) ->
  table_payload event (state_after (handler x) s) = Some args /\
  (forall newCode, x = EditCode newCode -> code (state_after (handler x) s) = newCode) /\
  (forall v, x = SelectLanguage v -> language (state_after (handler x) s) = v).
Proof.
  intros H.
  split; [| split; intros ? ->; reflexivity].
  destruct (silent x) eqn:Hs.
  - rewrite (silent_emits x s Hs) in H. contradiction.
  - destruct x; try discriminate Hs; clear Hs; cbn [handler] in *.
    + rewrite JoinRoom_emits in H.
      unfold state_after, JoinRoom, bind, read, and_.
      destruct (truthy (roomId s)) eqn:Hr; simpl in H.
      * destruct (truthy (userName s)) eqn:Hu; [|contradiction].
        destruct H as [H | []]. injection H as <- <-. reflexivity.
      * contradiction.
    + rewrite handleLanguageChange_emits in H. only_event H.
    + rewrite leaveRoom_emits in H. only_event H.
    + rewrite AIreview_emits in H. only_event H.
    + rewrite handleCodeChange_emits in H. only_event H.
    + rewrite runCode_emits in H. only_event H.
    + rewrite handleBeforeUnload_emits in H. only_event H.
Qed.

Lemma emitted_payloads_follow_table_witness :
  table_payload "typing"
    (state_after (handler (EditCode "x"))
                 (app (run [ChangeRoomId "123"; ChangeUserName "A"; ClickJoinRoom] boot)))
  = Some [VString "123"; VString "A"].
Proof.
  apply (emitted_payloads_follow_table (EditCode "x")
           (app (run [ChangeRoomId "123"; ChangeUserName "A"; ClickJoinRoom] boot))
           "typing" [VString "123"; VString "A"]).
  simpl. right. left. reflexivity.
Defined.

(** C4.  The two sync events replace, they do not merge: after userJoined
    the local user list (and the list shown) is exactly the received list,
    whatever it was before; after codeUpdate the local code is exactly the
    received string.  Neither handler throws or has any other effect. *)
Theorem sync_events_replace (s : AppState) (names : list string) (newCode : string) :
  on_userJoined names s = (inr tt, state_after (on_userJoined names) s, []) /\
  users (state_after (on_userJoined names) s) = names /\
  user_list (state_after (on_userJoined names) s) = names /\
  on_codeUpdate newCode s = (inr tt, state_after (on_codeUpdate newCode) s, []) /\
  code (state_after (on_codeUpdate newCode) s) = newCode.
Proof.
  repeat split. unfold user_list. simpl. apply map_id.
Qed.

(** C6.  On AIReview the received text becomes the modal's text verbatim,
    the modal is open and the in-review flag is cleared, so the review
    button is enabled again.  The server's review listener sends one
    AIReview event to the room, carrying the generated text or, when the
    review fails, the text "Unable to review currently please try later";
    on receiving that fallback the client shows exactly that string. *)
Theorem AIReview_shows_message
  (s : AppState) (message : string)
  (generate : string -> option string) (sid roomId code : string) (st : Server.State) :
  let s' := state_after (on_AIReview message) s in
  outcome (on_AIReview message) s = inr tt /\
  modalMessage s' = message /\
  isModalOpen s' = true /\
  isRev s' = false /\
  modal s' = Some message /\
  review_button_disabled s' = false /\
  Server.effects_of (Server.getAIReview generate sid roomId code) st =
    [Server.Send (Server.ToRoom roomId) (Server.subscribers roomId st) "AIReview"
       [VString match generate (Server.review_prompt code) with
                | Some text => text
                | None => "Unable to review currently please try later"
                end]] /\
  modal (state_after (on_AIReview Server.review_fallback) s)
    = Some "Unable to review currently please try later".
Proof.
  repeat split.
  unfold Server.effects_of, Server.getAIReview.
  destruct (generate (Server.review_prompt code)); reflexivity.
Qed.

(** C7.  The beforeunload listener and the Leave Room button put the same
    thing on the wire: one leaveRoom event without arguments.  This holds
    from any pair of states, so the server cannot tell the two apart. *)
Theorem unload_emits_as_leave (s1 s2 : AppState) :
  emitted (effects handleBeforeUnload s1) = emitted (effects leaveRoom s2) /\
  emitted (effects leaveRoom s2) = [("leaveRoom", [])] /\
  table_payload "leaveRoom" s1 = Some [].
Proof.
  repeat split.
Qed.

(** Reading [run.output] off a payload of the table's shape. *)
Lemma run_output_get (response : value) (out : string) :
  run_output response = Some out ->
  exists r, get response "run" = inr r /\ get r "output" = inr (VString out).
Proof.
  unfold run_output. destruct response as [| | | | | |fields]; try discriminate.
  simpl. destruct (lookup "run" fields) as [r|]; [|discriminate].
  destruct r as [| | | | | |rfields]; try discriminate.
  destruct (lookup "output" rfields) as [o|] eqn:Ho; [|discriminate].
  destruct o; try discriminate. intros [= ->].
  exists (VObject rfields). split; [reflexivity|]. simpl. now rewrite Ho.
Qed.

(** The handler on a payload of the table's shape: both reads succeed and
    the output shown becomes the output string. *)
Lemma on_codeResponse_of_shape (s : AppState) (response : value) (out : string) :
  run_output response = Some out ->
  (exists r, get response "run" = inr r /\ get r "output" = inr (VString out)) /\
  outcome (on_codeResponse response) s = inr tt /\
  output_console (state_after (on_codeResponse response) s) = VString out /\
  same_but_outPut s (state_after (on_codeResponse response) s) /\
  effects (on_codeResponse response) s = [].
Proof.
  intros H. destruct (run_output_get _ _ H) as [r [Hr Ho]].
  split; [exists r; split; assumption|].
  unfold outcome, state_after, effects, on_codeResponse, bind, lift.
  rewrite Hr, Ho. repeat split.
Qed.

(** The payload the server builds when the execution fails has the
    table's shape, its output being "Error: " and the failure message. *)
Lemma error_payload_shape (error : Server.AxiosError) :
  run_output (Server.error_payload error) =
    Some ("Error: " ++ Server.error_text error)%string.
Proof. reflexivity. Qed.

(** What the compile listener sends: nothing for an unknown room, and
    otherwise one codeResponse to the sender, carrying the service's reply
    or the error payload. *)
Lemma compileCode_effects
  (post : Server.PistonRequest -> Server.post_result)
  (sid : string) (msg : Server.CompileMsg) (st : Server.State) :
  Server.effects_of (Server.compileCode post sid msg) st =
    if Server.map_has (Server.c_roomId msg) (Server.rooms st) then
      [Server.Log [VString "CHECK2"];
       Server.Send Server.ToSender [sid] "codeResponse"
         [match post (Server.piston_request msg) with
          | Server.Resolved data => data
          | Server.Rejected error => Server.error_payload error
          end]]
    else [].
Proof.
  unfold Server.effects_of, Server.compileCode, Server.bind, Server.read.
  destruct (Server.map_has _ _); [|reflexivity].
  destruct (post _); reflexivity.
Qed.

(** C2.  Every codeResponse event the server's compile listener sends
    carries one payload, and on it both property reads of the client's
    handler succeed (the handler does not throw) and the output shown
    becomes exactly the string [payload.run.output]; nothing else changes
    and nothing is emitted.  This holds for the payload of the failure
    branch, which the server builds as {run:{output}} with the error text,
    and for the payload of the success branch, which is the reply of the
    execution service, given that this reply has the shape
    {run:{output}}. *)
Theorem codeResponse_shows_output
  (s : AppState)
  (post : Server.PistonRequest -> Server.post_result)
  (sid : string) (msg : Server.CompileMsg) (st : Server.State)
  (to : Server.target) (rcpts : list string) (args : list value) :
  (forall data, post (Server.piston_request msg) = Server.Resolved data ->
                exists out, run_output data = Some out) ->
  In (Server.Send to rcpts "codeResponse" args)
     (Server.effects_of (Server.compileCode post sid msg) st) ->
  exists payload out,
    args = [payload] /\
    run_output payload = Some out /\
    (exists r, get payload "run" = inr r /\ get r "output" = inr (VString out)) /\
    outcome (on_codeResponse payload) s = inr tt /\
    output_console (state_after (on_codeResponse payload) s) = VString out /\
    same_but_outPut s (state_after (on_codeResponse payload) s) /\
    effects (on_codeResponse payload) s = [] /\
    (forall error, post (Server.piston_request msg) = Server.Rejected error ->
                   out = ("Error: " ++ Server.error_text error)%string).
Proof.
  intros Hreply Hin. rewrite compileCode_effects in Hin.
  destruct (Server.map_has _ _); [|contradiction].
  destruct Hin as [Hin | [Hin | []]]; [discriminate Hin|].
  injection Hin as _ _ <-.
  destruct (post (Server.piston_request msg)) as [data | error] eqn:Hpost.
  - destruct (Hreply data eq_refl) as [out Hout].
    exists data, out. split; [reflexivity|]. split; [exact Hout|].
    destruct (on_codeResponse_of_shape s data out Hout) as (H1 & H2 & H3 & H4 & H5).
    repeat (split; [assumption|]). intros error Herr. discriminate Herr.
  - exists (Server.error_payload error), ("Error: " ++ Server.error_text error)%string.
    split; [reflexivity|]. split; [apply error_payload_shape|].
    destruct (on_codeResponse_of_shape s _ _ (error_payload_shape error))
      as (H1 & H2 & H3 & H4 & H5).
    repeat (split; [assumption|]). intros error' Herr. now injection Herr as <-.
Qed.

Lemma codeResponse_shows_output_witness :
  let st := {| Server.rooms := [("123", ["A"])]; Server.roomData := [];
               Server.subs := [("s1", "123")];
               Server.conns := [("s1", {| Server.currentRoom := Some "123";
                                          Server.currentUser := Some "A" |})] |} in
  let msg := {| Server.c_code := "x"; Server.c_roomId := "123"; Server.c_language := "cobol";
                Server.c_version := "*"; Server.c_stdin := "" |} in
  let failed := {| Server.response_message := Some "cobol-undefined runtime is unknown";
                   Server.message := "Request failed with status code 400" |} in
  let reply := VObject [("language", VString "cobol");
                        ("run", VObject [("stdout", VString "42"); ("output", VString "42")])] in
  (exists payload out,
     run_output payload = Some out /\
     out = "Error: cobol-undefined runtime is unknown" /\
     output_console (state_after (on_codeResponse payload) initial) = VString out) /\
  (exists payload,
     output_console (state_after (on_codeResponse payload) initial) = VString "42").
Proof.
  intros st msg failed reply. split.
  - destruct (codeResponse_shows_output initial (fun _ => Server.Rejected failed)
                "s1" msg st Server.ToSender ["s1"] [Server.error_payload failed])
      as (payload & out & _ & Hshape & _ & _ & Hout & _ & _ & Hmsg).
    + intros data H. discriminate H.
    + right. left. reflexivity.
    + exists payload, out. split; [exact Hshape|]. split; [|exact Hout].
      now apply (Hmsg failed).
  - destruct (codeResponse_shows_output initial (fun _ => Server.Resolved reply)
                "s1" msg st Server.ToSender ["s1"] [reply])
      as (payload & out & Hargs & Hshape & _ & _ & Hout & _).
    + intros data H. injection H as <-. exists "42". reflexivity.
    + right. left. reflexivity.
    + exists payload. injection Hargs as <-. rewrite Hout. f_equal.
      cbn in Hshape. congruence.
Defined.

(** The handler has no guard of its own: a payload without a [run] property
    makes the second read throw, and the output shown stays what it was. *)
Lemma codeResponse_without_run (s : AppState) (fields : list (string * value)) :
  lookup "run" fields = None ->
  exists e, on_codeResponse (VObject fields) s = (inl e, s, []).
Proof.
  intros H. unfold on_codeResponse, bind, lift. simpl. rewrite H. simpl.
  eexists. reflexivity.
Qed.

(** *** Strings *)

Lemma length_list_ascii (s : string) :
  List.length (list_ascii_of_string s) = String.length s.
Proof. induction s; simpl; congruence. Qed.

Lemma substring_0_firstn (n : nat) (s : string) :
  String.substring 0 n s = string_of_list_ascii (firstn n (list_ascii_of_string s)).
Proof.
  revert n. induction s as [|c s IH]; intros [|n]; simpl; try reflexivity.
  now rewrite IH.
Qed.

(** [s.slice(0, n)] is the prefix of at most [n] characters. *)
Lemma slice_prefix (s : string) (n : Z) :
  0 <= n ->
  slice s 0 n = string_of_list_ascii (firstn (Z.to_nat n) (list_ascii_of_string s)).
Proof.
  intros Hn. unfold slice.
  set (len := Z.of_nat (String.length s)).
  assert (Hlen : 0 <= len) by apply Nat2Z.is_nonneg.
  replace (0 <? 0) with false by reflexivity.
  replace (n <? 0) with false by (symmetry; apply Z.ltb_ge; exact Hn).
  rewrite (Z.min_l 0 len) by exact Hlen.
  destruct (Z.leb_spec (Z.min n len) 0) as [Hz | Hz].
  - (* an empty range: n = 0 or the string is empty *)
    destruct (Z.eq_dec n 0) as [-> | Hn0]; [reflexivity|].
    assert (Hl : String.length s = 0%nat) by lia.
    destruct s; [now destruct (Z.to_nat n) | discriminate].
  - rewrite Z.sub_0_r. change (Z.to_nat 0) with 0%nat.
    rewrite substring_0_firstn. f_equal.
    destruct (Z.le_ge_cases n len) as [Hle | Hge].
    + now rewrite Z.min_l.
    + rewrite Z.min_r by exact Hge. unfold len. rewrite Nat2Z.id.
      rewrite <- length_list_ascii.
      rewrite firstn_all. symmetry. apply firstn_all2.
      rewrite length_list_ascii. lia.
Qed.

(** C9.  The indicator shown after userTyping is the first ten characters
    of the received name (the whole name when it has at most ten) followed
    by " is typing...". *)
Theorem typing_indicator_truncates (s : AppState) (user : string) :
  typing_indicator (state_after (on_userTyping user) s) =
    (string_of_list_ascii (firstn 10 (list_ascii_of_string user)) ++ " is typing...")%string /\
  ((String.length user <= 10)%nat ->
   typing_indicator (state_after (on_userTyping user) s) = (user ++ " is typing...")%string).
Proof.
  assert (E : typing_indicator (state_after (on_userTyping user) s) =
              (slice user 0 10 ++ " is typing...")%string) by reflexivity.
  rewrite E, slice_prefix by lia. change (Z.to_nat 10) with 10%nat.
  split; [reflexivity|].
  intros Hlen. rewrite firstn_all2 by (rewrite length_list_ascii; exact Hlen).
  now rewrite string_of_list_ascii_of_string.
Qed.

Lemma typing_indicator_truncates_witness :
  typing_indicator (state_after (on_userTyping "Bob") initial) = "Bob is typing..." /\
  typing_indicator (state_after (on_userTyping "Bartholomew Fox") initial)
    = "Bartholome is typing...".
Proof.
  split.
  - apply (proj2 (typing_indicator_truncates initial "Bob")). simpl. lia.
  - exact (proj1 (typing_indicator_truncates initial "Bartholomew Fox")).
Defined.

(** *** Timers *)

Lemma append_nonempty (a b : string) : b <> "" -> (a ++ b)%string <> "".
Proof. destruct a; simpl; [trivial | discriminate]. Qed.

Lemma dispatch_ClearTyping (w : World) :
  typing (app (dispatch (run_callback ClearTyping) w)) = "".
Proof. reflexivity. Qed.

(** Once a [ClearTyping] timer is the last one pending and is due, letting
    the time pass leaves the indicator empty, whatever fired before it. *)
Lemma elapse_clears (w : World) (due_at ms : Z) (older : list (Z * callback)) :
  pending w = (older ++ [(due_at, ClearTyping)])%list ->
  due_at <= now w + Z.max 0 ms ->
  typing (app (elapse ms w)) = "".
Proof.
  intros Hp Hdue. unfold elapse. rewrite Hp, !filter_app. simpl.
  replace (due_at <=? now w + Z.max 0 ms) with true by (symmetry; now apply Z.leb_le).
  rewrite fold_left_app. reflexivity.
Qed.

(** C5.  On every userTyping event the client shows a (non-empty) typing
    indicator, changes no other state variable, emits nothing and sets one
    timer, due exactly 2000 ms after the event, whose callback resets the
    indicator to the empty string.  So, when nothing else happens, the
    indicator is empty once 2000 ms have passed; and, when no older timer is
    pending, it is still shown at any time before that. *)
Theorem typing_signal_expires (w : World) (user : string) :
  let w' := step w (Recv_userTyping user) in
  typing_indicator (app w') <> "" /\
  same_but_typing (app w) (app w') /\
  now w' = now w /\
  pending w' = (pending w ++ [(now w + 2000, ClearTyping)])%list /\
  trace w' = (trace w ++ [SetTimeout ClearTyping 2000])%list /\
  (forall s, typing (state_after (run_callback ClearTyping) s) = "" /\
             same_but_typing s (state_after (run_callback ClearTyping) s)) /\
  (forall ms, 2000 <= ms -> typing_indicator (app (elapse ms w')) = "") /\
  (forall ms, pending w = [] -> ms < 2000 ->
     typing_indicator (app (elapse ms w')) = typing_indicator (app w') /\
     pending (elapse ms w') = [(now w + 2000, ClearTyping)]).
Proof.
  intros w'.
  assert (Hp : pending w' = (pending w ++ [(now w + 2000, ClearTyping)])%list)
    by reflexivity.
  split; [|split; [|split; [|split; [|split; [|split; [|split]]]]]];
    try reflexivity.
  - apply append_nonempty. discriminate.
  - intros s. split; reflexivity.
  - intros ms Hms. unfold typing_indicator.
    apply (elapse_clears w' (now w + 2000) ms (pending w) Hp).
    change (now w') with (now w). lia.
  - intros ms Hnil Hms. unfold elapse. rewrite Hp, Hnil. simpl.
    change (now w') with (now w).
    replace (now w + 2000 <=? now w + Z.max 0 ms) with false
      by (symmetry; apply Z.leb_gt; lia).
    simpl. split; reflexivity.
Qed.

Lemma typing_signal_expires_witness :
  typing_indicator (app (run [Recv_userTyping "Bob"; Elapse 1999] boot)) = "Bob is typing..." /\
  typing_indicator (app (run [Recv_userTyping "Bob"; Elapse 2000] boot)) = "".
Proof.
  destruct (typing_signal_expires boot "Bob") as (_ & _ & _ & _ & _ & _ & Hlate & Hearly).
  split.
  - apply (Hearly 1999); [reflexivity | lia].
  - apply (Hlate 2000). lia.
Defined.

(** *** Timers fire in due order *)

Lemma handler_delays (x : stimulus) (s : AppState) :
  Forall delay_2000 (effects (handler x) s).
Proof.
  destruct x; try (repeat constructor; fail).
  - unfold effects, handler, JoinRoom, bind, read.
    destruct (truthy _); repeat constructor.
  - unfold effects, handler, on_codeResponse, bind, lift.
    destruct (get response "run") as [e | v]; [constructor|].
    destruct (get v "output"); constructor.
Qed.

Lemma run_callback_delays (cb : callback) (s : AppState) :
  Forall delay_2000 (effects (run_callback cb) s).
Proof. destruct cb; constructor. Qed.

Lemma scheduled_due (t : Z) (fx : list effect) :
  Forall delay_2000 fx -> Forall (fun p => fst p = t + 2000) (scheduled t fx).
Proof.
  induction 1 as [|e fx He _ IH]; simpl; [constructor|].
  destruct e; simpl in *; try exact IH. constructor; [simpl; lia | exact IH].
Qed.

Lemma sorted_const (l : list Z) (c : Z) :
  Forall (fun d => d = c) l -> Sorted Z.le l.
Proof.
  induction 1 as [|b l Hb Hl IH]; constructor; [exact IH|].
  destruct Hl as [|b' l' Hb' _]; constructor. lia.
Qed.

Lemma sorted_app_const (l l' : list Z) (c : Z) :
  Sorted Z.le l -> Forall (fun d => d <= c) l -> Forall (fun d => d = c) l' ->
  Sorted Z.le (l ++ l').
Proof.
  intros Hs Hb Hc. induction l as [|a l IH]; simpl.
  - now apply sorted_const with (c := c).
  - apply Sorted_inv in Hs. destruct Hs as [Hs Hhd].
    apply Forall_cons_iff in Hb. destruct Hb as [Ha Hb].
    constructor; [now apply IH|].
    destruct l as [|a' l]; simpl.
    + destruct Hc as [|b l'' Hb' _]; constructor. lia.
    + constructor. now apply HdRel_inv in Hhd.
Qed.

Lemma dispatch_keeps_order (h : M unit) (w : World) :
  Forall delay_2000 (effects h (app w)) ->
  timers_in_order w -> timers_in_order (dispatch h w).
Proof.
  unfold effects, timers_in_order, dispatch. intros Hd [Hs Hb].
  destruct (h (app w)) as [[r s] fx]. simpl in *.
  pose proof (scheduled_due (now w) fx Hd) as Hdue. split.
  - rewrite map_app. apply sorted_app_const with (c := now w + 2000).
    + exact Hs.
    + rewrite Forall_map. exact Hb.
    + rewrite Forall_map. exact Hdue.
  - apply Forall_app. split; [exact Hb|].
    eapply Forall_impl; [|exact Hdue]. simpl. intros; lia.
Qed.

Lemma sorted_filter (f : Z * callback -> bool) (l : list (Z * callback)) :
  Sorted Z.le (map fst l) -> Sorted Z.le (map fst (filter f l)).
Proof.
  intros Hs. apply Sorted_StronglySorted in Hs; [|intros x y z; apply Z.le_trans].
  apply StronglySorted_Sorted.
  induction l as [|p l IH]; simpl in *; [constructor|].
  apply StronglySorted_inv in Hs. destruct Hs as [Hs Hall].
  destruct (f p); simpl; [|now apply IH].
  constructor; [now apply IH|].
  rewrite Forall_map in *. rewrite Forall_forall in *.
  intros q Hq. apply Hall. apply filter_In in Hq. tauto.
Qed.

Lemma fold_dispatch_keeps_order (due : list (Z * callback)) (w : World) :
  timers_in_order w ->
  timers_in_order (fold_left (fun w' p => dispatch (run_callback (snd p)) w') due w).
Proof.
  revert w. induction due as [|p due IH]; intros w Hw; simpl; [exact Hw|].
  apply IH. apply dispatch_keeps_order; [apply run_callback_delays | exact Hw].
Qed.

Lemma elapse_keeps_order (ms : Z) (w : World) :
  timers_in_order w -> timers_in_order (elapse ms w).
Proof.
  intros [Hs Hb]. unfold elapse. apply fold_dispatch_keeps_order.
  split; simpl.
  - now apply sorted_filter.
  - rewrite Forall_forall in *. intros p Hp. apply filter_In in Hp.
    destruct Hp as [Hp _]. specialize (Hb p Hp). lia.
Qed.

(** The pending timers are always listed in the order in which they are
    due, so firing the due ones from the front of the list fires them in
    due order. *)
Lemma pending_in_due_order (xs : list stimulus) :
  timers_in_order (run xs boot).
Proof.
  assert (H0 : timers_in_order boot) by (split; constructor).
  revert H0. generalize boot as w.
  induction xs as [|x xs IH]; intros w Hw; simpl; [exact Hw|].
  apply IH.
  assert (Hd : timers_in_order (dispatch (handler x) w))
    by (apply dispatch_keeps_order; [apply handler_delays | exact Hw]).
  destruct x; try exact Hd. now apply elapse_keeps_order.
Qed.

(** *** The version variable *)

Lemma handler_keeps_version (x : stimulus) (s : AppState) :
  version (state_after (handler x) s) = version s.
Proof.
  destruct x; try reflexivity.
  - unfold state_after, handler, JoinRoom, bind, read.
    destruct (truthy _); reflexivity.
  - unfold state_after, handler, on_codeResponse, bind, lift.
    destruct (get response "run") as [e | v]; [reflexivity|].
    destruct (get v "output"); reflexivity.
Qed.

Lemma run_callback_keeps_version (cb : callback) (s : AppState) :
  version (state_after (run_callback cb) s) = version s.
Proof. destruct cb; reflexivity. Qed.

Ltac not_compile H :=
  simpl in H;
  repeat (destruct H as [H | H]; [discriminate H|]);
  try contradiction.

Lemma handler_compile_request (x : stimulus) (s : AppState) (args : list value) :
  version s = "*" ->
  In (Emit "compileCode" args) (effects (handler x) s) ->
  compile_request_any_version args.
Proof.
  intros Hv H. destruct x; cbn [handler] in H; try (not_compile H; fail).
  - unfold effects, JoinRoom, bind, read in H.
    destruct (truthy _); not_compile H.
  - simpl in H. destruct H as [H | []]. injection H as <-.
    rewrite Hv. now exists (code s), (roomId s), (language s), (input s).
  - unfold effects, on_codeResponse, bind, lift in H.
    destruct (get response "run") as [e | v]; [not_compile H|].
    destruct (get v "output"); not_compile H.
Qed.

Lemma run_callback_compile_request (cb : callback) (s : AppState) (args : list value) :
  ~ In (Emit "compileCode" args) (effects (run_callback cb) s).
Proof. destruct cb; intros H; not_compile H. Qed.

Lemma dispatch_keeps_wildcard (h : M unit) (w : World) :
  version (state_after h (app w)) = version (app w) ->
  (forall args, In (Emit "compileCode" args) (effects h (app w)) ->
                compile_request_any_version args) ->
  version_is_wildcard w -> version_is_wildcard (dispatch h w).
Proof.
  unfold state_after, effects, version_is_wildcard, dispatch.
  intros Hv Hfx [Hw Ht].
  destruct (h (app w)) as [[r s] fx]. simpl in *. split.
  - congruence.
  - intros args Hin. apply in_app_or in Hin. destruct Hin; auto.
Qed.

Lemma elapse_keeps_wildcard (ms : Z) (w : World) :
  version_is_wildcard w -> version_is_wildcard (elapse ms w).
Proof.
  unfold elapse.
  generalize (filter (fun p => fst p <=? now w + Z.max 0 ms) (pending w)) as due.
  generalize (filter (fun p => negb (fst p <=? now w + Z.max 0 ms)) (pending w)) as later.
  intros later due Hw.
  assert (H0 : version_is_wildcard
                 {| app := app w; now := now w + Z.max 0 ms;
                    pending := later; trace := trace w |}) by exact Hw.
  revert H0. generalize {| app := app w; now := now w + Z.max 0 ms;
                           pending := later; trace := trace w |} as w0.
  induction due as [|p due IH]; intros w0 H0; simpl; [exact H0|].
  apply IH. apply dispatch_keeps_wildcard; [apply run_callback_keeps_version| |exact H0].
  intros args Hin. now apply run_callback_compile_request in Hin.
Qed.

Lemma step_keeps_wildcard (w : World) (x : stimulus) :
  version_is_wildcard w -> version_is_wildcard (step w x).
Proof.
  intros Hw.
  assert (Hd : version_is_wildcard (dispatch (handler x) w)).
  { apply dispatch_keeps_wildcard; [apply handler_keeps_version| |exact Hw].
    intros args. apply handler_compile_request. apply Hw. }
  destruct x; try exact Hd. now apply elapse_keeps_wildcard.
Qed.

Lemma run_keeps_wildcard (xs : list stimulus) (w : World) :
  version_is_wildcard w -> version_is_wildcard (run xs w).
Proof.
  revert w. induction xs as [|x xs IH]; intros w Hw; simpl; [exact Hw|].
  apply IH. now apply step_keeps_wildcard.
Qed.

(** C8.  The version variable starts as "*" and nothing assigns it: after
    any sequence of user actions, server events, unloads and elapsed time,
    version is "*", every compileCode request sent so far carries version
    "*", and a compileCode request sent now does too. *)
Theorem version_always_wildcard (xs : list stimulus) :
  let w := run xs boot in
  version initial = "*" /\
  version (app w) = "*" /\
  (forall args, In (Emit "compileCode" args) (trace w) ->
                compile_request_any_version args) /\
  effects runCode (app w) =
    [Emit "compileCode" [VObject [("code", VString (code (app w)));
                                  ("roomId", VString (roomId (app w)));
                                  ("language", VString (language (app w)));
                                  ("version", VString "*");
                                  ("stdin", VString (input (app w)))]]].
Proof.
  intros w.
  assert (Hw : version_is_wildcard w).
  { apply run_keeps_wildcard. split; [reflexivity | intros args []]. }
  destruct Hw as [Hv Ht].
  split; [reflexivity|]. split; [exact Hv|]. split; [exact Ht|].
  unfold effects, runCode, bind, read, emit, perform. simpl. now rewrite Hv.
Qed.

Lemma version_always_wildcard_witness :
  compile_request_any_version
    [VObject [("code", VString "print(1)"); ("roomId", VString "123");
              ("language", VString "python3"); ("version", VString "*");
              ("stdin", VString "7")]].
Proof.
  apply (proj1 (proj2 (proj2
           (version_always_wildcard
              [ChangeRoomId "123"; ChangeUserName "A"; ClickJoinRoom;
               SelectLanguage "python3"; EditCode "print(1)"; ChangeInput "7";
               ClickExecute])))).
  vm_compute. do 4 right. left. reflexivity.
Defined.

(** *** Rounding to binary64 *)

Lemma pow2_pos (n : Z) : 0 <= n -> 0 < 2 ^ n.
Proof. intros. apply Z.pow_pos_nonneg; lia. Qed.

(** The rounded quotient is the floor or the next integer. *)
Lemma rne_bounds (v sh : Z) :
  0 < sh -> v / 2 ^ sh <= rne v sh <= v / 2 ^ sh + 1.
Proof.
  intros Hsh. unfold rne.
  replace (sh <=? 0) with false by (symmetry; apply Z.leb_gt; exact Hsh).
  rewrite Z.shiftr_div_pow2 by lia.
  destruct (_ || _); lia.
Qed.

(** A multiple of the grid step is left alone. *)
Lemma rne_exact (q sh : Z) : 0 < sh -> rne (q * 2 ^ sh) sh = q.
Proof.
  intros Hsh. unfold rne.
  replace (sh <=? 0) with false by (symmetry; apply Z.leb_gt; exact Hsh).
  rewrite Z.shiftr_div_pow2, Z.land_ones by lia.
  rewrite Z.div_mul, Z.mod_mul by (pose proof (pow2_pos sh); lia).
  rewrite Z.shiftl_1_l.
  pose proof (pow2_pos (sh - 1)).
  replace (2 ^ (sh - 1) <? 0) with false by (symmetry; apply Z.ltb_ge; lia).
  replace (0 =? 2 ^ (sh - 1)) with false by (symmetry; apply Z.eqb_neq; lia).
  reflexivity.
Qed.

(** Rounding at a fixed grid step keeps the order. *)
Lemma rne_mono (v1 v2 sh : Z) : v1 <= v2 -> rne v1 sh <= rne v2 sh.
Proof.
  intros Hv. destruct (Z.leb_spec sh 0) as [Hsh | Hsh].
  - unfold rne. replace (sh <=? 0) with true by (symmetry; apply Z.leb_le; exact Hsh).
    exact Hv.
  - pose proof (pow2_pos sh ltac:(lia)) as Hp.
    pose proof (rne_bounds v1 sh Hsh) as B1.
    pose proof (rne_bounds v2 sh Hsh) as B2.
    assert (Hq : v1 / 2 ^ sh <= v2 / 2 ^ sh) by (apply Z.div_le_mono; lia).
    destruct (Z.eq_dec (v1 / 2 ^ sh) (v2 / 2 ^ sh)) as [E | NE]; [|lia].
    (* same quotient: the remainders are ordered *)
    assert (Hr : v1 mod 2 ^ sh <= v2 mod 2 ^ sh).
    { rewrite (Z.div_mod v1 (2 ^ sh)), (Z.div_mod v2 (2 ^ sh)) in Hv by lia.
      rewrite E in Hv. lia. }
    unfold rne.
    replace (sh <=? 0) with false by (symmetry; apply Z.leb_gt; exact Hsh).
    rewrite !Z.shiftr_div_pow2, !Z.land_ones by lia. rewrite E.
    set (q := v2 / 2 ^ sh) in *. set (h := Z.shiftl 1 (sh - 1)).
    destruct (Z.ltb_spec h (v1 mod 2 ^ sh)) as [H1 | H1]; simpl.
    + replace (h <? v2 mod 2 ^ sh) with true by (symmetry; apply Z.ltb_lt; lia).
      simpl. lia.
    + destruct (Z.eqb_spec (v1 mod 2 ^ sh) h) as [H2 | H2]; simpl.
      * destruct (Z.odd q) eqn:Ho.
        -- destruct (Z.ltb_spec h (v2 mod 2 ^ sh)); simpl; [lia|].
           replace (v2 mod 2 ^ sh =? h) with true by (symmetry; apply Z.eqb_eq; lia).
           simpl. lia.
        -- destruct (_ || _); lia.
      * destruct (_ || _); lia.
Qed.

Lemma rne_le_of (v N sh : Z) : 0 <= sh -> v <= N * 2 ^ sh -> rne v sh <= N.
Proof.
  intros Hsh Hv. destruct (Z.eq_dec sh 0) as [-> | Hn].
  - unfold rne. simpl. rewrite Z.pow_0_r in Hv. lia.
  - rewrite <- (rne_exact N sh) by lia. now apply rne_mono.
Qed.

Lemma rne_ge_of (v N sh : Z) : 0 <= sh -> N * 2 ^ sh <= v -> N <= rne v sh.
Proof.
  intros Hsh Hv. destruct (Z.eq_dec sh 0) as [-> | Hn].
  - unfold rne. simpl. rewrite Z.pow_0_r in Hv. lia.
  - rewrite <- (rne_exact N sh) by lia. now apply rne_mono.
Qed.


Lemma round_at_eq (k v : Z) :
  round_at k v = rne v (drop k v) * 2 ^ (drop k v - k).
Proof.
  unfold round_at. apply Z.shiftl_mul_pow2. unfold drop. lia.
Qed.

(** Rounding to binary64 keeps the order, across binades too. *)
Lemma round_at_mono (k v1 v2 : Z) :
  0 <= k -> 0 <= v1 -> v1 <= v2 -> round_at k v1 <= round_at k v2.
Proof.
  intros Hk H0 Hle. rewrite !round_at_eq.
  assert (Hlog : Z.log2 v1 <= Z.log2 v2) by now apply Z.log2_le_mono.
  assert (Hsh : drop k v1 <= drop k v2) by (unfold drop; lia).
  assert (Hk1 : k <= drop k v1) by (unfold drop; lia).
  destruct (Z.eq_dec (drop k v1) (drop k v2)) as [E | NE].
  - rewrite E. apply Z.mul_le_mono_nonneg_r.
    + apply Z.pow_nonneg; lia.
    + now apply rne_mono.
  - (* the larger value is rounded on a coarser grid *)
    assert (E2 : drop k v2 = Z.log2 v2 + 1 - prec) by (unfold drop in *; lia).
    assert (Hv2 : 0 < v2).
    { destruct (Z.ltb_spec 0 v2); [assumption|].
      rewrite (Z.log2_nonpos v2) in E2 by lia. unfold prec in E2. lia. }
    assert (A : 2 ^ 52 <= rne v2 (drop k v2)).
    { apply rne_ge_of; [lia|].
      rewrite <- Z.pow_add_r by lia.
      replace (52 + drop k v2) with (Z.log2 v2) by (unfold prec in E2; lia).
      apply Z.log2_spec. exact Hv2. }
    assert (B : rne v1 (drop k v1) <= 2 ^ 53).
    { apply rne_le_of; [lia|].
      rewrite <- Z.pow_add_r by lia.
      destruct (Z.eq_dec v1 0) as [-> | Hn0].
      - apply Z.pow_nonneg. lia.
      - apply Z.le_trans with (2 ^ Z.succ (Z.log2 v1)).
        + apply Z.lt_le_incl, Z.log2_spec. lia.
        + apply Z.pow_le_mono_r; [lia|]. unfold drop, prec. lia. }
    apply Z.le_trans with (2 ^ 53 * 2 ^ (drop k v1 - k)).
    { apply Z.mul_le_mono_nonneg_r; [apply Z.pow_nonneg; lia | exact B]. }
    apply Z.le_trans with (2 ^ 52 * 2 ^ (drop k v2 - k)).
    { rewrite <- !Z.pow_add_r by lia. apply Z.pow_le_mono_r; lia. }
    apply Z.mul_le_mono_nonneg_r; [apply Z.pow_nonneg; lia | exact A].
Qed.

Lemma mul_mono (x x' c : float64) :
  0 <= x -> x <= x' -> 0 <= c -> mul x c <= mul x' c.
Proof.
  intros. unfold mul. apply round_at_mono; [unfold frac; lia | nia | nia].
Qed.

Lemma add_mono (c y y' : float64) :
  0 <= c -> 0 <= y -> y <= y' -> add c y <= add c y'.
Proof.
  intros. unfold add. apply round_at_mono; lia.
Qed.

Lemma floor_mono (x y : float64) : x <= y -> floor x <= floor y.
Proof.
  intros. unfold floor, frac. rewrite !Z.shiftr_div_pow2 by lia.
  apply Z.div_le_mono; [|assumption]. apply Z.pow_pos_nonneg; lia.
Qed.

Lemma round_at_nonneg (k v : Z) : 0 <= k -> 0 <= v -> 0 <= round_at k v.
Proof.
  intros Hk Hv.
  assert (E : round_at k 0 = 0).
  { rewrite round_at_eq. unfold drop, prec. simpl Z.log2.
    replace (rne 0 (Z.max (0 + 1 - 53) k)) with 0; [reflexivity|].
    unfold rne. destruct (_ <=? 0); [reflexivity|].
    rewrite Z.shiftr_0_l, Z.land_0_l. simpl.
    destruct (_ <? 0) eqn:X; [apply Z.ltb_lt in X; pose proof (Z.shiftl_nonneg 1 (Z.max (-52) k - 1)); lia|].
    simpl. rewrite andb_false_r. reflexivity. }
  rewrite <- E. now apply round_at_mono.
Qed.


Lemma one_eq : one = 2 ^ 1074.
Proof. unfold one, of_Z, frac. now rewrite Z.shiftl_1_l. Qed.

(** *** The number model reproduces known binary64 results *)

(** 0.1 + 0.2 is 0.30000000000000004 and not the double nearest to 0.3;
    0.1 * 0.1 is 0.010000000000000002; half the least subnormal rounds to 0
    and one and a half times it to twice it (ties to even); a product in the
    subnormal range is rounded on the fixed grid. *)
Lemma binary64_samples :
  let tenth := Z.shiftl 3602879701896397 1019 in
  let fifth := Z.shiftl 3602879701896397 1020 in
  let half := Z.shiftl 1 1073 in
  add tenth fifth = Z.shiftl 1351079888211149 1022 /\
  add tenth fifth <> Z.shiftl 5404319552844595 1020 /\
  mul tenth tenth = Z.shiftl 1441151880758559 1017 /\
  mul 1 half = 0 /\
  mul 3 half = 2 /\
  mul 20240225330731 (Z.shiftl 3152519739159347 1022) = Z.shiftl 1771019716439 3 /\
  is_double tenth = true /\
  is_double (tenth + 1) = false.
Proof. vm_compute. repeat split. discriminate. Qed.

(** A binary64 value below 1 is at most 1 - 2^-53. *)
Lemma double_below_one (r : float64) :
  is_double r = true -> r < one -> 0 <= r <= max_draw.
Proof.
  unfold is_double. intros H Hlt. apply andb_true_iff in H. destruct H as [H0 Hr].
  apply Z.leb_le in H0. apply Z.eqb_eq in Hr. split; [exact H0|].
  unfold max_draw. rewrite Z.shiftl_1_l. rewrite one_eq in *.
  destruct (Z.eq_dec r 0) as [-> | Hn0].
  { assert (2 ^ 1021 < 2 ^ 1074) by (apply Z.pow_lt_mono_r; lia). lia. }
  assert (Hlog : Z.log2 r < 1074) by (apply Z.log2_lt_pow2; lia).
  rewrite round_at_eq in Hr. rewrite Z.sub_0_r in Hr.
  assert (Hsplit : 2 ^ 1074 = 2 ^ 53 * 2 ^ 1021) by (rewrite <- Z.pow_add_r by lia; reflexivity).
  destruct (Z.eq_dec (drop 0 r) 1021) as [E | NE].
  - rewrite E in Hr. set (q := rne r 1021) in *.
    assert (P : 0 < 2 ^ 1021) by (apply Z.pow_pos_nonneg; lia).
    assert (q < 2 ^ 53) by nia.
    nia.
  - assert (Hl : Z.log2 r < 1073) by (unfold drop, prec in *; lia).
    assert (r < 2 ^ 1073) by (apply Z.log2_lt_pow2; lia).
    assert (2 ^ 1074 = 2 * 2 ^ 1073) by (rewrite <- Z.pow_succ_r by lia; reflexivity).
    assert (2 ^ 1021 <= 2 ^ 1073) by (apply Z.pow_le_mono_r; lia).
    lia.
Qed.

Lemma of_Z_nonneg (n : Z) : 0 <= n -> 0 <= of_Z n.
Proof. intros. unfold of_Z. now apply Z.shiftl_nonneg. Qed.

Lemma mul_nonneg (x y : float64) : 0 <= x -> 0 <= y -> 0 <= mul x y.
Proof. intros. unfold mul. apply round_at_nonneg; [unfold frac; lia | nia]. Qed.

(** The number [Math.floor(100000 + draw * 900000)] grows with the draw. *)
Lemma room_number_mono (r1 r2 : float64) :
  0 <= r1 -> r1 <= r2 ->
  floor (add (of_Z 100000) (mul r1 (of_Z 900000))) <=
  floor (add (of_Z 100000) (mul r2 (of_Z 900000))).
Proof.
  intros H0 Hle.
  assert (Hc : 0 <= of_Z 900000) by (apply of_Z_nonneg; lia).
  apply floor_mono, add_mono.
  - apply of_Z_nonneg. lia.
  - now apply mul_nonneg.
  - now apply mul_mono.
Qed.

Lemma room_number_least :
  floor (add (of_Z 100000) (mul 0 (of_Z 900000))) = 100000.
Proof. vm_compute. reflexivity. Qed.

Lemma room_number_greatest :
  floor (add (of_Z 100000) (mul max_draw (of_Z 900000))) = 999999.
Proof. vm_compute. reflexivity. Qed.

(** *** Decimal digits *)

Lemma digits_rev_more (fuel : nat) (n : Z) :
  10 <= n ->
  digits_rev (S fuel) n = digit_char (n mod 10) :: digits_rev fuel (n / 10).
Proof.
  intros H. simpl. now replace (n <? 10) with false by (symmetry; apply Z.ltb_ge; lia).
Qed.

Lemma digits_rev_last (fuel : nat) (n : Z) :
  n < 10 -> digits_rev (S fuel) n = [digit_char (n mod 10)].
Proof.
  intros H. simpl. now replace (n <? 10) with true by (symmetry; apply Z.ltb_lt; lia).
Qed.

Lemma toString_six_digits (n : Z) :
  100000 <= n <= 999999 -> six_digits (toString n) n.
Proof.
  intros Hn. unfold toString.
  pose proof (Z.div_mod n 10 ltac:(lia)) as E0.
  pose proof (Z.mod_pos_bound n 10 ltac:(lia)) as B0.
  set (n1 := n / 10) in *.
  pose proof (Z.div_mod n1 10 ltac:(lia)) as E1.
  pose proof (Z.mod_pos_bound n1 10 ltac:(lia)) as B1.
  set (n2 := n1 / 10) in *.
  pose proof (Z.div_mod n2 10 ltac:(lia)) as E2.
  pose proof (Z.mod_pos_bound n2 10 ltac:(lia)) as B2.
  set (n3 := n2 / 10) in *.
  pose proof (Z.div_mod n3 10 ltac:(lia)) as E3.
  pose proof (Z.mod_pos_bound n3 10 ltac:(lia)) as B3.
  set (n4 := n3 / 10) in *.
  pose proof (Z.div_mod n4 10 ltac:(lia)) as E4.
  pose proof (Z.mod_pos_bound n4 10 ltac:(lia)) as B4.
  set (n5 := n4 / 10) in *.
  rewrite (digits_rev_more _ n) by lia. fold n1.
  rewrite (digits_rev_more _ n1) by lia. fold n2.
  rewrite (digits_rev_more _ n2) by lia. fold n3.
  rewrite (digits_rev_more _ n3) by lia. fold n4.
  rewrite (digits_rev_more _ n4) by lia. fold n5.
  rewrite (digits_rev_last _ n5) by lia.
  rewrite (Z.mod_small n5 10) by lia.
  exists n5, (n4 mod 10), (n3 mod 10), (n2 mod 10), (n1 mod 10), (n mod 10).
  repeat (split; [lia|]). reflexivity.
Qed.

Lemma six_digits_length (str : string) (n : Z) :
  six_digits str n -> String.length str = 6%nat /\ 100000 <= n <= 999999.
Proof.
  intros (d5 & d4 & d3 & d2 & d1 & d0 & H5 & H4 & H3 & H2 & H1 & H0 & Hn & ->).
  split; [reflexivity | lia].
Qed.

(** C10.  Room ids are six-digit decimal strings: for every binary64 draw r
    with 0 <= r < 1, generateRoomId returns the decimal representation of
    the integer floor(100000 + r * 900000), the product and the sum being
    those of the program (each rounded to binary64), and that integer lies
    between 100000 and 999999 inclusive. *)
Theorem generateRoomId_six_digits (r : float64) :
  is_double r = true -> r < one ->
  let n := floor (add (of_Z 100000) (mul r (of_Z 900000))) in
  generateRoomId r = toString n /\
  100000 <= n <= 999999 /\
  six_digits (generateRoomId r) n /\
  String.length (generateRoomId r) = 6%nat.
Proof.
  intros Hd Hlt n.
  destruct (double_below_one r Hd Hlt) as [H0 Hmax].
  assert (Hn : 100000 <= n <= 999999).
  { split.
    - rewrite <- room_number_least. apply room_number_mono; lia.
    - rewrite <- room_number_greatest. now apply room_number_mono. }
  assert (H6 : six_digits (generateRoomId r) n) by now apply toString_six_digits.
  split; [reflexivity|]. split; [exact Hn|]. split; [exact H6|].
  apply (six_digits_length _ _ H6).
Qed.

Lemma generateRoomId_six_digits_witness :
  generateRoomId (Z.shiftl 1 1073) = "550000" /\
  generateRoomId max_draw = "999999".
Proof.
  split.
  - rewrite (proj1 (generateRoomId_six_digits (Z.shiftl 1 1073) eq_refl eq_refl)).
    vm_compute. reflexivity.
  - rewrite (proj1 (generateRoomId_six_digits max_draw eq_refl eq_refl)).
    vm_compute. reflexivity.
Defined.

(** The same bounds hold for the floor of the exact real value. *)
Lemma exact_room_number_bounds (r : float64) :
  0 <= r < one -> 100000 <= exact_room_number r <= 999999.
Proof.
  rewrite one_eq. unfold exact_room_number, frac. intros H.
  assert (P : 0 < 2 ^ 1074) by (apply Z.pow_pos_nonneg; lia).
  split.
  - apply Z.div_le_lower_bound; lia.
  - assert (exact_div : (100000 * 2 ^ 1074 + r * 900000) / 2 ^ 1074 < 1000000).
    { apply Z.div_lt_upper_bound; lia. }
    lia.
Qed.

(** The roundings are visible: at this draw the exact value lies just
    below 576371 and the rounded sum is 576371. *)
Lemma rounding_can_reach_the_next_integer :
  let r := Z.shiftl 4767520573533579 1021 in
  is_double r = true /\ r < one /\
  floor (add (of_Z 100000) (mul r (of_Z 900000))) = 576371 /\
  exact_room_number r = 576370.
Proof. vm_compute. repeat split. Qed.

(** * Properties of whole runs *)

Import Page.

#[local] Arguments generateRoomId : simpl never.
#[local] Arguments Number.is_double : simpl never.
#[local] Arguments Number.one : simpl never.

(** *** What a step does to the state and to the trace *)

Lemma emitted_app (a b : list effect) :
  emitted (a ++ b) = (emitted a ++ emitted b)%list.
Proof.
  induction a as [|e a IH]; simpl; [reflexivity|].
  destruct e; simpl; now rewrite IH.
Qed.

Lemma dispatch_app (h : M unit) (w : World) :
  app (dispatch h w) = state_after h (app w).
Proof. unfold dispatch, state_after. now destruct (h (app w)) as [[r s] fx]. Qed.

Lemma dispatch_trace (h : M unit) (w : World) :
  trace (dispatch h w) = (trace w ++ effects h (app w))%list.
Proof. unfold dispatch, effects. now destruct (h (app w)) as [[r s] fx]. Qed.

Lemma dispatch_pending (h : M unit) (w : World) :
  pending (dispatch h w) = (pending w ++ scheduled (now w) (effects h (app w)))%list.
Proof. unfold dispatch, effects. now destruct (h (app w)) as [[r s] fx]. Qed.

Lemma dispatch_now (h : M unit) (w : World) : now (dispatch h w) = now w.
Proof. unfold dispatch. now destruct (h (app w)) as [[r s] fx]. Qed.

Lemma with_transients_same (s : AppState) :
  with_transients (typing s) (copySuccess s) s = s.
Proof. now destruct s. Qed.

(** Firing a list of timers: the trace, the clock and the pending list stay,
    and of the state only the two transient messages can change, each to
    the empty string when a timer of its kind is in the list. *)
Lemma fire_all (l : list (Z * callback)) (w : World) :
  fold_left (fun w' p => dispatch (run_callback (snd p)) w') l w =
  {| app := with_transients
              (if existsb is_ClearTyping l then "" else typing (app w))
              (if existsb is_ClearCopySuccess l then "" else copySuccess (app w))
              (app w);
     now := now w; pending := pending w; trace := trace w |}.
Proof.
  revert w. induction l as [|[due cb] l IH]; intros w; simpl.
  - rewrite with_transients_same. now destruct w.
  - rewrite IH. destruct w as [s t p tr].
    unfold dispatch, is_ClearTyping, is_ClearCopySuccess, with_transients.
    destruct cb; simpl; rewrite !app_nil_r;
      destruct (existsb _ l); destruct (existsb _ l); reflexivity.
Qed.

Lemma elapse_spec (ms : Z) (w : World) :
  let t := now w + Z.max 0 ms in
  let due := filter (fun p => fst p <=? t) (pending w) in
  elapse ms w =
  {| app := with_transients
              (if existsb is_ClearTyping due then "" else typing (app w))
              (if existsb is_ClearCopySuccess due then "" else copySuccess (app w))
              (app w);
     now := t;
     pending := filter (fun p => negb (fst p <=? t)) (pending w);
     trace := trace w |}.
Proof. intros t due. unfold elapse. now rewrite fire_all. Qed.

Lemma elapse_trace (ms : Z) (w : World) : trace (elapse ms w) = trace w.
Proof. now rewrite elapse_spec. Qed.

Lemma elapse_app (ms : Z) (w : World) :
  exists t c, app (elapse ms w) = with_transients t c (app w).
Proof. rewrite elapse_spec. simpl. eauto. Qed.

Lemma step_handler (w : World) (x : stimulus) :
  (forall ms, x <> Elapse ms) -> step w x = dispatch (handler x) w.
Proof. destruct x; intros H; try reflexivity. now contradiction (H ms). Qed.

(** An invariant of the state and the trace that every allowed handler
    keeps, and that does not look at the transient messages, holds along
    every allowed run. *)
Section RunInvariant.

Variable allowed : AppState -> stimulus -> Prop.
Variable P : AppState -> list effect -> Prop.

Hypothesis P_handler :
  forall s tr x, allowed s x -> P s tr ->
    P (state_after (handler x) s) (tr ++ effects (handler x) s)%list.
Hypothesis P_transients :
  forall s tr t c, P s tr -> P (with_transients t c s) tr.

Lemma step_keeps (w : World) (x : stimulus) :
  allowed (app w) x -> P (app w) (trace w) -> P (app (step w x)) (trace (step w x)).
Proof.
  intros Ha Hp.
  assert (Hd : P (app (dispatch (handler x) w)) (trace (dispatch (handler x) w))).
  { rewrite dispatch_app, dispatch_trace. now apply P_handler. }
  destruct x; try exact Hd.
  simpl. rewrite elapse_trace. destruct (elapse_app ms w) as (t & c & ->).
  now apply P_transients.
Qed.

Lemma run_keeps (xs : list stimulus) (w : World) :
  along allowed xs w -> P (app w) (trace w) ->
  P (app (run xs w)) (trace (run xs w)).
Proof.
  revert w. induction xs as [|x xs IH]; intros w Hal Hp; simpl; [exact Hp|].
  destruct Hal as [Ha Hal]. apply IH; [exact Hal|]. now apply step_keeps.
Qed.

End RunInvariant.

Lemma along_all (allowed : AppState -> stimulus -> Prop) (xs : list stimulus) (w : World) :
  (forall s x, allowed s x) -> along allowed xs w.
Proof.
  intros H. revert w. induction xs as [|x xs IH]; intros w; simpl; [exact I|].
  split; [apply H | apply IH].
Qed.

Lemma along_Forall (ok : stimulus -> bool) (xs : list stimulus) (w : World) :
  forallb ok xs = true -> along (fun _ x => ok x = true) xs w.
Proof.
  revert w. induction xs as [|x xs IH]; intros w; simpl; [trivial|].
  intros H. apply andb_true_iff in H. destruct H. split; [assumption | now apply IH].
Qed.

(** The two handlers whose effect depends on a test. *)
Ltac split_handler :=
  unfold state_after, effects, JoinRoom, on_codeResponse, bind, read, lift;
  repeat match goal with
         | |- context [truthy (and_ ?a ?b)] => destruct (truthy (and_ a b)) eqn:?
         | |- context [get ?v ?k] => destruct (get v k) eqn:?
         end; cbn.

Ltac by_handler x :=
  destruct x; cbn [handler]; try discriminate;
  try (cbn; try reflexivity; try tauto; fail);
  split_handler; try reflexivity; try tauto.

(** *** The joined flag and the wire *)

Lemma wire_joined_app (tr : list effect) (fx : list effect) :
  wire_joined (emitted (tr ++ fx)) = fold_left told (emitted fx) (wire_joined (emitted tr)).
Proof. unfold wire_joined. now rewrite emitted_app, fold_left_app. Qed.

(** X1.  As long as the window is not unloaded, the joined flag says what
    the server was last told: it is true exactly when the last join or
    leaveRoom event sent is a join. *)
Theorem joined_flag_mirrors_wire (xs : list stimulus) :
  forallb (fun x => negb (is_unload x)) xs = true ->
  wire_joined (emitted (trace (run xs boot))) = joined (app (run xs boot)).
Proof.
  intros H.
  apply (run_keeps (fun _ x => negb (is_unload x) = true)
                   (fun s tr => wire_joined (emitted tr) = joined s)).
  - intros s tr x Hx Hp. rewrite wire_joined_app, Hp. by_handler x.
  - intros s tr t c Hp. exact Hp.
  - now apply along_Forall.
  - reflexivity.
Qed.

Lemma joined_flag_mirrors_wire_witness :
  wire_joined
    (emitted (trace (run [ChangeRoomId "123"; ChangeUserName "A"; ClickJoinRoom;
                          EditCode "x"] boot))) = true.
Proof.
  rewrite (joined_flag_mirrors_wire
             [ChangeRoomId "123"; ChangeUserName "A"; ClickJoinRoom; EditCode "x"]);
    reflexivity.
Defined.

(** X2.  Whatever happens, unload included: when the client shows the join
    form, the last join or leaveRoom event on the wire is not a join.  (The
    converse fails after an unload, which sends leaveRoom and keeps the
    flag.) *)
Theorem join_form_means_left (xs : list stimulus) :
  joined (app (run xs boot)) = false ->
  wire_joined (emitted (trace (run xs boot))) = false.
Proof.
  apply (run_keeps (fun _ _ => True)
                   (fun s tr => joined s = false -> wire_joined (emitted tr) = false)).
  - intros s tr x _ Hp. rewrite wire_joined_app.
    destruct x; cbn [handler]; try (cbn; try reflexivity; exact Hp; fail).
    + split_handler; [discriminate | exact Hp].
    + split_handler; exact Hp.
  - intros s tr t c Hp. exact Hp.
  - now apply along_all.
  - reflexivity.
Qed.

Lemma join_form_means_left_witness :
  wire_joined
    (emitted (trace (run [ChangeRoomId "123"; ChangeUserName "A"; ClickJoinRoom;
                          ClickLeaveRoom] boot))) = false.
Proof.
  apply (join_form_means_left
           [ChangeRoomId "123"; ChangeUserName "A"; ClickJoinRoom; ClickLeaveRoom]).
  reflexivity.
Defined.

Lemma unload_breaks_mirror :
  let w := run [ChangeRoomId "123"; ChangeUserName "A"; ClickJoinRoom; BeforeUnload] boot in
  joined (app w) = true /\ wire_joined (emitted (trace w)) = false.
Proof. split; reflexivity. Qed.

(** *** Room-scoped events carry the joined room *)

Lemma follows_joins_app (tr fx : list effect) :
  follows_joins (emitted (tr ++ fx)) =
  fold_left follow (emitted fx) (follows_joins (emitted tr)).
Proof. unfold follows_joins. now rewrite emitted_app, fold_left_app. Qed.

Lemma truthy_and_inv (a b : string) :
  truthy (and_ a b) = true -> a <> "" /\ b <> "".
Proof.
  unfold and_. destruct (truthy a) eqn:Ha.
  - intros Hb. split; now apply truthy_true_iff.
  - intros Hb. congruence.
Qed.

Ltac offered_flags Hx :=
  cbn [offered] in Hx;
  repeat match type of Hx with
         | (_ && _)%bool = true => let H' := fresh "Hx" in
                                   apply andb_true_iff in Hx; destruct Hx as [Hx H']
         end;
  try apply negb_true_iff in Hx.

Lemma follow_keeps_joined_as (s : AppState) (tr : list effect) (x : stimulus) :
  offered s x = true ->
  joined_as s (follows_joins (emitted tr)) ->
  joined_as (state_after (handler x) s)
            (follows_joins (emitted (tr ++ effects (handler x) s))).
Proof.
  intros Hx Hp. rewrite follows_joins_app.
  destruct (follows_joins (emitted tr)) as [cur ok].
  destruct Hp as [Hok Hj]. simpl in Hok, Hj. subst ok.
  destruct x; offered_flags Hx; cbn [handler].
  - (* room id typed on the join form *)
    split; [reflexivity|]. cbn. congruence.
  - split; [reflexivity|]. cbn. congruence.
  - split; [reflexivity|]. cbn. congruence.
  - (* Join Room *)
    unfold state_after, effects, JoinRoom, bind, read.
    destruct (truthy (and_ (roomId s) (userName s))) eqn:Hg; cbn.
    + apply truthy_and_inv in Hg. split; [reflexivity|]. intros _. tauto.
    + split; [reflexivity|]. congruence.
  - (* Copy Id *)
    split; [reflexivity | exact Hj].
  - (* language selected *)
    destruct (Hj Hx) as (-> & Hr & Hu). cbn. rewrite String.eqb_refl.
    split; [reflexivity|]. intros _. tauto.
  - (* Leave Room *)
    split; [reflexivity|]. cbn. discriminate.
  - (* AI Review *)
    destruct (Hj Hx) as (-> & Hr & Hu). cbn. rewrite String.eqb_refl.
    split; [reflexivity|]. intros _. tauto.
  - (* code edited *)
    destruct (Hj Hx) as (-> & Hr & Hu). cbn. rewrite !String.eqb_refl.
    split; [reflexivity|]. intros _. tauto.
  - split; [reflexivity | exact Hj].
  - (* Execute *)
    destruct (Hj Hx) as (-> & Hr & Hu). cbn. rewrite String.eqb_refl.
    split; [reflexivity|]. intros _. tauto.
  - split; [reflexivity | exact Hj].
  - (* unload *)
    split; [reflexivity | exact Hj].
  - split; [reflexivity | exact Hj].
  - split; [reflexivity | exact Hj].
  - split; [reflexivity | exact Hj].
  - split; [reflexivity | exact Hj].
  - split_handler; (split; [reflexivity | exact Hj]).
  - split; [reflexivity | exact Hj].
  - split; [reflexivity | exact Hj].
Qed.

(** X3.  On every run the page can produce, every event sent other than
    join and leaveRoom carries the room id of the most recent join, and
    every typing event its user name too; and while the editor is shown the
    room id and the user name in the state are those of that join and are
    not empty. *)
Theorem room_events_follow_join (xs : list stimulus) :
  possible xs boot ->
  let w := run xs boot in
  snd (follows_joins (emitted (trace w))) = true /\
  (joined (app w) = true ->
   fst (follows_joins (emitted (trace w))) = Some (roomId (app w), userName (app w)) /\
   roomId (app w) <> "" /\ userName (app w) <> "").
Proof.
  intros H.
  apply (run_keeps (fun s x => offered s x = true)
                   (fun s tr => joined_as s (follows_joins (emitted tr)))).
  - apply follow_keeps_joined_as.
  - intros s tr t c Hp. exact Hp.
  - exact H.
  - split; [reflexivity | discriminate].
Qed.

Lemma room_events_follow_join_witness :
  follows_joins
    (emitted (trace (run [ChangeRoomId "123"; ChangeUserName "A"; ClickJoinRoom;
                          EditCode "x"; ClickExecute] boot)))
  = (Some ("123", "A"), true).
Proof.
  pose proof (room_events_follow_join
                [ChangeRoomId "123"; ChangeUserName "A"; ClickJoinRoom;
                 EditCode "x"; ClickExecute]) as H.
  destruct H as [Hok Hcur].
  - cbn. repeat split.
  - destruct (Hcur eq_refl) as (Hc & _).
    destruct (follows_joins _) as [cur ok]. simpl in *. now subst.
Defined.

(** Without the page's gating this fails: a room id typed while joined
    would be sent with the next edit. *)
Lemma ungated_edit_can_name_another_room :
  snd (follows_joins
         (emitted (trace (run [ChangeRoomId "123"; ChangeUserName "A"; ClickJoinRoom;
                               ChangeRoomId "456"; EditCode "x"] boot)))) = false.
Proof. reflexivity. Qed.

(** *** The review flag and the modal *)

(** X4.  Only an AIReview event clears the in-review flag: once a review
    has been requested, the AI Review button stays disabled through any
    run that receives no AIReview, leaving and rejoining included. *)
Theorem review_flag_waits_for_reply (xs : list stimulus) (w : World) :
  isRev (app w) = true ->
  forallb (fun x => negb (is_review x)) xs = true ->
  review_button_disabled (app (run xs w)) = true.
Proof.
  intros Hw Hxs. unfold review_button_disabled.
  apply (run_keeps (fun _ x => negb (is_review x) = true)
                   (fun s _ => isRev s = true)).
  - intros s tr x Hx Hp. by_handler x.
  - intros s tr t c Hp. exact Hp.
  - now apply along_Forall.
  - exact Hw.
Qed.

Lemma review_flag_waits_for_reply_witness :
  review_button_disabled
    (app (run [ClickLeaveRoom; ChangeRoomId "9"; ChangeUserName "B"; ClickJoinRoom]
              (run [ChangeRoomId "123"; ChangeUserName "A"; ClickJoinRoom; ClickAIReview]
                   boot))) = true.
Proof.
  apply review_flag_waits_for_reply; reflexivity.
Defined.

Lemma count_event_app (name : string) (a b : list (string * list value)) :
  count_event name (a ++ b) = (count_event name a + count_event name b)%nat.
Proof. unfold count_event. now rewrite filter_app, length_app. Qed.

Lemma step_unanswered (w : World) (x : stimulus) :
  offered (app w) x = true ->
  (unanswered (app (step w x)) (trace (step w x)) <=
   unanswered (app w) (trace w) + (if is_review x then 1 else 0))%nat.
Proof.
  intros Hx. unfold unanswered.
  destruct x;
    try (simpl step; rewrite dispatch_app, dispatch_trace, emitted_app, count_event_app);
    cbn [handler is_review];
    try (cbn; destruct (isRev (app w)); simpl; lia).
  - split_handler; destruct (isRev (app w)); simpl; lia.
  - cbn [offered] in Hx. apply andb_true_iff in Hx. destruct Hx as [_ Hr].
    apply negb_true_iff in Hr. cbn. rewrite Hr. simpl. lia.
  - split_handler; destruct (isRev (app w)); simpl; lia.
  - simpl step. rewrite elapse_trace. destruct (elapse_app ms w) as (t & c & ->).
    simpl. lia.
Qed.

(** X5.  On every run the page can produce, the review requests sent never
    exceed the AIReview events received by more than one: the client never
    has two requests unanswered. *)
Theorem one_review_at_a_time (xs : list stimulus) :
  possible xs boot ->
  (count_event "getAIReview" (emitted (trace (run xs boot))) <= reviews_received xs + 1)%nat.
Proof.
  intros H.
  assert (G : forall ys w, possible ys w ->
            (unanswered (app (run ys w)) (trace (run ys w)) <=
             unanswered (app w) (trace w) + reviews_received ys)%nat).
  { induction ys as [|y ys IH]; intros w Hp; simpl; [lia|].
    destruct Hp as [Hy Hp]. specialize (IH _ Hp).
    pose proof (step_unanswered w y Hy) as Hs.
    unfold reviews_received in *. simpl.
    destruct y; simpl in *; lia. }
  specialize (G xs boot H). unfold unanswered in G. simpl in G.
  destruct (isRev _); lia.
Qed.

Lemma one_review_at_a_time_witness :
  (count_event "getAIReview"
     (emitted (trace (run [ChangeRoomId "123"; ChangeUserName "A"; ClickJoinRoom;
                           ClickAIReview; Recv_AIReview "ok"; ClickAIReview] boot)))
   <= 1 + 1)%nat.
Proof.
  apply (one_review_at_a_time
           [ChangeRoomId "123"; ChangeUserName "A"; ClickJoinRoom;
            ClickAIReview; Recv_AIReview "ok"; ClickAIReview]).
  cbn. repeat split.
Defined.

(** X6.  The modal keeps no stale text: in every state reached from the
    start, a closed modal has an empty message. *)
Theorem closed_modal_is_empty (xs : list stimulus) :
  isModalOpen (app (run xs boot)) = false -> modalMessage (app (run xs boot)) = "".
Proof.
  apply (run_keeps (fun _ _ => True)
                   (fun s _ => isModalOpen s = false -> modalMessage s = "")).
  - intros s tr x _ Hp. by_handler x.
  - intros s tr t c Hp. exact Hp.
  - now apply along_all.
  - reflexivity.
Qed.

Lemma closed_modal_is_empty_witness :
  modalMessage (app (run [Recv_AIReview "text"; ClickCloseModal] boot)) = "".
Proof.
  apply (closed_modal_is_empty [Recv_AIReview "text"; ClickCloseModal]). reflexivity.
Defined.

(** X7.  Nothing the server sends, and no timer, makes the client emit an
    event, and nothing the server sends changes the joined flag, the room
    id, the user name, the program input or the version. *)
Theorem server_events_are_absorbed (x : stimulus) (cb : callback) (s : AppState) :
  is_server_event x = true ->
  let s' := state_after (handler x) s in
  emitted (effects (handler x) s) = [] /\
  emitted (effects (run_callback cb) s) = [] /\
  joined s' = joined s /\ roomId s' = roomId s /\ userName s' = userName s /\
  input s' = input s /\ version s' = version s.
Proof.
  intros Hx. destruct x; try discriminate Hx; cbn [handler];
    try (destruct cb; repeat split; fail).
  split_handler; destruct cb; repeat split.
Qed.

Lemma server_events_are_absorbed_witness :
  emitted (effects (handler (Recv_codeUpdate "x")) initial) = [].
Proof.
  apply (server_events_are_absorbed (Recv_codeUpdate "x") ClearTyping initial). reflexivity.
Defined.

(** *** Transient messages and their timers *)

Lemma scheduled_in (t d : Z) (cb : callback) (fx : list effect) :
  In (SetTimeout cb d) fx -> In (t + d, cb) (scheduled t fx).
Proof.
  induction fx as [|e fx IH]; simpl; [tauto|].
  intros [-> | H]; [now left|].
  destruct e; simpl; auto.
Qed.

Lemma handler_transients (x : stimulus) (s : AppState) :
  (typing (state_after (handler x) s) = typing s \/
   In (SetTimeout ClearTyping 2000) (effects (handler x) s)) /\
  (copySuccess (state_after (handler x) s) = copySuccess s \/
   In (SetTimeout ClearCopySuccess 2000) (effects (handler x) s)).
Proof.
  destruct x; cbn [handler]; try (split; left; reflexivity).
  - split_handler; split; left; reflexivity.
  - split; [left; reflexivity | right; cbn; auto].
  - split; [right; cbn; auto | left; reflexivity].
  - split_handler; split; left; reflexivity.
Qed.

Lemma in_existsb_kind (cb : callback) (due : Z) (l : list (Z * callback)) :
  In (due, cb) l ->
  existsb (match cb with ClearTyping => is_ClearTyping
                       | ClearCopySuccess => is_ClearCopySuccess end) l = true.
Proof.
  intros H. apply existsb_exists. exists (due, cb). split; [exact H|].
  now destruct cb.
Qed.

Lemma dispatch_keeps_covered (x : stimulus) (w : World) :
  transients_covered w -> transients_covered (dispatch (handler x) w).
Proof.
  intros [Ht Hc]. destruct (handler_transients x (app w)) as [Ht' Hc'].
  unfold transients_covered, timer_pending.
  rewrite dispatch_app, dispatch_pending. split; intros Hne.
  - destruct Ht' as [E | Hin].
    + rewrite E in Hne. destruct (Ht Hne) as [due Hd].
      exists due. apply in_or_app. now left.
    + exists (now w + 2000). apply in_or_app. right. now apply scheduled_in.
  - destruct Hc' as [E | Hin].
    + rewrite E in Hne. destruct (Hc Hne) as [due Hd].
      exists due. apply in_or_app. now left.
    + exists (now w + 2000). apply in_or_app. right. now apply scheduled_in.
Qed.

Lemma elapse_keeps_covered (ms : Z) (w : World) :
  transients_covered w -> transients_covered (elapse ms w).
Proof.
  intros [Ht Hc]. rewrite elapse_spec. unfold transients_covered, timer_pending. simpl.
  set (t := now w + Z.max 0 ms).
  split.
  - destruct (existsb is_ClearTyping _) eqn:E; [congruence|]. intros Hne.
    destruct (Ht Hne) as [due Hd]. exists due. apply filter_In. split; [exact Hd|].
    simpl. destruct (due <=? t) eqn:Hdue; [|reflexivity].
    assert (In (due, ClearTyping) (filter (fun p => fst p <=? t) (pending w)))
      by (apply filter_In; split; assumption).
    apply in_existsb_kind in H. simpl in H. congruence.
  - destruct (existsb is_ClearCopySuccess _) eqn:E; [congruence|]. intros Hne.
    destruct (Hc Hne) as [due Hd]. exists due. apply filter_In. split; [exact Hd|].
    simpl. destruct (due <=? t) eqn:Hdue; [|reflexivity].
    assert (In (due, ClearCopySuccess) (filter (fun p => fst p <=? t) (pending w)))
      by (apply filter_In; split; assumption).
    apply in_existsb_kind in H. simpl in H. congruence.
Qed.

Lemma run_keeps_covered (xs : list stimulus) (w : World) :
  transients_covered w -> transients_covered (run xs w).
Proof.
  revert w. induction xs as [|x xs IH]; intros w Hw; simpl; [exact Hw|].
  apply IH.
  pose proof (dispatch_keeps_covered x w Hw) as Hd.
  destruct x; try exact Hd. now apply elapse_keeps_covered.
Qed.

Lemma boot_covered : transients_covered boot.
Proof. split; intros H; now contradiction H. Qed.

Lemma filter_all {A} (f : A -> bool) (l : list A) :
  Forall (fun a => f a = true) l -> filter f l = l.
Proof. induction 1 as [|a l Ha _ IH]; simpl; [reflexivity|]. now rewrite Ha, IH. Qed.

Lemma filter_none {A} (f : A -> bool) (l : list A) :
  Forall (fun a => f a = false) l -> filter f l = [].
Proof. induction 1 as [|a l Ha _ IH]; simpl; [reflexivity|]. now rewrite Ha, IH. Qed.

(** X8.  Transient messages never stick: in any state reached from the
    start, once 2000 ms pass without a stimulus no timer is pending, the
    typing indicator is empty and so is the copy message. *)
Theorem quiet_clears_transients (xs : list stimulus) (ms : Z) :
  2000 <= ms ->
  let w := elapse ms (run xs boot) in
  pending w = [] /\ typing_indicator (app w) = "" /\ copySuccess (app w) = "".
Proof.
  intros Hms. set (w0 := run xs boot).
  destruct (pending_in_due_order xs) as [_ Hdue]. fold w0 in Hdue.
  destruct (run_keeps_covered xs boot boot_covered) as [Ht Hc]. fold w0 in Ht, Hc.
  cbv zeta. rewrite elapse_spec. unfold typing_indicator. simpl.
  set (t := now w0 + Z.max 0 ms).
  assert (Hall : Forall (fun p : Z * callback => (fst p <=? t) = true) (pending w0)).
  { eapply Forall_impl; [|exact Hdue]. intros p Hp. simpl in Hp. apply Z.leb_le. unfold t. lia. }
  rewrite (filter_all _ _ Hall).
  split; [|split].
  - apply filter_none. eapply Forall_impl; [|exact Hall].
    intros p Hp. simpl in Hp. now rewrite Hp.
  - destruct (existsb is_ClearTyping (pending w0)) eqn:E; [reflexivity|].
    destruct (string_dec (typing (app w0)) "") as [Hz | Hnz]; [exact Hz|].
    destruct (Ht Hnz) as [due Hin]. apply in_existsb_kind in Hin. simpl in Hin. congruence.
  - destruct (existsb is_ClearCopySuccess (pending w0)) eqn:E; [reflexivity|].
    destruct (string_dec (copySuccess (app w0)) "") as [Hz | Hnz]; [exact Hz|].
    destruct (Hc Hnz) as [due Hin]. apply in_existsb_kind in Hin. simpl in Hin. congruence.
Qed.

Lemma quiet_clears_transients_witness :
  typing_indicator
    (app (elapse 2000 (run [Recv_userTyping "A"; Elapse 1500; Recv_userTyping "B"] boot)))
  = "".
Proof.
  apply (quiet_clears_transients [Recv_userTyping "A"; Elapse 1500; Recv_userTyping "B"] 2000).
  lia.
Defined.

(** X9.  The timer of an earlier userTyping event is not cancelled by a
    later one: when a second event arrives d ms after the first
    (0 < d < 2000), its indicator is cleared 2000 - d ms later, by the first
    event's timer, while its own timer is still pending. *)
Theorem second_typing_cleared_early (w : World) (u1 u2 : string) (d : Z) :
  0 < d < 2000 ->
  let w1 := run [Recv_userTyping u1; Elapse d; Recv_userTyping u2] w in
  let w2 := elapse (2000 - d) w1 in
  typing_indicator (app w1) = (slice u2 0 10 ++ " is typing...")%string /\
  now w2 = now w1 + (2000 - d) /\
  typing_indicator (app w2) = "" /\
  In (now w1 + 2000, ClearTyping) (pending w2).
Proof.
  intros Hd w1 w2.
  set (wa := dispatch (on_userTyping u1) w).
  set (wb := elapse d wa).
  assert (E1 : w1 = dispatch (on_userTyping u2) wb) by reflexivity.
  assert (Hna : now wa = now w) by apply dispatch_now.
  assert (Hnb : now wb = now w + d).
  { unfold wb. rewrite elapse_spec. cbn [now]. rewrite Hna. lia. }
  assert (Hn1 : now w1 = now w + d) by (rewrite E1, dispatch_now; exact Hnb).
  assert (Hpa : In (now w + 2000, ClearTyping) (pending wa)).
  { unfold wa. rewrite dispatch_pending. apply in_or_app. right. simpl. now left. }
  assert (Hpb : In (now w + 2000, ClearTyping) (pending wb)).
  { unfold wb. rewrite elapse_spec. cbn [pending]. apply filter_In. split; [exact Hpa|].
    cbn [fst]. apply negb_true_iff, Z.leb_gt. rewrite Hna. lia. }
  assert (Hp1 : In (now w + 2000, ClearTyping) (pending w1) /\
                In (now w1 + 2000, ClearTyping) (pending w1)).
  { rewrite E1, dispatch_pending. split; apply in_or_app.
    - left. exact Hpb.
    - right. left. rewrite dispatch_now. reflexivity. }
  destruct Hp1 as [Hfirst Hsecond].
  split; [reflexivity|].
  unfold w2. rewrite elapse_spec. unfold typing_indicator.
  cbn [app now pending with_transients typing].
  split; [lia|]. split.
  - assert (Hin : In (now w + 2000, ClearTyping)
                     (filter (fun p => fst p <=? now w1 + Z.max 0 (2000 - d)) (pending w1))).
    { apply filter_In. split; [exact Hfirst|]. cbn [fst]. apply Z.leb_le. lia. }
    apply in_existsb_kind in Hin. cbv beta iota in Hin. now rewrite Hin.
  - apply filter_In. split; [exact Hsecond|]. cbn [fst].
    apply negb_true_iff, Z.leb_gt. lia.
Qed.

Lemma second_typing_cleared_early_witness :
  typing_indicator
    (app (run [Recv_userTyping "A"; Elapse 1500; Recv_userTyping "B"; Elapse 500] boot)) = "".
Proof.
  apply (second_typing_cleared_early boot "A" "B" 1500). lia.
Defined.

Lemma existsb_filter_false {A} (f g : A -> bool) (l : list A) :
  existsb f l = false -> existsb f (filter g l) = false.
Proof.
  induction l as [|a l IH]; simpl; [trivial|].
  intros H. apply orb_false_iff in H. destruct H as [Ha Hl].
  destruct (g a); simpl; [rewrite Ha|]; auto.
Qed.

(** X10.  Copy Id writes the current room id to the clipboard and shows
    "Copied!"; the message is gone once 2000 ms have passed, and, unless an
    older copy timer is pending, it stays for any shorter time, whatever
    typing timers fire meanwhile. *)
Theorem copy_feedback (w : World) :
  let w' := step w ClickCopyId in
  trace w' = (trace w ++ [ClipboardWrite (roomId (app w));
                          SetTimeout ClearCopySuccess 2000])%list /\
  copySuccess (app w') = "Copied!" /\
  (forall ms, 2000 <= ms -> copySuccess (app (elapse ms w')) = "") /\
  (forall ms, ms < 2000 -> existsb is_ClearCopySuccess (pending w) = false ->
              copySuccess (app (elapse ms w')) = "Copied!").
Proof.
  intros w'.
  assert (Hp : pending w' = (pending w ++ [(now w + 2000, ClearCopySuccess)])%list)
    by reflexivity.
  assert (Hn : now w' = now w) by reflexivity.
  split; [reflexivity|]. split; [reflexivity|]. split.
  - intros ms Hms. rewrite elapse_spec. cbn [app copySuccess with_transients].
    assert (Hin : In (now w + 2000, ClearCopySuccess)
                     (filter (fun p => fst p <=? now w' + Z.max 0 ms) (pending w'))).
    { apply filter_In. split.
      - rewrite Hp. apply in_or_app. right. now left.
      - cbn [fst]. apply Z.leb_le. rewrite Hn. lia. }
    apply in_existsb_kind in Hin. cbv beta iota in Hin. now rewrite Hin.
  - intros ms Hms Hnone. rewrite elapse_spec. cbn [app copySuccess with_transients].
    rewrite Hp, filter_app, existsb_app. cbn [filter fst].
    rewrite (existsb_filter_false _ _ _ Hnone), Hn.
    replace (now w + 2000 <=? now w + Z.max 0 ms) with false
      by (symmetry; apply Z.leb_gt; lia).
    reflexivity.
Qed.

Lemma copy_feedback_witness :
  copySuccess (app (run [Recv_userTyping "A"; Elapse 1000; ClickCopyId; Elapse 1999] boot))
    = "Copied!" /\
  copySuccess (app (run [ClickCopyId; Elapse 2000] boot)) = "".
Proof.
  split.
  - apply (proj2 (proj2 (proj2
             (copy_feedback (run [Recv_userTyping "A"; Elapse 1000] boot)))) 1999);
      [lia | reflexivity].
  - apply (proj1 (proj2 (proj2 (copy_feedback boot))) 2000). lia.
Defined.

Lemma length_append (a b : string) :
  String.length (a ++ b) = (String.length a + String.length b)%nat.
Proof. induction a as [|c a IH]; simpl; [reflexivity | now rewrite IH]. Qed.

Lemma length_string_of_list (l : list ascii) :
  String.length (string_of_list_ascii l) = List.length l.
Proof. induction l as [|c l IH]; simpl; [reflexivity | now rewrite IH]. Qed.

(** X11.  The typing indicator is never longer than 23 characters: it has
    the length of the name, capped at 10, plus the 13 of the suffix. *)
Theorem typing_indicator_length (s : AppState) (user : string) :
  String.length (typing_indicator (state_after (on_userTyping user) s)) =
    (Nat.min 10 (String.length user) + 13)%nat /\
  (String.length (typing_indicator (state_after (on_userTyping user) s)) <= 23)%nat.
Proof.
  assert (E : typing_indicator (state_after (on_userTyping user) s) =
              (slice user 0 10 ++ " is typing...")%string) by reflexivity.
  rewrite E, slice_prefix, length_append, length_string_of_list by lia.
  change (Z.to_nat 10) with 10%nat.
  rewrite length_firstn, length_list_ascii. simpl String.length. lia.
Qed.

(** *** The codeResponse handler on any payload *)

(** X12.  The codeResponse handler throws exactly when the payload is not
    an object or has no [run] property other than [undefined] and [null].
    When it throws, nothing has changed: the output shown stays and nothing
    is emitted.  When it returns, the output shown is whatever [run.output]
    is. *)
Theorem codeResponse_throws_iff (s : AppState) (response : value) :
  (has_run response = true ->
     outcome (on_codeResponse response) s = inr tt /\
     exists r, get response "run" = inr r /\
               get r "output" = inr (output_console (state_after (on_codeResponse response) s))) /\
  (has_run response = false ->
     exists e, on_codeResponse response s = (inl e, s, [])).
Proof.
  unfold has_run, outcome, state_after, output_console, on_codeResponse, bind, lift.
  split; intros H.
  - destruct response as [| | | | | |fields]; try discriminate H.
    simpl. destruct (lookup "run" fields) as [r|]; [|discriminate H].
    destruct r as [| | | | | |rfields]; try discriminate H;
      try (split; [reflexivity | eexists; split; reflexivity]).
    simpl. destruct (lookup "output" rfields) as [o|] eqn:Ho; simpl;
      (split; [reflexivity | eexists; split; [reflexivity | simpl; now rewrite Ho]]).
  - destruct response as [| | | | | |fields]; simpl; try (eexists; reflexivity).
    simpl in H. destruct (lookup "run" fields) as [r|]; simpl; [|eexists; reflexivity].
    destruct r; try discriminate H; simpl; eexists; reflexivity.
Qed.

Lemma codeResponse_throws_iff_witness :
  (exists e, on_codeResponse (VObject [("message", VString "Bad request")]) initial
             = (inl e, initial, [])) /\
  outcome (on_codeResponse (VObject [("run", VObject [("output", VString "1")])])) initial
    = inr tt.
Proof.
  split.
  - apply (proj2 (codeResponse_throws_iff initial (VObject [("message", VString "Bad request")]))).
    reflexivity.
  - apply (proj1 (codeResponse_throws_iff initial
                    (VObject [("run", VObject [("output", VString "1")])]))).
    reflexivity.
Defined.

(** X13.  A payload whose [run] object has no [output] property does not
    throw: the output shown becomes [undefined], whatever it was. *)
Theorem codeResponse_without_output
  (s : AppState) (fields rfields : list (string * value)) :
  lookup "run" fields = Some (VObject rfields) ->
  lookup "output" rfields = None ->
  outcome (on_codeResponse (VObject fields)) s = inr tt /\
  output_console (state_after (on_codeResponse (VObject fields)) s) = VUndefined.
Proof.
  intros Hr Ho.
  unfold outcome, state_after, output_console, on_codeResponse, bind, lift.
  simpl. rewrite Hr. simpl. rewrite Ho. split; reflexivity.
Qed.

Lemma codeResponse_without_output_witness :
  output_console
    (state_after (on_codeResponse (VObject [("run", VObject [("stderr", VString "x")])]))
                 (state_after (on_codeResponse
                                 (VObject [("run", VObject [("output", VString "old")])]))
                              initial))
  = VUndefined.
Proof.
  apply (codeResponse_without_output _ [("run", VObject [("stderr", VString "x")])]
                                     [("stderr", VString "x")]); reflexivity.
Defined.

(** *** Creating a room *)

Lemma room_number_bounds (r : float64) :
  is_double r = true -> r < one ->
  100000 <= floor (add (of_Z 100000) (mul r (of_Z 900000))) <= 999999.
Proof.
  intros Hd Hlt. destruct (double_below_one r Hd Hlt) as [H0 Hmax]. split.
  - rewrite <- room_number_least. apply room_number_mono; lia.
  - rewrite <- room_number_greatest. now apply room_number_mono.
Qed.

Lemma six_digits_nonempty (str : string) (n : Z) : six_digits str n -> str <> "".
Proof.
  intros (d5 & d4 & d3 & d2 & d1 & d0 & _ & _ & _ & _ & _ & _ & _ & ->). discriminate.
Qed.

Lemma JoinRoom_accepts (s : AppState) :
  roomId s <> "" -> userName s <> "" ->
  JoinRoom s =
    (inr tt, state_after (setJoined true) s,
     [Emit "join" [VObject [("roomId", VString (roomId s));
                            ("userName", VString (userName s))]]]).
Proof.
  intros Hr Hu. unfold JoinRoom, bind, read.
  now rewrite (truthy_and_true _ _ Hr Hu).
Qed.

(** Joining right after the room id has been set to [rid]. *)
Lemma set_room_then_join (w : World) (rid : string) :
  rid <> "" -> userName (app w) <> "" ->
  let w' := dispatch JoinRoom (dispatch (setRoomId rid) w) in
  roomId (app w') = rid /\
  rendered (app w') = Editor /\
  trace w' = (trace w ++
              [Emit "join" [VObject [("roomId", VString rid);
                                     ("userName", VString (userName (app w)))]]])%list.
Proof.
  intros Hr Hu w'. unfold w'.
  rewrite dispatch_app, dispatch_trace, dispatch_app, dispatch_trace.
  set (s1 := state_after (setRoomId rid) (app w)).
  assert (HJ : JoinRoom s1 =
               (inr tt, state_after (setJoined true) s1,
                [Emit "join" [VObject [("roomId", VString (roomId s1));
                                       ("userName", VString (userName s1))]]]))
    by (apply JoinRoom_accepts; [exact Hr | exact Hu]).
  unfold state_after at 1 2. unfold effects. rewrite HJ. cbn [fst snd].
  repeat split. cbn. now rewrite app_nil_r.
Qed.

(** X14.  Create Room followed by Join Room, with a name typed, joins a
    room whose id is a six-digit number: the join event carries that id and
    the name, and the editor is shown. *)
Theorem create_then_join (w : World) (draw : float64) :
  offered (app w) (ClickCreateRoom draw) = true ->
  userName (app w) <> "" ->
  let w' := run [ClickCreateRoom draw; ClickJoinRoom] w in
  exists n, 100000 <= n <= 999999 /\
            six_digits (roomId (app w')) n /\
            rendered (app w') = Editor /\
            trace w' = (trace w ++
                        [Emit "join" [VObject [("roomId", VString (roomId (app w')));
                                               ("userName", VString (userName (app w)))]]])%list.
Proof.
  intros Hx Hu. cbn [offered] in Hx.
  apply andb_true_iff in Hx. destruct Hx as [Hx Hlt].
  apply andb_true_iff in Hx. destruct Hx as [_ Hd].
  apply Z.ltb_lt in Hlt.
  pose proof (room_number_bounds draw Hd Hlt) as Hn.
  pose proof (toString_six_digits _ Hn) as H6.
  pose proof (six_digits_nonempty _ _ H6) as Hne.
  exists (floor (add (of_Z 100000) (mul draw (of_Z 900000)))).
  split; [exact Hn|].
  destruct (set_room_then_join w _ Hne Hu) as (Er & Es & Et).
  cbv zeta.
  change (run [ClickCreateRoom draw; ClickJoinRoom] w)
    with (dispatch JoinRoom
            (dispatch (setRoomId (toString (floor (add (of_Z 100000)
                                                       (mul draw (of_Z 900000)))))) w)).
  rewrite Er. split; [exact H6|]. split; [exact Es | exact Et].
Qed.

Lemma create_then_join_witness :
  let w := run [ChangeUserName "A"] boot in
  let draw := Z.shiftl 1 1073 in
  exists n, 100000 <= n <= 999999 /\
    six_digits (roomId (app (run [ClickCreateRoom draw; ClickJoinRoom] w))) n.
Proof.
  intros w draw.
  assert (Hx : offered (app w) (ClickCreateRoom draw) = true) by (vm_compute; reflexivity).
  assert (Hu : userName (app w) <> "") by discriminate.
  destruct (create_then_join w draw Hx Hu) as (n & Hn & H6 & _).
  exists n. split; assumption.
Defined.

(** X15.  A larger draw never gives a smaller room number. *)
Theorem room_number_grows_with_draw (r1 r2 : float64) :
  0 <= r1 -> r1 <= r2 ->
  floor (add (of_Z 100000) (mul r1 (of_Z 900000))) <=
  floor (add (of_Z 100000) (mul r2 (of_Z 900000))).
Proof. apply room_number_mono. Qed.

Lemma room_number_grows_with_draw_witness :
  floor (add (of_Z 100000) (mul (Z.shiftl 1 1072) (of_Z 900000))) <=
  floor (add (of_Z 100000) (mul (Z.shiftl 1 1073) (of_Z 900000))).
Proof.
  apply (room_number_grows_with_draw (Z.shiftl 1 1072) (Z.shiftl 1 1073)).
  - vm_compute. discriminate.
  - vm_compute. discriminate.
Defined.

(** *** Timers are never overdue *)

Lemma scheduled_later (t : Z) (fx : list effect) :
  Forall delay_2000 fx -> Forall (fun p => t < fst p) (scheduled t fx).
Proof.
  intros H. apply (scheduled_due t) in H.
  eapply Forall_impl; [|exact H]. simpl. intros p Hp. lia.
Qed.

Lemma step_not_overdue (w : World) (x : stimulus) :
  not_overdue w -> not_overdue (step w x).
Proof.
  unfold not_overdue. intros Hw.
  assert (Hd : Forall (fun p => now (dispatch (handler x) w) < fst p)
                      (pending (dispatch (handler x) w))).
  { rewrite dispatch_now, dispatch_pending. apply Forall_app. split; [exact Hw|].
    apply scheduled_later, handler_delays. }
  destruct x; try exact Hd.
  simpl step. rewrite elapse_spec. cbn [now pending].
  apply Forall_forall. intros p Hp. apply filter_In in Hp. destruct Hp as [_ Hp].
  apply negb_true_iff, Z.leb_gt in Hp. exact Hp.
Qed.

Lemma run_not_overdue (xs : list stimulus) (w : World) :
  not_overdue w -> not_overdue (run xs w).
Proof.
  revert w. induction xs as [|x xs IH]; intros w Hw; simpl; [exact Hw|].
  apply IH. now apply step_not_overdue.
Qed.

(** X16.  Every timer the client sets has a delay of 2000 ms, so in every
    state reached from the start the pending timers are listed in the order
    in which they are due, none is overdue and none is due more than
    2000 ms ahead. *)
Theorem timers_due_within_window (xs : list stimulus) :
  let w := run xs boot in
  Sorted Z.le (map fst (pending w)) /\
  Forall (fun p => now w < fst p <= now w + 2000) (pending w).
Proof.
  intros w. destruct (pending_in_due_order xs) as [Hs Hu]. fold w in Hs, Hu.
  split; [exact Hs|].
  assert (Hl : not_overdue w) by (apply run_not_overdue; constructor).
  unfold not_overdue in Hl. rewrite Forall_forall in *.
  intros p Hp. split; [apply (Hl p Hp) | apply (Hu p Hp)].
Qed.

(** *** Leaving *)


(** *** The language selector *)

Lemma forallb_language_app (a b : list (string * list value)) :
  forallb language_ok (a ++ b) = forallb language_ok a && forallb language_ok b.
Proof. apply forallb_app. Qed.

(** X18.  On every run the page can produce, every languageChange event
    sent names one of the four languages of the selector. *)
Theorem language_sent_is_an_option (xs : list stimulus) :
  possible xs boot ->
  forallb language_ok (emitted (trace (run xs boot))) = true.
Proof.
  intros H.
  apply (run_keeps (fun s x => offered s x = true)
                   (fun _ tr => forallb language_ok (emitted tr) = true)).
  - intros s tr x Hx Hp. rewrite emitted_app, forallb_language_app, Hp.
    destruct x; cbn [handler]; try reflexivity.
    + split_handler; reflexivity.
    + cbn [offered] in Hx. apply andb_true_iff in Hx. destruct Hx as [_ Hv].
      cbn. unfold language_ok. cbn. unfold language_options in *. cbn in Hv.
      now rewrite Hv.
    + split_handler; reflexivity.
  - intros s tr t c Hp. exact Hp.
  - exact H.
  - reflexivity.
Qed.

Lemma language_sent_is_an_option_witness :
  forallb language_ok
    (emitted (trace (run [ChangeRoomId "123"; ChangeUserName "A"; ClickJoinRoom;
                          SelectLanguage "java"] boot))) = true.
Proof.
  apply (language_sent_is_an_option
           [ChangeRoomId "123"; ChangeUserName "A"; ClickJoinRoom; SelectLanguage "java"]).
  cbn. repeat split.
Defined.

(** The language of a compileCode request is not so bound: the server's
    languageUpdate stores any string. *)
Lemma compile_language_is_unchecked :
  In ("compileCode",
      [VObject [("code", VString "// start coding here..."); ("roomId", VString "123");
                ("language", VString "cobol"); ("version", VString "*");
                ("stdin", VString "")]])
     (emitted (trace (run [ChangeRoomId "123"; ChangeUserName "A"; ClickJoinRoom;
                           Recv_languageUpdate "cobol"; ClickExecute] boot))).
Proof. cbn. auto. Qed.

(** *** Last writer wins *)

Lemma step_document (w : World) (x : stimulus) :
  code (app (step w x)) = code_after (code (app w)) x /\
  language (app (step w x)) = language_after (language (app w)) x /\
  users (app (step w x)) = users_after (users (app w)) x.
Proof.
  destruct x; try (simpl step; rewrite dispatch_app); cbn [handler];
    try (repeat split; fail).
  - split_handler; repeat split.
  - split_handler; repeat split.
  - simpl step. destruct (elapse_app ms w) as (t & c & ->). repeat split.
Qed.

(** X19.  The editor text and the selected language are last-writer-wins
    between the user and the server: after any run the text is that of the
    last local edit or codeUpdate received (or the reset text of the last
    Leave Room, if later), and likewise the language; and the code and the
    language of a compileCode request sent then are these. *)
Theorem document_is_last_writer_wins (xs : list stimulus) (w : World) :
  let w' := run xs w in
  code (app w') = fold_left code_after xs (code (app w)) /\
  language (app w') = fold_left language_after xs (language (app w)) /\
  emitted (effects runCode (app w')) =
    [("compileCode",
      [VObject [("code", VString (fold_left code_after xs (code (app w))));
                ("roomId", VString (roomId (app w')));
                ("language", VString (fold_left language_after xs (language (app w))));
                ("version", VString (version (app w')));
                ("stdin", VString (input (app w')))]])].
Proof.
  assert (G : forall ys w0,
            code (app (run ys w0)) = fold_left code_after ys (code (app w0)) /\
            language (app (run ys w0)) = fold_left language_after ys (language (app w0))).
  { induction ys as [|y ys IH]; intros w0; simpl; [split; reflexivity|].
    destruct (step_document w0 y) as (Ec & El & _).
    destruct (IH (step w0 y)) as [Hc Hl]. rewrite Hc, Hl, Ec, El. split; reflexivity. }
  intros w'. destruct (G xs w) as [Hc Hl]. fold w' in Hc, Hl.
  split; [exact Hc|]. split; [exact Hl|].
  rewrite <- Hc, <- Hl. reflexivity.
Qed.

(** X20.  The user list shown is the last list received from the server
    and nothing else changes it: leaving the room, or joining another,
    keeps the list of the room that was left until the next userJoined. *)
Theorem users_is_last_snapshot (xs : list stimulus) (w : World) :
  user_list (app (run xs w)) = fold_left users_after xs (users (app w)).
Proof.
  unfold user_list. rewrite map_id.
  revert w. induction xs as [|x xs IH]; intros w; simpl; [reflexivity|].
  rewrite IH. now destruct (step_document w x) as (_ & _ & ->).
Qed.

Lemma stale_users_after_leaving :
  user_list
    (app (run [ChangeRoomId "1"; ChangeUserName "A"; ClickJoinRoom;
               Recv_userJoined ["A"; "B"]; ClickLeaveRoom;
               ChangeRoomId "2"; ChangeUserName "A"; ClickJoinRoom] boot))
  = ["A"; "B"].
Proof. reflexivity. Qed.

(** * Properties of the server *)

Module ServerFacts.
#[local] Set Warnings "-notation-overridden".
Import Server.

#[local] Arguments truthy : simpl never.
#[local] Arguments set_add : simpl never.
#[local] Arguments set_delete : simpl never.
#[local] Arguments subscribers : simpl never.
#[local] Arguments array_from : simpl never.

(** *** Maps and sets *)

Lemma map_get_set_same {V} (k : string) (v : V) (m : Map V) :
  map_get k (map_set k v m) = Some v.
Proof.
  induction m as [|[k' v'] m IH]; simpl.
  - now rewrite String.eqb_refl.
  - destruct (String.eqb k k') eqn:E; simpl; [now rewrite String.eqb_refl|].
    now rewrite E.
Qed.

Lemma map_get_set_other {V} (k k' : string) (v : V) (m : Map V) :
  k' <> k -> map_get k' (map_set k v m) = map_get k' m.
Proof.
  intros Hne. induction m as [|[k0 v0] m IH]; simpl.
  - destruct (String.eqb_spec k' k); [contradiction | reflexivity].
  - destruct (String.eqb_spec k k0) as [-> | Hk]; simpl.
    + destruct (String.eqb_spec k' k0); [contradiction | reflexivity].
    + destruct (String.eqb k' k0); [reflexivity | exact IH].
Qed.

Lemma map_has_set {V} (k k' : string) (v : V) (m : Map V) :
  map_has k' m = true -> map_has k' (map_set k v m) = true.
Proof.
  unfold map_has. destruct (String.eqb_spec k' k) as [-> | Hne].
  - now rewrite map_get_set_same.
  - now rewrite map_get_set_other.
Qed.

Lemma map_has_set_same {V} (k : string) (v : V) (m : Map V) :
  map_has k (map_set k v m) = true.
Proof. unfold map_has. now rewrite map_get_set_same. Qed.

Lemma set_has_In (x : string) (s : list string) : set_has x s = true <-> In x s.
Proof.
  unfold set_has. rewrite existsb_exists. split.
  - intros (y & Hy & E). apply String.eqb_eq in E. now subst.
  - intros H. exists x. split; [exact H | apply String.eqb_refl].
Qed.

Lemma set_delete_In (x y : string) (s : list string) :
  In y (set_delete x s) <-> In y s /\ y <> x.
Proof.
  unfold set_delete. rewrite filter_In. split; intros [H1 H2]; split; try exact H1.
  - apply negb_true_iff in H2. now apply String.eqb_neq.
  - apply negb_true_iff. now apply String.eqb_neq.
Qed.

Lemma set_add_In (x y : string) (s : list string) :
  In y (set_add x s) <-> In y s \/ y = x.
Proof.
  unfold set_add. destruct (set_has x s) eqn:E.
  - apply set_has_In in E. split; [tauto|]. intros [H | ->]; assumption.
  - rewrite in_app_iff. simpl. intuition congruence.
Qed.

Lemma set_add_NoDup (x : string) (s : list string) : NoDup s -> NoDup (set_add x s).
Proof.
  intros H. unfold set_add. destruct (set_has x s) eqn:E; [exact H|].
  apply NoDup_app; [exact H | repeat constructor; simpl; tauto |].
  intros y Hy [<- | []].
  apply set_has_In in Hy. congruence.
Qed.

Lemma set_delete_NoDup (x : string) (s : list string) : NoDup s -> NoDup (set_delete x s).
Proof. apply NoDup_filter. Qed.

(** *** The primitives of a listener *)

Lemma bind_ok {A B} (m : H A) (f : A -> H B) (st st1 : State) (a : A) (fx1 : list effect) :
  m st = (inr a, st1, fx1) ->
  bind m f st = (fst (fst (f a st1)), snd (fst (f a st1)), (fx1 ++ snd (f a st1))%list).
Proof. intros E. unfold bind. rewrite E. now destruct (f a st1) as [[r st2] fx2]. Qed.

Lemma rooms_get_ok (roomId : string) (names : list string) (st : State) :
  map_get roomId (rooms st) = Some names ->
  rooms_get roomId st = (inr names, st, []).
Proof. intros E. unfold rooms_get, bind, read. now rewrite E. Qed.

Lemma members_delete_ok (roomId : string) (user : option string) (names : list string)
      (st : State) :
  map_get roomId (rooms st) = Some names ->
  members_delete roomId user st =
    (inr tt,
     {| rooms := match user with
                 | Some u => map_set roomId (set_delete u names) (rooms st)
                 | None => rooms st
                 end;
        roomData := roomData st; subs := subs st; conns := conns st |},
     []).
Proof.
  intros E. unfold members_delete.
  rewrite (bind_ok _ _ _ _ _ _ (rooms_get_ok _ _ _ E)). simpl.
  destruct user; simpl; [reflexivity | now destruct st].
Qed.

Lemma members_add_ok (roomId userName : string) (names : list string) (st : State) :
  map_get roomId (rooms st) = Some names ->
  members_add roomId userName st =
    (inr tt,
     {| rooms := map_set roomId (set_add userName names) (rooms st);
        roomData := roomData st; subs := subs st; conns := conns st |},
     []).
Proof.
  intros E. unfold members_add.
  rewrite (bind_ok _ _ _ _ _ _ (rooms_get_ok _ _ _ E)). reflexivity.
Qed.

Lemma broadcast_members_ok (sid roomId : string) (names : list string) (st : State) :
  map_get roomId (rooms st) = Some names ->
  broadcast_members sid roomId st =
    (inr tt, st, [Send (ToRoom roomId) (subscribers roomId st) "userJoined" [array_from names]]).
Proof.
  intros E. unfold broadcast_members.
  rewrite (bind_ok _ _ _ _ _ _ (rooms_get_ok _ _ _ E)). reflexivity.
Qed.

Lemma map_has_get {V} (k : string) (m : Map V) :
  map_has k m = true -> exists v, map_get k m = Some v.
Proof. unfold map_has. destruct (map_get k m); [eauto | discriminate]. Qed.

(** *** Leaving and disconnecting *)

Ltac unfold_H :=
  cbv beta iota zeta delta
      [bind read modify ret throw emit console_log set_conn set_rooms
       set_roomData socket_join socket_leave leave_all members_delete
       members_add broadcast_members rooms_get];
  cbn.

Lemma leaveRoom_bound (sid room user : string) (names : list string) (st : State) :
  conn_of sid st = {| currentRoom := Some room; currentUser := Some user |} ->
  truthy room = true -> truthy user = true ->
  map_get room (rooms st) = Some names ->
  leaveRoom sid st =
    (inr tt,
     {| rooms := map_set room (set_delete user names) (rooms st);
        roomData := roomData st;
        subs := filter (fun p => negb (String.eqb (fst p) sid && String.eqb (snd p) room))
                       (subs st);
        conns := map_set sid {| currentRoom := None; currentUser := None |} (conns st) |},
     [Send (ToRoom room) (subscribers room st) "userJoined"
           [array_from (set_delete user names)];
      Log [VString "A user disconnected"]]).
Proof.
  intros Hc Hr Hu Hm. unfold leaveRoom. unfold_H. rewrite Hc. unfold_H.
  rewrite Hr, Hu. cbn [andb]. unfold_H. rewrite Hm. unfold_H.
  rewrite map_get_set_same. reflexivity.
Qed.

Lemma leaveRoom_unbound (sid : string) (st : State) :
  (match currentRoom (conn_of sid st), currentUser (conn_of sid st) with
   | Some room, Some user => truthy room && truthy user
   | _, _ => false
   end) = false ->
  leaveRoom sid st = (inr tt, st, [Log [VString "A user disconnected"]]).
Proof.
  intros H. unfold leaveRoom. unfold_H.
  destruct (conn_of sid st) as [[room|] [user|]]; cbn in *; try reflexivity.
  rewrite H. reflexivity.
Qed.

Lemma disconnect_bound (sid room user : string) (names : list string) (st : State) :
  conn_of sid st = {| currentRoom := Some room; currentUser := Some user |} ->
  truthy room = true -> truthy user = true ->
  map_get room (rooms st) = Some names ->
  disconnect sid st =
    (inr tt,
     {| rooms := map_set room (set_delete user names) (rooms st);
        roomData := roomData st;
        subs := filter (fun p => negb (String.eqb (fst p) sid)) (subs st);
        conns := conns st |},
     [Send (ToRoom room)
           (subscribers room (state_after (leave_all sid) st))
           "userJoined" [array_from (set_delete user names)];
      Log [VString "A user disconnected"]]).
Proof.
  intros Hc Hr Hu Hm. unfold disconnect. unfold_H.
  unfold conn_of in *. cbn [conns]. rewrite Hc. unfold_H.
  rewrite Hr, Hu. cbn [andb]. unfold_H. rewrite Hm. unfold_H.
  rewrite map_get_set_same. reflexivity.
Qed.

Lemma disconnect_unbound (sid : string) (st : State) :
  (match currentRoom (conn_of sid st), currentUser (conn_of sid st) with
   | Some room, Some user => truthy room && truthy user
   | _, _ => false
   end) = false ->
  disconnect sid st =
    (inr tt, state_after (leave_all sid) st, [Log [VString "A user disconnected"]]).
Proof.
  intros H. unfold disconnect. unfold_H. unfold conn_of in *. cbn [conns].
  destruct (match map_get sid (conns st) with Some c => c | None => _ end)
    as [[room|] [user|]]; cbn in *; try reflexivity.
  rewrite H. reflexivity.
Qed.

(** *** Joining *)

Lemma H_bind_assoc {A B C} (m : H A) (f : A -> H B) (g : B -> H C) (st : State) :
  bind (bind m f) g st = bind m (fun a => bind (f a) g) st.
Proof.
  unfold bind. destruct (m st) as [[[e | a] s1] fx1]; [reflexivity|].
  destruct (f a s1) as [[[e | b] s2] fx2]; [reflexivity|].
  destruct (g b s2) as [[r s3] fx3]. now rewrite app_assoc.
Qed.

Lemma join_split (sid roomId userName : string) (st : State) :
  join sid roomId userName st = bind (leave_previous sid) (fun _ => enter sid roomId userName) st.
Proof.
  unfold leave_previous. rewrite H_bind_assoc. reflexivity.
Qed.

Lemma enter_ok (sid roomId userName : string) (st : State) :
  enter sid roomId userName st =
    (inr tt, entered sid roomId userName st,
     (Send (ToRoom roomId) (subscribers roomId (entered sid roomId userName st))
           "userJoined" [array_from (entered_names roomId userName st)]
      :: document_for sid roomId st)%list).
Proof.
  unfold enter, entered, entered_names, document_for. unfold_H.
  unfold map_has. destruct (map_get roomId (rooms st)) as [names|] eqn:Hm; unfold_H.
  - rewrite Hm. unfold_H. rewrite map_get_set_same. unfold_H.
    destruct (map_get roomId (roomData st)) as [[[code|] [language|]]|]; unfold_H;
      repeat match goal with |- context [truthy ?x] => destruct (truthy x) end;
      reflexivity.
  - rewrite map_get_set_same. unfold_H. rewrite map_get_set_same. unfold_H.
    destruct (map_get roomId (roomData st)) as [[[code|] [language|]]|]; unfold_H;
      repeat match goal with |- context [truthy ?x] => destruct (truthy x) end;
      reflexivity.
Qed.

Lemma leave_previous_bound (sid room : string) (names : list string) (st : State) :
  currentRoom (conn_of sid st) = Some room ->
  truthy room = true ->
  map_get room (rooms st) = Some names ->
  let names' := match currentUser (conn_of sid st) with
                | Some u => set_delete u names
                | None => names
                end in
  let st1 := {| rooms := match currentUser (conn_of sid st) with
                         | Some u => map_set room (set_delete u names) (rooms st)
                         | None => rooms st
                         end;
                roomData := roomData st;
                subs := filter (fun p => negb (String.eqb (fst p) sid && String.eqb (snd p) room))
                               (subs st);
                conns := conns st |} in
  leave_previous sid st =
    (inr tt, st1, [Send (ToRoom room) (subscribers room st1) "userJoined" [array_from names']]).
Proof.
  intros Hc Hr Hm. unfold leave_previous. unfold_H. rewrite Hc, Hr. unfold_H.
  rewrite Hm. unfold_H.
  destruct (currentUser (conn_of sid st)) as [u|]; unfold_H.
  - rewrite map_get_set_same. reflexivity.
  - rewrite Hm. reflexivity.
Qed.

Lemma leave_previous_unbound (sid : string) (st : State) :
  match currentRoom (conn_of sid st) with
  | Some room => truthy room = false
  | None => True
  end ->
  leave_previous sid st = (inr tt, st, []).
Proof.
  intros H. unfold leave_previous. unfold_H.
  destruct (currentRoom (conn_of sid st)) as [room|]; [|reflexivity].
  rewrite H. reflexivity.
Qed.

(** *** The invariants of the server state *)

Lemma conn_room_exists (sid room : string) (st : State) :
  bound_rooms_exist st ->
  currentRoom (conn_of sid st) = Some room ->
  exists names, map_get room (rooms st) = Some names.
Proof.
  intros Hb Hc. apply map_has_get. unfold conn_of in Hc.
  destruct (map_get sid (conns st)) as [c|] eqn:E; [|discriminate Hc].
  now apply (Hb sid c room).
Qed.

Lemma invariant_rooms_set (room : string) (names : list string) (st : State)
      (rd : Map RoomInfo) (sb : list (string * string)) :
  invariant st -> NoDup names ->
  invariant {| rooms := map_set room names (rooms st); roomData := rd; subs := sb;
               conns := conns st |}.
Proof.
  intros [Hb Hn] Hnd. split.
  - intros sid c r Hc Hr. cbn in *. apply map_has_set. now apply (Hb sid c r).
  - intros r ns. cbn. destruct (String.eqb_spec r room) as [-> | Hne].
    + rewrite map_get_set_same. now intros [= <-].
    + rewrite map_get_set_other by exact Hne. apply Hn.
Qed.

Lemma invariant_same_rooms (st : State) (rd : Map RoomInfo) (sb : list (string * string)) :
  invariant st ->
  invariant {| rooms := rooms st; roomData := rd; subs := sb; conns := conns st |}.
Proof. intros H. exact H. Qed.

Lemma invariant_conn_set (sid : string) (c : Conn) (st : State) :
  invariant st ->
  match currentRoom c with
  | Some room => map_has room (rooms st) = true
  | None => True
  end ->
  invariant {| rooms := rooms st; roomData := roomData st; subs := subs st;
               conns := map_set sid c (conns st) |}.
Proof.
  intros [Hb Hn] Hc. split; [|exact Hn].
  intros sid' c' r. cbn. destruct (String.eqb_spec sid' sid) as [-> | Hne].
  - rewrite map_get_set_same. intros [= <-] Hr. now rewrite Hr in Hc.
  - rewrite map_get_set_other by exact Hne. apply Hb.
Qed.

Lemma invariant_start : invariant start.
Proof. split; [intros sid c r H | intros r ns H]; discriminate H. Qed.

Lemma names_of_room_unique (room : string) (names : list string) (st : State) :
  invariant st -> map_get room (rooms st) = Some names -> NoDup names.
Proof. intros [_ Hn]. apply Hn. Qed.

Lemma entered_invariant (sid roomId userName : string) (st : State) :
  invariant st -> invariant (entered sid roomId userName st).
Proof.
  intros Hi.
  assert (Hnd : NoDup (entered_names roomId userName st)).
  { unfold entered_names. apply set_add_NoDup.
    destruct (map_get roomId (rooms st)) as [names|] eqn:E; [|constructor].
    now apply (names_of_room_unique roomId names st). }
  set (R1 := if negb (map_has roomId (rooms st)) then map_set roomId [] (rooms st)
             else rooms st).
  assert (H1 : invariant {| rooms := R1; roomData := roomData st; subs := subs st;
                            conns := conns st |}).
  { unfold R1. destruct (negb (map_has roomId (rooms st))).
    - apply invariant_rooms_set; [exact Hi | constructor].
    - exact Hi. }
  pose proof (invariant_rooms_set roomId (entered_names roomId userName st) _
                (roomData st)
                (if existsb (fun p => String.eqb (fst p) sid && String.eqb (snd p) roomId)
                            (subs st)
                 then subs st else (subs st ++ [(sid, roomId)])%list)
                H1 Hnd) as H2.
  apply (invariant_conn_set sid {| currentRoom := Some roomId; currentUser := Some userName |})
    in H2; [exact H2|].
  cbn. apply map_has_set_same.
Qed.

Lemma leave_previous_safe (sid : string) (st : State) :
  invariant st ->
  exists st1 fx1, leave_previous sid st = (inr tt, st1, fx1) /\ invariant st1.
Proof.
  intros Hi.
  destruct (currentRoom (conn_of sid st)) as [room|] eqn:Hc.
  - destruct (truthy room) eqn:Hr.
    + destruct (conn_room_exists sid room st (proj1 Hi) Hc) as [names Hm].
      eexists. eexists. split; [apply (leave_previous_bound sid room names st Hc Hr Hm)|].
      destruct (currentUser (conn_of sid st)) as [u|].
      * apply invariant_rooms_set; [exact Hi|].
        apply set_delete_NoDup. now apply (names_of_room_unique room names st).
      * exact Hi.
    + exists st, []. split; [|exact Hi]. apply leave_previous_unbound. now rewrite Hc.
  - exists st, []. split; [|exact Hi]. apply leave_previous_unbound. now rewrite Hc.
Qed.

Lemma join_safe (sid roomId userName : string) (st : State) :
  invariant st ->
  outcome (join sid roomId userName) st = inr tt /\
  invariant (state_after (join sid roomId userName) st).
Proof.
  intros Hi. destruct (leave_previous_safe sid st Hi) as (st1 & fx1 & E1 & Hi1).
  unfold outcome, state_after. rewrite join_split, (bind_ok _ _ _ _ _ _ E1), enter_ok.
  cbn [fst snd]. split; [reflexivity|]. now apply entered_invariant.
Qed.

Lemma bound_or_not (sid : string) (st : State) :
  (exists room user, conn_of sid st = {| currentRoom := Some room; currentUser := Some user |}
                     /\ truthy room = true /\ truthy user = true) \/
  (match currentRoom (conn_of sid st), currentUser (conn_of sid st) with
   | Some room, Some user => truthy room && truthy user
   | _, _ => false
   end) = false.
Proof.
  destruct (conn_of sid st) as [[room|] [user|]]; cbn; try (right; reflexivity).
  destruct (truthy room) eqn:Hr, (truthy user) eqn:Hu; try (right; reflexivity).
  left. exists room, user. repeat split; assumption.
Qed.

Lemma leaveRoom_safe (sid : string) (st : State) :
  invariant st ->
  outcome (leaveRoom sid) st = inr tt /\ invariant (state_after (leaveRoom sid) st).
Proof.
  intros Hi. unfold outcome, state_after.
  destruct (bound_or_not sid st) as [(room & user & Hc & Hr & Hu) | Hn].
  - destruct (conn_room_exists sid room st (proj1 Hi)) as [names Hm]; [now rewrite Hc|].
    rewrite (leaveRoom_bound sid room user names st Hc Hr Hu Hm). cbn [fst snd].
    split; [reflexivity|].
    pose proof (invariant_rooms_set room (set_delete user names) st (roomData st)
                  (filter (fun p => negb (String.eqb (fst p) sid && String.eqb (snd p) room))
                          (subs st))
                  Hi (set_delete_NoDup _ _ (names_of_room_unique room names st Hi Hm))) as H1.
    apply (invariant_conn_set sid {| currentRoom := None; currentUser := None |}) in H1;
      [exact H1 | exact I].
  - rewrite (leaveRoom_unbound sid st Hn). split; [reflexivity | exact Hi].
Qed.

Lemma disconnect_safe (sid : string) (st : State) :
  invariant st ->
  outcome (disconnect sid) st = inr tt /\ invariant (state_after (disconnect sid) st).
Proof.
  intros Hi. unfold outcome, state_after.
  destruct (bound_or_not sid st) as [(room & user & Hc & Hr & Hu) | Hn].
  - destruct (conn_room_exists sid room st (proj1 Hi)) as [names Hm]; [now rewrite Hc|].
    rewrite (disconnect_bound sid room user names st Hc Hr Hu Hm). cbn [fst snd].
    split; [reflexivity|].
    apply invariant_rooms_set; [exact Hi|].
    apply set_delete_NoDup. now apply (names_of_room_unique room names st).
  - rewrite (disconnect_unbound sid st Hn). split; [reflexivity | exact Hi].
Qed.

Lemma document_safe (sid roomId text : string) (st : State) :
  invariant st ->
  (outcome (codeChange sid roomId text) st = inr tt /\
   invariant (state_after (codeChange sid roomId text) st)) /\
  (outcome (languageChange sid roomId text) st = inr tt /\
   invariant (state_after (languageChange sid roomId text) st)).
Proof.
  intros Hi. split.
  - unfold outcome, state_after, codeChange, map_has. unfold_H.
    destruct (map_get roomId (roomData st)) as [info|] eqn:E; unfold_H.
    + rewrite E. cbn. split; [reflexivity | exact Hi].
    + rewrite map_get_set_same. cbn. split; [reflexivity | exact Hi].
  - unfold outcome, state_after, languageChange, map_has. unfold_H.
    destruct (map_get roomId (roomData st)) as [info|] eqn:E; unfold_H.
    + rewrite E. cbn. split; [reflexivity | exact Hi].
    + rewrite map_get_set_same. cbn. split; [reflexivity | exact Hi].
Qed.

Lemma listener_safe (post : PistonRequest -> post_result)
      (generate : string -> option string) (q : request) (st : State) :
  invariant st ->
  outcome (listener post generate q) st = inr tt /\
  invariant (state_after (listener post generate q) st).
Proof.
  intros Hi.
  destruct q as [sid | sid r u | sid r c | sid | sid r u | sid r l | sid msg | sid r c | sid];
    cbn [listener].
  - split; [reflexivity|].
    apply (invariant_conn_set sid {| currentRoom := None; currentUser := None |} st Hi I).
  - now apply join_safe.
  - now apply (document_safe sid r c st).
  - now apply leaveRoom_safe.
  - split; [reflexivity | exact Hi].
  - now apply (document_safe sid r l st).
  - unfold outcome, state_after, compileCode. unfold_H.
    destruct (map_has _ _); [|split; [reflexivity | exact Hi]].
    destruct (post _); split; try reflexivity; exact Hi.
  - unfold outcome, state_after, getAIReview.
    destruct (generate _); split; try reflexivity; exact Hi.
  - now apply disconnect_safe.
Qed.

Lemma serve_keeps_invariant (post : PistonRequest -> post_result)
      (generate : string -> option string) (qs : list request) (st : State) :
  invariant st -> invariant (serve post generate qs st).
Proof.
  revert st. induction qs as [|q qs IH]; intros st Hi; simpl; [exact Hi|].
  apply IH. now apply listener_safe.
Qed.

Lemma serve_invariant (post : PistonRequest -> post_result)
      (generate : string -> option string) (qs : list request) :
  invariant (serve post generate qs start).
Proof. apply serve_keeps_invariant, invariant_start. Qed.

(** X21.  From the initial state and for any sequence of events whose
    payloads have the fields of the event table, no listener of the server
    throws; every room a connection is bound to exists in the room map,
    and no room lists a name twice. *)
Theorem server_never_throws
  (post : PistonRequest -> post_result) (generate : string -> option string)
  (qs : list request) (q : request) :
  let st := serve post generate qs start in
  outcome (listener post generate q) st = inr tt /\
  bound_rooms_exist st /\ names_unique st.
Proof.
  intros st. pose proof (serve_invariant post generate qs) as Hi. fold st in Hi.
  split; [now apply listener_safe | exact Hi].
Qed.

(** *** Joining, then leaving *)

Lemma join_result (sid roomId userName : string) (st : State) :
  invariant st ->
  exists st1 fx1,
    leave_previous sid st = (inr tt, st1, fx1) /\ invariant st1 /\
    (roomData st1 = roomData st /\
     Forall (fun e => exists to rc args, e = Send to rc "userJoined" args) fx1) /\
    join sid roomId userName st =
      (inr tt, entered sid roomId userName st1,
       (fx1 ++ Send (ToRoom roomId) (subscribers roomId (entered sid roomId userName st1))
                    "userJoined" [array_from (entered_names roomId userName st1)]
               :: document_for sid roomId st1)%list).
Proof.
  intros Hi. destruct (leave_previous_safe sid st Hi) as (st1 & fx1 & E1 & Hi1).
  exists st1, fx1. split; [exact E1|]. split; [exact Hi1|]. split.
  - destruct (currentRoom (conn_of sid st)) as [room|] eqn:Hc.
    + destruct (truthy room) eqn:Hr.
      * destruct (conn_room_exists sid room st (proj1 Hi) Hc) as [names Hm].
        rewrite (leave_previous_bound sid room names st Hc Hr Hm) in E1.
        injection E1 as <- <-. split; [reflexivity|].
        constructor; [|constructor]. eauto.
      * rewrite leave_previous_unbound in E1 by now rewrite Hc.
        injection E1 as <- <-. split; [reflexivity | constructor].
    + rewrite leave_previous_unbound in E1 by now rewrite Hc.
      injection E1 as <- <-. split; [reflexivity | constructor].
  - rewrite join_split, (bind_ok _ _ _ _ _ _ E1), enter_ok. reflexivity.
Qed.

Lemma subscribers_In (sid roomId : string) (st : State) :
  In sid (subscribers roomId st) <-> In (sid, roomId) (subs st).
Proof.
  unfold subscribers. rewrite in_map_iff. split.
  - intros ([s r] & <- & H). apply filter_In in H. destruct H as [H E].
    cbn in E. apply String.eqb_eq in E. now subst.
  - intros H. exists (sid, roomId). split; [reflexivity|].
    apply filter_In. split; [exact H | apply String.eqb_refl].
Qed.

Lemma entered_subscribed (sid roomId userName : string) (st : State) :
  In sid (subscribers roomId (entered sid roomId userName st)).
Proof.
  apply subscribers_In. unfold entered. cbn [subs].
  destruct (existsb _ (subs st)) eqn:E.
  - apply existsb_exists in E. destruct E as ([s r] & Hin & E). cbn in E.
    apply andb_true_iff in E. destruct E as [E1 E2].
    apply String.eqb_eq in E1, E2. now subst.
  - apply in_or_app. right. now left.
Qed.


(** X22.  In any state the server can reach, a join with a non-empty room
    id and user name followed by leaveRoom on the same socket leaves the
    name out of the room's members, the socket out of the room and the
    connection unbound; the leaving socket is still among the recipients
    of the member list that leaveRoom broadcasts. *)
Theorem join_then_leave
  (post : PistonRequest -> post_result) (generate : string -> option string)
  (qs : list request) (sid room user : string) :
  room <> "" -> user <> "" ->
  let st := serve post generate qs start in
  let st1 := state_after (join sid room user) st in
  let st2 := state_after (leaveRoom sid) st1 in
  In user (members room st1) /\
  ~ In user (members room st2) /\
  ~ In sid (subscribers room st2) /\
  conn_of sid st2 = {| currentRoom := None; currentUser := None |} /\
  exists rcpts,
    In sid rcpts /\
    effects_of (leaveRoom sid) st1 =
      [Send (ToRoom room) rcpts "userJoined" [array_from (members room st2)];
       Log [VString "A user disconnected"]].
Proof.
  intros Hr Hu st st1 st2.
  apply truthy_true_iff in Hr, Hu.
  pose proof (serve_invariant post generate qs) as Hi. fold st in Hi.
  destruct (join_result sid room user st Hi) as (s0 & fx0 & _ & Hi0 & _ & Ej).
  assert (E1 : st1 = entered sid room user s0) by (unfold st1, state_after; now rewrite Ej).
  assert (Hc : conn_of sid st1 = {| currentRoom := Some room; currentUser := Some user |}).
  { rewrite E1. unfold conn_of, entered. cbn [conns]. now rewrite map_get_set_same. }
  assert (Hm : map_get room (rooms st1) = Some (entered_names room user s0)).
  { rewrite E1. unfold entered. cbn [rooms]. apply map_get_set_same. }
  pose proof (leaveRoom_bound sid room user _ st1 Hc Hr Hu Hm) as El.
  assert (E2 : st2 = snd (fst (leaveRoom sid st1))) by reflexivity.
  rewrite El in E2. cbn [fst snd] in E2.
  assert (Hm2 : members room st2 = set_delete user (entered_names room user s0)).
  { rewrite E2. unfold members. cbn [rooms]. now rewrite map_get_set_same. }
  split; [|split; [|split; [|split]]].
  - unfold members. rewrite Hm. unfold entered_names. apply set_add_In. now right.
  - rewrite Hm2. intros H. apply set_delete_In in H. tauto.
  - rewrite subscribers_In, E2. cbn [subs]. intros H. apply filter_In in H.
    destruct H as [_ H]. cbn in H. now rewrite !String.eqb_refl in H.
  - rewrite E2. unfold conn_of. cbn [conns]. now rewrite map_get_set_same.
  - exists (subscribers room st1). split.
    + rewrite E1. apply entered_subscribed.
    + unfold effects_of. rewrite El, Hm2. reflexivity.
Qed.

Lemma join_then_leave_witness :
  ~ In "C"
       (members "123"
          (state_after (leaveRoom "c")
             (state_after (join "c" "123" "C")
                (serve (fun _ => Rejected {| response_message := None; message := "" |})
                       (fun _ => None)
                       [Connect "a"; Join "a" "123" "A"; Connect "b"; Join "b" "123" "B"]
                       start)))).
Proof.
  pose proof (join_then_leave (fun _ => Rejected {| response_message := None; message := "" |})
                (fun _ => None)
                [Connect "a"; Join "a" "123" "A"; Connect "b"; Join "b" "123" "B"]
                "c" "123" "C") as H.
  destruct H as (_ & Hout & _); [discriminate | discriminate |].
  exact Hout.
Defined.

(** *** The stored document *)

Lemma codeChange_ok (sid roomId code : string) (st : State) :
  codeChange sid roomId code st =
    (inr tt,
     {| rooms := rooms st;
        roomData := map_set roomId
                      {| info_code := Some code;
                         info_language := match map_get roomId (roomData st) with
                                          | Some info => info_language info
                                          | None => None
                                          end |}
                      (if negb (map_has roomId (roomData st))
                       then map_set roomId {| info_code := None; info_language := None |}
                                    (roomData st)
                       else roomData st);
        subs := subs st; conns := conns st |},
     [Send (ToOthers roomId) (recipients sid (ToOthers roomId) st) "codeUpdate"
           [VString code]]).
Proof.
  unfold codeChange, map_has. unfold_H.
  destruct (map_get roomId (roomData st)) as [info|] eqn:E; unfold_H.
  - rewrite E. reflexivity.
  - rewrite map_get_set_same. reflexivity.
Qed.

Lemma languageChange_ok (sid roomId language : string) (st : State) :
  languageChange sid roomId language st =
    (inr tt,
     {| rooms := rooms st;
        roomData := map_set roomId
                      {| info_code := match map_get roomId (roomData st) with
                                      | Some info => info_code info
                                      | None => None
                                      end;
                         info_language := Some language |}
                      (if negb (map_has roomId (roomData st))
                       then map_set roomId {| info_code := None; info_language := None |}
                                    (roomData st)
                       else roomData st);
        subs := subs st; conns := conns st |},
     [Send (ToRoom roomId) (subscribers roomId st) "languageUpdate" [VString language]]).
Proof.
  unfold languageChange, map_has. unfold_H.
  destruct (map_get roomId (roomData st)) as [info|] eqn:E; unfold_H.
  - rewrite E. reflexivity.
  - rewrite map_get_set_same. reflexivity.
Qed.

(** X23.  A late joiner is sent the stored document: in any state the
    server can reach, after a codeChange with text c and a languageChange
    with language l for a room, a join to that room sends the joiner (and
    only the joiner) codeUpdate with c when c is not empty and languageUpdate
    with l when l is not empty, after the member lists; the join does not
    change the stored document. *)
Theorem late_joiner_gets_document
  (post : PistonRequest -> post_result) (generate : string -> option string)
  (qs : list request) (sid1 sid2 room code language user : string) :
  let st := serve post generate qs start in
  let st1 := state_after (languageChange sid1 room language)
                         (state_after (codeChange sid1 room code) st) in
  map_get room (roomData st1) =
    Some {| info_code := Some code; info_language := Some language |} /\
  roomData (state_after (join sid2 room user) st1) = roomData st1 /\
  exists fx0,
    Forall (fun e => exists to rc args, e = Send to rc "userJoined" args) fx0 /\
    effects_of (join sid2 room user) st1 =
      (fx0 ++
       (if truthy code then [Send ToSender [sid2] "codeUpdate" [VString code]] else []) ++
       (if truthy language then [Send ToSender [sid2] "languageUpdate" [VString language]]
        else []))%list.
Proof.
  intros st st1.
  pose proof (serve_invariant post generate qs) as Hi. fold st in Hi.
  assert (Hd : map_get room (roomData st1) =
               Some {| info_code := Some code; info_language := Some language |}).
  { unfold st1, state_after. rewrite languageChange_ok, codeChange_ok. cbn [fst snd roomData].
    rewrite map_get_set_same. unfold map_has. rewrite !map_get_set_same. reflexivity. }
  assert (Hi1 : invariant st1).
  { unfold st1. apply (document_safe sid1 room language).
    now apply (document_safe sid1 room code). }
  destruct (join_result sid2 room user st1 Hi1) as (s0 & fx1 & _ & _ & (Hrd & Hfx) & Ej).
  split; [exact Hd|]. split.
  - unfold state_after. rewrite Ej. cbn [fst snd]. unfold entered. cbn [roomData]. exact Hrd.
  - exists (fx1 ++ [Send (ToRoom room) (subscribers room (entered sid2 room user s0))
                         "userJoined" [array_from (entered_names room user s0)]])%list.
    split.
    + apply Forall_app. split; [exact Hfx|]. constructor; [eauto | constructor].
    + unfold effects_of. rewrite Ej. cbn [snd]. rewrite <- app_assoc. cbn [app].
      unfold document_for. rewrite Hrd, Hd. reflexivity.
Qed.

(** *** Disconnecting is leaving *)

Lemma subscribers_leave_all (sid room : string) (st : State) :
  subscribers room (state_after (leave_all sid) st) =
  filter (fun x => negb (String.eqb x sid)) (subscribers room st).
Proof.
  unfold subscribers, state_after, leave_all, modify. cbn [fst snd subs].
  induction (subs st) as [|[x r] l IH]; cbn; [reflexivity|].
  destruct (String.eqb x sid) eqn:Ex; cbn.
  - destruct (String.eqb r room); cbn; [rewrite Ex; cbn|]; exact IH.
  - destruct (String.eqb r room); cbn; [rewrite Ex; cbn; f_equal|]; exact IH.
Qed.

(** X24.  In any state the server can reach, a disconnect does to the
    member lists what leaveRoom does and broadcasts the same event with the
    same member list; the difference is in who receives it: the
    disconnected socket is in no room any more, so it is not among the
    recipients. *)
Theorem disconnect_cleans_up_as_leave
  (post : PistonRequest -> post_result) (generate : string -> option string)
  (qs : list request) (sid : string) :
  let st := serve post generate qs start in
  rooms (state_after (disconnect sid) st) = rooms (state_after (leaveRoom sid) st) /\
  unaddressed (effects_of (disconnect sid) st) = unaddressed (effects_of (leaveRoom sid) st) /\
  (forall to rc event args,
      In (Send to rc event args) (effects_of (disconnect sid) st) -> ~ In sid rc) /\
  (forall room, ~ In sid (subscribers room (state_after (disconnect sid) st))).
Proof.
  intros st. pose proof (serve_invariant post generate qs) as Hi. fold st in Hi.
  assert (Hgone : forall room, ~ In sid (subscribers room (state_after (leave_all sid) st))).
  { intros room. rewrite subscribers_leave_all. intros H. apply filter_In in H.
    destruct H as [_ H]. now rewrite String.eqb_refl in H. }
  unfold state_after, effects_of.
  destruct (bound_or_not sid st) as [(room & user & Hc & Hr & Hu) | Hn].
  - destruct (conn_room_exists sid room st (proj1 Hi)) as [names Hm]; [now rewrite Hc|].
    rewrite (disconnect_bound sid room user names st Hc Hr Hu Hm),
            (leaveRoom_bound sid room user names st Hc Hr Hu Hm).
    cbn [fst snd rooms]. repeat split.
    + intros to rc event args [H | [H | []]]; [|discriminate H].
      injection H as _ <- _ _. apply Hgone.
    + intros r H. apply subscribers_In in H. cbn [subs] in H.
      apply filter_In in H. destruct H as [_ H]. cbn in H. now rewrite String.eqb_refl in H.
  - rewrite (disconnect_unbound sid st Hn), (leaveRoom_unbound sid st Hn).
    cbn [fst snd]. repeat split.
    + intros to rc event args [H | []]. discriminate H.
    + apply Hgone.
Qed.

(** *** Compiling *)




(** A language outside the selector has no default version. *)
Lemma compile_unknown_language_has_no_version :
  p_version (piston_request {| c_code := "x"; c_roomId := "1"; c_language := "cobol";
                               c_version := "*"; c_stdin := "" |}) = VUndefined.
Proof. reflexivity. Qed.

(** *** The client's events reach the listeners *)

(** X26.  Whatever the user does and whatever the client state, every
    event the client emits has a listener on the server and supplies, as
    strings, every field that listener destructures; the room the listener
    is given is the room id of the client state. *)
Theorem client_events_are_understood
  (x : App.stimulus) (s : App.AppState) (sid event : string) (args : list value) :
  In (event, args) (App.emitted (App.effects (App.handler x) s)) ->
  exists q, parse sid event args = Some q /\
            (forall r, room_of q = Some r -> r = App.roomId s).
Proof.
  intros H. destruct (silent x) eqn:Hs.
  - rewrite (silent_emits x s Hs) in H. contradiction.
  - destruct x; try discriminate Hs; clear Hs; cbn [App.handler] in H.
    + rewrite JoinRoom_emits in H.
      destruct (truthy (App.roomId s) && truthy (App.userName s)); [|contradiction].
      destruct H as [H | []]. injection H as <- <-.
      eexists. split; [reflexivity|]. now intros r [= <-].
    + rewrite handleLanguageChange_emits in H. destruct H as [H | []].
      injection H as <- <-. eexists. split; [reflexivity|]. now intros r [= <-].
    + rewrite leaveRoom_emits in H. destruct H as [H | []].
      injection H as <- <-. eexists. split; [reflexivity|]. intros r Hr. discriminate Hr.
    + rewrite AIreview_emits in H. destruct H as [H | []].
      injection H as <- <-. eexists. split; [reflexivity|]. now intros r [= <-].
    + rewrite handleCodeChange_emits in H. destruct H as [H | [H | []]];
        injection H as <- <-; (eexists; split; [reflexivity|]; now intros r [= <-]).
    + rewrite runCode_emits in H. destruct H as [H | []].
      injection H as <- <-. eexists. split; [reflexivity|]. now intros r [= <-].
    + rewrite handleBeforeUnload_emits in H. destruct H as [H | []].
      injection H as <- <-. eexists. split; [reflexivity|]. intros r Hr. discriminate Hr.
Qed.

Lemma client_events_are_understood_witness :
  exists q, parse "s1" "compileCode"
              [VObject [("code", VString "// start coding here..."); ("roomId", VString "");
                        ("language", VString "cpp"); ("version", VString "*");
                        ("stdin", VString "")]] = Some q.
Proof.
  destruct (client_events_are_understood App.ClickExecute App.initial "s1" "compileCode"
              [VObject [("code", VString "// start coding here..."); ("roomId", VString "");
                        ("language", VString "cpp"); ("version", VString "*");
                        ("stdin", VString "")]]) as (q & Hq & _).
  - left. reflexivity.
  - exists q. exact Hq.
Defined.

(** *** Who hears an edit *)

Lemma leave_previous_keeps_others (sid x r : string) (st : State) :
  invariant st -> x <> sid -> In (x, r) (subs st) ->
  In (x, r) (subs (state_after (leave_previous sid) st)).
Proof.
  intros Hi Hx Hin. unfold state_after.
  destruct (currentRoom (conn_of sid st)) as [room|] eqn:Hc.
  - destruct (truthy room) eqn:Hr.
    + destruct (conn_room_exists sid room st (proj1 Hi) Hc) as [names Hm].
      rewrite (leave_previous_bound sid room names st Hc Hr Hm). cbn [fst snd subs].
      apply filter_In. split; [exact Hin|]. cbn [fst snd].
      destruct (String.eqb_spec x sid) as [E|_]; [contradiction | reflexivity].
    + rewrite leave_previous_unbound by now rewrite Hc. exact Hin.
  - rewrite leave_previous_unbound by now rewrite Hc. exact Hin.
Qed.

Lemma join_keeps_others (sid roomId userName x r : string) (st : State) :
  invariant st -> x <> sid -> In (x, r) (subs st) ->
  In (x, r) (subs (state_after (join sid roomId userName) st)).
Proof.
  intros Hi Hx Hin.
  pose proof (leave_previous_keeps_others sid x r st Hi Hx Hin) as H1.
  destruct (join_result sid roomId userName st Hi) as (st1 & fx1 & E1 & _ & _ & E).
  unfold state_after in *. rewrite E1 in H1. rewrite E. cbn [fst snd] in *.
  unfold entered. cbn [subs]. destruct (existsb _ (subs st1)); [exact H1|].
  apply in_or_app. now left.
Qed.

(** X27.  In any state the server can reach, once two different sockets
    have joined the same room, an edit and a typing notice of the second
    are sent to the same recipients: the first socket is among them and
    the author is not. *)
Theorem edit_reaches_the_others
  (post : PistonRequest -> post_result) (generate : string -> option string)
  (qs : list request) (a b r ua ub code : string) :
  a <> b ->
  let st := serve post generate qs start in
  let st2 := state_after (join b r ub) (state_after (join a r ua) st) in
  exists rcpts,
    effects_of (codeChange b r code) st2 =
      [Send (ToOthers r) rcpts "codeUpdate" [VString code]] /\
    effects_of (typing b r ub) st2 =
      [Send (ToOthers r) rcpts "userTyping" [VString ub]] /\
    In a rcpts /\ ~ In b rcpts.
Proof.
  intros Hab st st2.
  assert (Hi : invariant st) by apply serve_invariant.
  pose proof (join_safe a r ua st Hi) as [_ Hi1].
  assert (Ha : In (a, r) (subs st2)).
  { apply join_keeps_others; [exact Hi1 | exact Hab |].
    destruct (join_result a r ua st Hi) as (st1 & fx1 & _ & _ & _ & E).
    unfold state_after. rewrite E. cbn [fst snd].
    apply subscribers_In. apply entered_subscribed. }
  exists (recipients b (ToOthers r) st2). split; [|split; [|split]].
  - unfold effects_of. rewrite codeChange_ok. reflexivity.
  - reflexivity.
  - unfold recipients. apply filter_In. split; [now apply subscribers_In|].
    destruct (String.eqb_spec a b) as [E|_]; [contradiction | reflexivity].
  - unfold recipients. intros H. apply filter_In in H. destruct H as [_ H].
    now rewrite String.eqb_refl in H.
Qed.

Lemma edit_reaches_the_others_witness :
  exists rcpts,
    effects_of (codeChange "s2" "123" "x") 
               (state_after (join "s2" "123" "B") (state_after (join "s1" "123" "A") start)) =
      [Send (ToOthers "123") rcpts "codeUpdate" [VString "x"]] /\ In "s1" rcpts.
Proof.
  destruct (edit_reaches_the_others (fun _ => Resolved VNull) (fun _ => None) []
              "s1" "s2" "123" "A" "B" "x") as (rcpts & H1 & _ & H2 & _).
  - discriminate.
  - exists rcpts. split; [exact H1 | exact H2].
Defined.

(** *** Guessing the language of a snippet *)

Lemma prefix_spec (sub s : string) :
  String.prefix sub s = true <-> exists b, s = (sub ++ b)%string.
Proof.
  revert s. induction sub as [|c sub IH]; intros s.
  - split; [intros _; now exists s | intros _; now destruct s].
  - destruct s as [|d s]; simpl.
    + split; [discriminate | intros [b Hb]; discriminate Hb].
    + destruct (Ascii.ascii_dec c d) as [->|Hn].
      * rewrite IH. split; intros [b Hb]; exists b; [now rewrite Hb | now injection Hb].
      * split; [discriminate | intros [b Hb]; injection Hb as E _; now subst].
Qed.

Lemma includes_spec (s sub : string) :
  includes s sub = true <-> exists a b, s = (a ++ sub ++ b)%string.
Proof.
  induction s as [|c s IH]; cbn [includes].
  - destruct (String.prefix sub "") eqn:E.
    + split; [intros _ | reflexivity]. apply prefix_spec in E. destruct E as [b Hb].
      now exists "", b.
    + split; [discriminate|]. intros (a & b & Hab).
      destruct a; [|discriminate Hab]. cbn in Hab.
      assert (String.prefix sub "" = true) by (apply prefix_spec; now exists b).
      congruence.
  - destruct (String.prefix sub (String c s)) eqn:E.
    + split; [intros _ | reflexivity]. apply prefix_spec in E. destruct E as [b Hb].
      now exists "", b.
    + rewrite IH. split.
      * intros (a & b & Hab). exists (String c a), b. cbn. now rewrite Hab.
      * intros (a & b & Hab). destruct a as [|d a].
        -- cbn in Hab.
           assert (String.prefix sub (String c s) = true) by (apply prefix_spec; now exists b).
           congruence.
        -- cbn in Hab. injection Hab as _ Hab. now exists a, b.
Qed.

(** X28.  The language named in a review prompt is one of five labels; it
    is C++ exactly for code that contains the text #include, whatever
    else the code contains, and it is the word code exactly when none of
    the seven markers occurs. *)
Theorem detectLang_labels (code : string) :
  In (detectLang code) ["C++"; "Python"; "JavaScript"; "Java"; "code"] /\
  (detectLang code = "C++" <-> exists a b, code = (a ++ "#include" ++ b)%string) /\
  (detectLang code = "code" <->
     forall m, In m ["#include"; "def "; "print("; "function"; "console.";
                     "public class"; "System.out"] ->
               ~ exists a b, code = (a ++ m ++ b)%string).
Proof.
  unfold detectLang. split; [|split].
  - destruct (includes code "#include"); [cbn; auto|].
    destruct (includes code "def " || includes code "print("); [cbn; auto|].
    destruct (includes code "function" || includes code "console."); [cbn; auto|].
    destruct (includes code "public class" || includes code "System.out"); cbn; auto 6.
  - rewrite <- includes_spec.
    destruct (includes code "#include"); [split; reflexivity|].
    destruct (includes code "def " || includes code "print(");
      [split; discriminate|].
    destruct (includes code "function" || includes code "console.");
      [split; discriminate|].
    destruct (includes code "public class" || includes code "System.out");
      split; discriminate.
  - split.
    + intros H m Hm Hex. apply includes_spec in Hex.
      destruct (includes code "#include") eqn:E1; [discriminate H|].
      destruct (includes code "def ") eqn:E2; [discriminate H|].
      destruct (includes code "print(") eqn:E3; [discriminate H|].
      destruct (includes code "function") eqn:E4; [discriminate H|].
      destruct (includes code "console.") eqn:E5; [discriminate H|].
      destruct (includes code "public class") eqn:E6; [discriminate H|].
      destruct (includes code "System.out") eqn:E7; [discriminate H|].
      destruct Hm as [<- | [<- | [<- | [<- | [<- | [<- | [<- | []]]]]]]]; congruence.
    + intros H.
      assert (Hn : forall m, In m ["#include"; "def "; "print("; "function"; "console.";
                                   "public class"; "System.out"] ->
                             includes code m = false).
      { intros m Hm. destruct (includes code m) eqn:E; [|reflexivity].
        exfalso. apply (H m Hm). now apply includes_spec. }
      rewrite !Hn by (cbn; auto 10). reflexivity.
Qed.

(** A Java snippet that prints the text of a Python definition is labelled
    Python: the markers are tried in the order of the source. *)
Lemma detectLang_first_marker_wins :
  detectLang "System.out.println(1); // def f" = "Python".
Proof. reflexivity. Qed.

(** *** No broadcast is delivered twice *)

Lemma subscribers_NoDup (r : string) (st : State) :
  subs_unique st -> NoDup (subscribers r st).
Proof.
  unfold subs_unique, subscribers. induction (subs st) as [|[s q] l IH]; intros Hn; cbn.
  - constructor.
  - inversion Hn as [|? ? Hnot Hl]; subst.
    destruct (String.eqb_spec q r) as [->|_]; [|now apply IH].
    cbn. constructor; [|now apply IH].
    intros Hin. apply in_map_iff in Hin. destruct Hin as ([s' q'] & E & Hin).
    apply filter_In in Hin. destruct Hin as [Hin Eq]. cbn in E, Eq.
    apply String.eqb_eq in Eq. subst. contradiction.
Qed.

Lemma recipients_NoDup (sid : string) (to : target) (st : State) :
  subs_unique st -> NoDup (recipients sid to st).
Proof.
  intros Hn. destruct to as [|r|r]; cbn [recipients].
  - constructor; [intros [] | constructor].
  - now apply subscribers_NoDup.
  - apply NoDup_filter. now apply subscribers_NoDup.
Qed.

Lemma subs_unique_joined (sid r : string) (l : list (string * string)) :
  NoDup l ->
  NoDup (if existsb (fun p => String.eqb (fst p) sid && String.eqb (snd p) r) l
         then l else (l ++ [(sid, r)])%list).
Proof.
  intros Hn. destruct (existsb _ l) eqn:E; [exact Hn|].
  apply NoDup_app; [exact Hn | constructor; [intros [] | constructor] |].
  intros x Hx [<- | []].
  assert (existsb (fun p => String.eqb (fst p) sid && String.eqb (snd p) r) l = true).
  { apply existsb_exists. exists (sid, r). split; [exact Hx|]. cbn.
    now rewrite !String.eqb_refl. }
  congruence.
Qed.

Lemma leave_previous_once (sid : string) (st : State) :
  invariant st -> subs_unique st -> delivers_once (leave_previous sid) st.
Proof.
  intros Hi Hn. unfold delivers_once, state_after, effects_of.
  destruct (currentRoom (conn_of sid st)) as [room|] eqn:Hc.
  - destruct (truthy room) eqn:Hr.
    + destruct (conn_room_exists sid room st (proj1 Hi) Hc) as [names Hm].
      rewrite (leave_previous_bound sid room names st Hc Hr Hm). cbn [fst snd].
      assert (Hf : NoDup (filter (fun p => negb (String.eqb (fst p) sid && String.eqb (snd p) room))
                                 (subs st))) by now apply NoDup_filter.
      split; [exact Hf|].
      intros to rcpts event args [E | []]. injection E as _ <- _ _.
      apply subscribers_NoDup. exact Hf.
    + rewrite leave_previous_unbound by now rewrite Hc.
      split; [exact Hn | intros ? ? ? ? []].
  - rewrite leave_previous_unbound by now rewrite Hc.
    split; [exact Hn | intros ? ? ? ? []].
Qed.

Lemma document_for_once (sid r : string) (st : State) to rcpts event args :
  In (Send to rcpts event args) (document_for sid r st) -> rcpts = [sid].
Proof.
  unfold document_for. intros H. apply in_app_or in H.
  destruct (map_get r (roomData st)) as [[[c|] [l|]]|]; cbn in H;
    try destruct (truthy c); try destruct (truthy l); cbn in H;
    repeat match goal with
           | H : _ \/ _ |- _ => destruct H as [H | H]
           | H : False |- _ => contradiction
           | H : Send _ _ _ _ = Send _ _ _ _ |- _ => injection H as _ <- _ _; reflexivity
           end.
Qed.

Lemma join_once (sid r u : string) (st : State) :
  invariant st -> subs_unique st -> delivers_once (join sid r u) st.
Proof.
  intros Hi Hn. destruct (leave_previous_once sid st Hi Hn) as [Hn1 Hfx1].
  destruct (join_result sid r u st Hi) as (st1 & fx1 & E1 & _ & _ & E).
  unfold delivers_once, state_after, effects_of in *. rewrite E1 in *. rewrite E.
  cbn [fst snd] in *.
  assert (Hn2 : subs_unique (entered sid r u st1)).
  { unfold subs_unique, entered. cbn [subs]. now apply subs_unique_joined. }
  split; [exact Hn2|].
  intros to rcpts event args H. apply in_app_or in H. destruct H as [H | [H | H]].
  - now apply (Hfx1 to rcpts event args).
  - injection H as _ <- _ _. now apply subscribers_NoDup.
  - apply document_for_once in H. subst. constructor; [intros [] | constructor].
Qed.

Lemma leaveRoom_once (sid : string) (st : State) :
  invariant st -> subs_unique st -> delivers_once (leaveRoom sid) st.
Proof.
  intros Hi Hn. unfold delivers_once, state_after, effects_of.
  destruct (bound_or_not sid st) as [(room & user & Hc & Hr & Hu) | Hno].
  - destruct (conn_room_exists sid room st (proj1 Hi)) as [names Hm]; [now rewrite Hc|].
    rewrite (leaveRoom_bound sid room user names st Hc Hr Hu Hm). cbn [fst snd].
    assert (Hf : NoDup (filter (fun p => negb (String.eqb (fst p) sid && String.eqb (snd p) room))
                                 (subs st))) by now apply NoDup_filter.
    split; [exact Hf|].
    intros to rcpts event args [E | [E | []]]; [|discriminate E].
    injection E as _ <- _ _. now apply subscribers_NoDup.
  - rewrite (leaveRoom_unbound sid st Hno).
    split; [exact Hn | intros ? ? ? ? [E | []]; discriminate E].
Qed.

Lemma disconnect_once (sid : string) (st : State) :
  invariant st -> subs_unique st -> delivers_once (disconnect sid) st.
Proof.
  intros Hi Hn. unfold delivers_once, state_after, effects_of.
  assert (Hf : NoDup (filter (fun p => negb (String.eqb (fst p) sid)) (subs st)))
    by now apply NoDup_filter.
  destruct (bound_or_not sid st) as [(room & user & Hc & Hr & Hu) | Hno].
  - destruct (conn_room_exists sid room st (proj1 Hi)) as [names Hm]; [now rewrite Hc|].
    rewrite (disconnect_bound sid room user names st Hc Hr Hu Hm). cbn [fst snd].
    split; [exact Hf|].
    intros to rcpts event args [E | [E | []]]; [|discriminate E].
    injection E as _ <- _ _. apply subscribers_NoDup. exact Hf.
  - rewrite (disconnect_unbound sid st Hno). cbn [fst snd].
    split; [exact Hf|]. intros to rcpts event args [E | []]. discriminate E.
Qed.

Lemma listener_once (post : PistonRequest -> post_result)
      (generate : string -> option string) (q : request) (st : State) :
  invariant st -> subs_unique st -> delivers_once (listener post generate q) st.
Proof.
  intros Hi Hn.
  destruct q as [sid | sid r u | sid r c | sid | sid r u | sid r l | sid msg | sid r c | sid];
    cbn [listener].
  - split; [exact Hn|]. intros to rcpts event args [E | []]. discriminate E.
  - now apply join_once.
  - unfold delivers_once, state_after, effects_of. rewrite codeChange_ok. cbn [fst snd].
    split; [exact Hn|]. intros to rcpts event args [E | []].
    injection E as _ <- _ _. exact (recipients_NoDup sid (ToOthers r) st Hn).
  - now apply leaveRoom_once.
  - split; [exact Hn|]. intros to rcpts event args [E | []].
    injection E as _ <- _ _. exact (recipients_NoDup sid (ToOthers r) st Hn).
  - unfold delivers_once, state_after, effects_of. rewrite languageChange_ok. cbn [fst snd].
    split; [exact Hn|]. intros to rcpts event args [E | []].
    injection E as _ <- _ _. exact (recipients_NoDup sid (ToRoom r) st Hn).
  - unfold delivers_once, state_after, effects_of, compileCode. unfold_H.
    destruct (map_has _ _); [|split; [exact Hn | intros ? ? ? ? []]].
    destruct (post _); (split; [exact Hn|]);
      intros to rcpts event args [E | [E | []]]; try discriminate E;
      injection E as _ <- _ _; (constructor; [intros [] | constructor]).
  - unfold delivers_once, state_after, effects_of, getAIReview.
    destruct (generate _); (split; [exact Hn|]);
      intros to rcpts event args [E | []];
      injection E as _ <- _ _; now apply subscribers_NoDup.
  - now apply disconnect_once.
Qed.

Lemma serve_subs_unique (post : PistonRequest -> post_result)
      (generate : string -> option string) (qs : list request) (st : State) :
  invariant st -> subs_unique st -> subs_unique (serve post generate qs st).
Proof.
  revert st. induction qs as [|q qs IH]; intros st Hi Hn; simpl; [exact Hn|].
  apply IH; [now apply listener_safe | now apply listener_once].
Qed.

(** X29.  From the initial state and for any sequence of events, no
    listener delivers an event twice to the same socket: the recipients
    of every emission are pairwise different. *)
Theorem no_double_delivery
  (post : PistonRequest -> post_result) (generate : string -> option string)
  (qs : list request) (q : request)
  (to : target) (rcpts : list string) (event : string) (args : list value) :
  In (Send to rcpts event args)
     (effects_of (listener post generate q) (serve post generate qs start)) ->
  NoDup rcpts.
Proof.
  intros H.
  assert (Hn : subs_unique (serve post generate qs start)).
  { apply serve_subs_unique; [apply invariant_start | constructor]. }
  exact (proj2 (listener_once post generate q _ (serve_invariant post generate qs) Hn)
               to rcpts event args H).
Qed.

Lemma no_double_delivery_witness :
  NoDup ["s2"; "s1"].
Proof.
  apply (no_double_delivery (fun _ => Resolved VNull) (fun _ => None)
           [Connect "s1"; Connect "s2"; Join "s1" "123" "A"; Join "s2" "123" "B";
            Join "s1" "123" "A"]
           (LanguageChange "s2" "123" "java")
           (ToRoom "123") ["s2"; "s1"] "languageUpdate" [VString "java"]).
  left. vm_compute. reflexivity.
Defined.

End ServerFacts.
